(** * Window::Theme — theme loading, preview and revert

    A shallow embedding of [Telegram/SourceFiles/window/window_theme.cpp]:
    the color-scheme parser, the theme container loader, the cache check,
    the tiled-background synthesis, the preview / keep / revert state
    machine and the fitting of the background rectangles, together with
    the properties the specification states about them and further
    properties read off the code.

    Conventions.
    - A [QByteArray] and a [QLatin1String] are both a [string] (a sequence
      of 8-bit characters); [const char *from, *end] is the string of the
      characters in [from, end), so [from != end] is "not empty".
    - A [QImage] is [option ImageData]; [None] is the null image.
    - C++ out-parameters and mutated globals are returned explicitly.
    - Undefined behaviour and failed [t_assert]s are outcomes of type
      [Outcome], never silently skipped.
    - [float64] arithmetic is an interface ([Float64]); the integer
      arithmetic around it is written out. *)

From Stdlib Require Import ZArith Lia Ascii String List Bool.
From Stdlib Require QArith Qround.
From stdpp Require Import base option gmap strings list.

Local Open Scope Z_scope.

(** ** Characters and byte arrays *)

Abbreviation bytes := string (only parsing).

(** The numeric value of a [char], as compared against character literals. *)
Definition code (c : ascii) : Z := Z.of_N (N_of_ascii c).

Definition size (s : string) : Z := Z.of_nat (String.length s).

Definition isEmpty (s : string) : bool :=
  match s with EmptyString => true | String _ _ => false end.

(** ** core/parse_helper.h *)

Module parse.

(** Modelled from the spec: [base::parse::skipWhitespaces] and
    [base::parse::readName] live in core/parse_helper.h, which is not among
    the sources. The spec has "skip whitespace; read an identifier as
    name" with "free whitespace": whitespace is space, newline, tab and
    carriage return; an identifier is made of letters, digits and '_'. *)
Definition isWhitespace (c : ascii) : bool :=
  let n := code c in
  (n =? 32) || (n =? 10) || (n =? 9) || (n =? 13).

Definition isNameChar (c : ascii) : bool :=
  let n := code c in
  ((code "a" <=? n) && (n <=? code "z"))
  || ((code "A" <=? n) && (n <=? code "Z"))
  || ((code "0" <=? n) && (n <=? code "9"))
  || (n =? code "_").

(** [skipWhitespaces(from, end)] advances [from] past whitespace and
    answers [from != end]. *)
Fixpoint skip (from : string) : string :=
  match from with
  | String c rest => if isWhitespace c then skip rest else from
  | EmptyString => EmptyString
  end.

Definition skipWhitespaces (from : string) : bool * string :=
  let from' := skip from in (negb (isEmpty from'), from').

(** [readName(from, end)] returns the longest identifier prefix and
    advances [from] past it. *)
Fixpoint readName (from : string) : string * string :=
  match from with
  | String c rest =>
      if isNameChar c
      then let '(name, from') := readName rest in (String c name, from')
      else (EmptyString, from)
  | EmptyString => (EmptyString, EmptyString)
  end.

End parse.

(** ** Images *)

Inductive Format :=
| Format_ARGB32
| Format_ARGB32_Premultiplied
| Format_RGB32
| Format_Other.

#[global] Instance Format_eq_dec : EqDecision Format.
Proof. solve_decision. Defined.

(** A non-null image: its dimensions, its pixel format and, for the 32-bit
    formats, its scanlines as one row-major list of 32-bit pixels
    (0xAARRGGBB), [width] pixels per line. *)
Record ImageData := {
  width : Z;
  height : Z;
  format : Format;
  bits : list Z;
}.

Abbreviation QImage := (option ImageData) (only parsing).
Abbreviation QPixmap := (option ImageData) (only parsing).

Definition isNull (image : QImage) : bool :=
  match image with None => true | Some _ => false end.

(** A [QPixmap] is modelled by the image it was made from, so
    [App::pixmapFromImageInPlace] and [QPixmap::toImage] keep the data. *)
Definition pixmapFromImageInPlace (image : QImage) : QPixmap := image.
Definition toImage (pixmap : QPixmap) : QImage := pixmap.

(** ** Theme records (window_theme.h) *)

Record Cached := {
  colors : bytes;
  cached_background : bytes;
  cached_tiled : bool;
  paletteChecksum : Z;
  contentChecksum : Z;
}.

(** [Cached()] *)
Definition Cached0 : Cached :=
  {| colors := ""; cached_background := ""; cached_tiled := false;
     paletteChecksum := 0; contentChecksum := 0 |}.

(** Modelled from the spec: the background identifiers are [int32]
    constants of window_theme.h, which is not among the sources. The spec
    lists the sentinels "default, initial, theme-provided, testing-theme,
    testing-default", the uninitialized state, "or a user-chosen custom
    image"; they are pairwise distinct, which is all the code relies on. *)
Inductive BackgroundId :=
| kUninitializedBackground
| kTestingThemeBackground
| kTestingDefaultBackground
| kThemeBackground
| kInitialBackground
| kDefaultBackground
| kCustom (id : Z).

#[global] Instance BackgroundId_eq_dec : EqDecision BackgroundId.
Proof. solve_decision. Defined.

Definition isTesting (id : BackgroundId) : bool :=
  bool_decide (id = kTestingThemeBackground)
  || bool_decide (id = kTestingDefaultBackground).

Inductive UpdateType :=
| New | Changed | TestingTheme | ApplyingTheme | RevertingTheme.

Record BackgroundUpdate := {
  update_type : UpdateType;
  update_tiled : bool;
}.

(** ** core/zlib_help.h *)

Module zlib.

(** Modelled from the spec: [zlib::FileToRead] is in core/zlib_help.h, not
    among the sources. The spec has a "zip-compatible container" read by
    entry name with a "case-insensitive name match" and a size cap, where
    "entry not found is not an error" and "a read/decode error on a found
    entry is fatal". An archive is its list of entries; an entry that
    cannot be inflated is [Corrupt]. *)
Inductive Entry := Readable (content : bytes) | Corrupt.

Definition Archive := list (string * Entry).

Definition UNZ_OK : Z := 0.
Definition UNZ_END_OF_LIST_OF_FILE : Z := -100.
Definition UNZ_ERRNO : Z := -1.

Record FileToRead := {
  handle : option Archive;
  error : Z;
}.

Definition lower (c : ascii) : ascii :=
  let n := code c in
  if (code "A" <=? n) && (n <=? code "Z")
  then ascii_of_N (Z.to_N (n + 32)) else c.

Fixpoint lowered (s : string) : string :=
  match s with
  | EmptyString => EmptyString
  | String c rest => String (lower c) (lowered rest)
  end.

Fixpoint locate (filename : string) (entries : Archive) : option Entry :=
  match entries with
  | [] => None
  | (name, entry) :: rest =>
      if String.eqb (lowered name) (lowered filename) then Some entry
      else locate filename rest
  end.

Definition open (archive : option Archive) : FileToRead :=
  {| handle := archive;
     error := match archive with Some _ => UNZ_OK | None => UNZ_ERRNO end |}.

Definition clearError (file : FileToRead) : FileToRead :=
  {| handle := handle file; error := UNZ_OK |}.

Definition failed (file : FileToRead) (e : Z) : bytes * FileToRead :=
  (EmptyString, {| handle := handle file; error := e |}).

(** [readFileContent(filename, kCaseInsensitive, fileSizeLimit)] *)
Definition readFileContent (filename : string) (fileSizeLimit : Z)
    (file : FileToRead) : bytes * FileToRead :=
  if negb (error file =? UNZ_OK) then (EmptyString, file) else
  match handle file with
  | None => failed file UNZ_ERRNO
  | Some entries =>
      match locate filename entries with
      | None => failed file UNZ_END_OF_LIST_OF_FILE
      | Some Corrupt => failed file UNZ_ERRNO
      | Some (Readable content) =>
          if size content >? fileSizeLimit then failed file UNZ_ERRNO
          else (content, file)
      end
  end.

End zlib.

(** ** hashCrc32 *)

(** Modelled from the spec: [hashCrc32] is declared outside the sources;
    the spec has "a 32-bit checksum (e.g. CRC32) of the raw input bytes".
    This is the CRC-32 of zlib and PNG (reflected polynomial 0xEDB88320,
    initial value and final xor 0xFFFFFFFF), as an unsigned 32-bit value. *)
Definition crcPolynomial : Z := 0xEDB88320.

Definition crcBit (s : Z) : Z :=
  Z.lxor (Z.shiftr s 1) (if Z.testbit s 0 then crcPolynomial else 0).

Definition crcByte (s : Z) (c : ascii) : Z :=
  Nat.iter 8 crcBit (Z.lxor s (code c)).

Fixpoint crcUpdate (s : Z) (data : string) : Z :=
  match data with
  | EmptyString => s
  | String c rest => crcUpdate (crcByte s c) rest
  end.

Definition hashCrc32 (data : bytes) : Z :=
  Z.lxor (crcUpdate 0xFFFFFFFF data) 0xFFFFFFFF.

(** ** Collaborators *)

(** The palette registry (generated style code) is an external
    collaborator: its operations are an interface. [palette_setColor] and
    [palette_setColorRef] answer whether the name was found;
    [palette_load] answers whether the blob was accepted. *)
Class Registry (P : Type) := {
  palette_new : P;
  palette_setColor : string -> Z -> Z -> Z -> Z -> P -> bool * P;
  palette_setColorRef : string -> string -> P -> bool * P;
  palette_save : P -> bytes;
  palette_load : bytes -> P -> bool * P;
  palette_apply : P -> P -> P;
  palette_reset : P -> P;
  palette_Checksum : Z;
}.

Record QFile := {
  file_exists : bool;
  file_size : Z;
  file_opens : bool;
  file_readAll : bytes;
}.

(** Everything else the file calls and does not define: the comment
    stripper, the zip reader's decoding, the image codecs and pixel
    conversions of Qt, the built-in art, the display settings, the colour
    arithmetic of [QColor], the file system and the [Local] storage (whose
    state is [L]). *)
Class Collaborators (P L : Type) := {
  (** Modelled from the spec: [base::parse::stripComments]
      (core/parse_helper.h); the "//" and block comments are "stripped
      beforehand". *)
  stripComments : bytes -> bytes;
  unzOpen : bytes -> option zlib.Archive;
  (** [App::readImage] and [QImageReader::read] with auto transform. *)
  readImage : bytes -> QImage;
  readerRead : bytes -> QImage;
  (** [QImage::save(&buffer, "BMP")] of a non-null image. *)
  saveBMP : ImageData -> option bytes;
  convertToFormat : Format -> ImageData -> ImageData;
  scaledToWidth : Z -> ImageData -> ImageData;
  (** ":/gui/art/bg.jpg" and ":/gui/art/bg_initial.png". *)
  art_bg : ImageData;
  art_bg_initial : ImageData;
  cRetina : bool;
  cScaleIsOne : bool;
  convertScale : Z -> Z;
  (** The pixels an allocated and not yet written image shows. *)
  uninitialized : Z;
  (** [initColor] on the six service colours, for the hue and saturation
      of [QColor(r, g, b)]: floating-point colour arithmetic of Qt. *)
  initServiceColors : Z -> Z -> Z -> P -> P;
  openFile : string -> QFile;
  relativeFilePath : string -> string;
  absoluteFilePath : string -> string;
  Local_hasTheme : L -> bool;
  (** Modelled from the spec: [Local::readBackground] "tries restoring a
      persisted background"; it hands the stored identifier and image to
      [setImage] and answers whether there was one. *)
  Local_readBackground : L -> option (BackgroundId * QImage) * L;
  Local_writeBackground : BackgroundId -> QImage -> L -> L;
  Local_writeUserSettings : bool -> L -> L;
  Local_writeTheme : string -> string -> bytes -> Cached -> L -> L;
}.

(** ** Faults *)

Inductive Fault := NullDereference | AssertionFailed | OutOfFuel.

Inductive Outcome (A : Type) :=
| Done (a : A)
| Crash (fault : Fault).

Arguments Done {A} a.
Arguments Crash {A} fault.

(** [enum class LoadResult]; its [NotFound] is not [SetResult]'s. *)
Module LoadResult.
Inductive LoadResult := Loaded | Failed | NotFound.
End LoadResult.

Section Theme.

Context {P L : Type} `{Registry P} `{Collaborators P L}.

Record Instance := {
  palette : P;
  background : QImage;
  tiled : bool;
  cached : Cached;
}.

(** [Instance()] *)
Definition Instance0 : Instance :=
  {| palette := palette_new; background := None; tiled := false;
     cached := Cached0 |}.

Record Preview := {
  preview_path : string;
  preview_instance : Instance;
  preview_content : bytes;
}.

Definition kThemeFileSizeLimit : Z := 5 * 1024 * 1024.
Definition kThemeBackgroundSizeLimit : Z := 4 * 1024 * 1024.
Definition kThemeSchemeSizeLimit : Z := 1024 * 1024.
Definition kMinimumTiledSize : Z := 512.

(** ** Hex digits *)

(** [readHexUchar(char code, bool &error)]: the digit value and the new
    value of [error]. *)
Definition readHexUchar1 (c : ascii) (error : bool) : Z * bool :=
  let n := code c in
  if (code "0" <=? n) && (n <=? code "9") then
    (Z.land (n - code "0") 255, error)
  else if (code "a" <=? n) && (n <=? code "f") then
    (Z.land (n + 10 - code "a") 255, error)
  else if (code "A" <=? n) && (n <=? code "F") then
    (Z.land (n + 10 - code "A") 255, error)
  else (255, true).

(** [readHexUchar(char char1, char char2, bool &error)]; the result is
    converted to [uchar]. *)
Definition readHexUchar (char1 char2 : ascii) (error : bool) : Z * bool :=
  let '(h, error) := readHexUchar1 char1 error in
  let '(l, error) := readHexUchar1 char2 error in
  (Z.land (Z.lor (Z.shiftl (Z.land h 15) 4) (Z.land l 15)) 255, error).

(** ** readNameAndValue *)

Record NameAndValue := {
  nv_ok : bool;
  nv_from : string;
  nv_name : string;
  nv_value : string;
}.

Definition nv_fail (from name : string) : NameAndValue :=
  {| nv_ok := false; nv_from := from; nv_name := name; nv_value := "" |}.

(** [readNameAndValue(from, end, outName, outValue)], with [*outName] and
    [*outValue] empty on entry as at its only call. *)
Definition readNameAndValue (from : string) : NameAndValue :=
  let '(more, from) := parse.skipWhitespaces from in
  if negb more then
    {| nv_ok := true; nv_from := from; nv_name := ""; nv_value := "" |}
  else
  let '(name, from) := parse.readName from in
  if size name =? 0 then nv_fail from name else
  let '(more, from) := parse.skipWhitespaces from in
  if negb more then nv_fail from name else
  match from with
  | EmptyString => nv_fail from name
  | String c from =>
    if negb (Ascii.eqb c ":") then nv_fail (String c from) name else
    let '(more, from) := parse.skipWhitespaces from in
    if negb more then nv_fail from name else
    let '(hash, from) :=
      match from with
      | String c rest => if Ascii.eqb c "#" then (true, rest) else (false, from)
      | EmptyString => (false, from)
      end in
    let '(digits, from) := parse.readName from in
    if size digits =? 0 then nv_fail from name else
    (* QLatin1String(valueStart, from - valueStart) *)
    let value := if hash : bool then String "#" digits else digits in
    let '(more, from) := parse.skipWhitespaces from in
    if negb more then nv_fail from name else
    match from with
    | EmptyString => nv_fail from name
    | String c from =>
      if negb (Ascii.eqb c ";") then nv_fail (String c from) name else
      {| nv_ok := true; nv_from := from; nv_name := name; nv_value := value |}
    end
  end.

(** ** setColorSchemeValue *)

Inductive SetResult := Ok | Bad | NotFound.

(** [data[i]]; one past the last character the terminating NUL is read. *)
Definition at_ (data : string) (i : nat) : ascii :=
  match String.get i data with Some c => c | None => zero end.

(** A call [out ? out->palette.f(..) : style::main_palette::f(..)]. *)
Definition onPalette {A} (f : P -> A * P) (out : option Instance) (main : P)
    : A * option Instance * P :=
  match out with
  | Some i =>
      let '(a, p) := f (palette i) in
      (a, Some {| palette := p; background := background i;
                  tiled := tiled i; cached := cached i |}, main)
  | None => let '(a, p) := f main in (a, None, p)
  end.

Definition setColorSchemeValue (name value : string)
    (out : option Instance) (main : P) : SetResult * option Instance * P :=
  let sz := size value in
  let data := at_ value in
  if Ascii.eqb (data 0%nat) "#" && ((sz =? 7) || (sz =? 9)) then
    let error := false in
    let '(r, error) := readHexUchar (data 1%nat) (data 2%nat) error in
    let '(g, error) := readHexUchar (data 3%nat) (data 4%nat) error in
    let '(b, error) := readHexUchar (data 5%nat) (data 6%nat) error in
    let '(a, error) :=
      if sz =? 9 then readHexUchar (data 7%nat) (data 8%nat) error
      else (255, error) in
    if error : bool then (Bad, out, main)
    else
      let '(found, out, main) :=
        onPalette (palette_setColor name r g b a) out main in
      (if found : bool then Ok else NotFound, out, main)
  else
    let '(found, out, main) :=
      onPalette (palette_setColorRef name value) out main in
    (if found : bool then Ok else NotFound, out, main).

(** ** loadColorScheme *)

(** The [while (from != end)] loop. A turn that goes on has consumed a
    character, so fuel above the length of the input is never used up
    (lemma [schemeLoop_fuel]); [None] is "out of fuel". *)
Fixpoint schemeLoop (fuel : nat) (from : string)
    (unsupported : gmap string string) (out : option Instance) (main : P)
    : option (bool * option Instance * P) :=
  match fuel with
  | O => None
  | S fuel =>
    if isEmpty from then Some (true, out, main) else
    let nv := readNameAndValue from in
    if negb (nv_ok nv) then Some (false, out, main) else
    let name := nv_name nv in
    if size name =? 0 then Some (true, out, main) else
    let value := default (nv_value nv) (unsupported !! nv_value nv) in
    let '(result, out, main) := setColorSchemeValue name value out main in
    match result with
    | Bad => Some (false, out, main)
    | NotFound =>
        schemeLoop fuel (nv_from nv) (<[name := value]> unsupported) out main
    | Ok => schemeLoop fuel (nv_from nv) unsupported out main
    end
  end.

(** The loop on the stripped [data], started as [loadColorScheme] does. *)
Definition loadColorSchemeData (data : string)
    (out : option Instance) (main : P) : option (bool * option Instance * P) :=
  schemeLoop (S (String.length data)) data ∅ out main.

Definition loadColorScheme (content : bytes)
    (out : option Instance) (main : P) : option (bool * option Instance * P) :=
  if size content >? kThemeSchemeSizeLimit then Some (false, out, main)
  else loadColorSchemeData (stripComments content) out main.

(** ** The process-wide state *)

Record ChatBackground := {
  _id : BackgroundId;
  _pixmap : QPixmap;
  _pixmapForTiled : QPixmap;
  _tile : bool;
  _themeImage : QImage;
  _themeTile : bool;
  _idForRevert : BackgroundId;
  _imageForRevert : QImage;
  _tileForRevert : bool;
}.

Record Applying := {
  path : string;
  content : bytes;
  paletteForRevert : bytes;
  applying_cached : Cached;
}.

(** [Data::Applying()] *)
Definition Applying0 : Applying :=
  {| path := ""; content := ""; paletteForRevert := "";
     applying_cached := Cached0 |}.

Record Data := {
  data_background : ChatBackground;
  applying : Applying;
}.

(** Modelled from the spec: the member initializers of [ChatBackground]
    are in window_theme.h, not among the sources; a fresh background is
    "uninitialized", with null pixmaps and images. *)
Definition ChatBackground0 : ChatBackground :=
  {| _id := kUninitializedBackground; _pixmap := None;
     _pixmapForTiled := None; _tile := false;
     _themeImage := None; _themeTile := false;
     _idForRevert := kUninitializedBackground; _imageForRevert := None;
     _tileForRevert := false |}.

Definition Data0 : Data :=
  {| data_background := ChatBackground0; applying := Applying0 |}.

(** The live palette [style::main_palette], the singleton
    [NeverFreedPointer<Data> instance], the [Local] storage and the
    notifications sent so far (latest first, with their "forced" flag). *)
Record World := {
  main_palette : P;
  instance : option Data;
  storage : L;
  notified : list (BackgroundUpdate * bool);
}.

Definition M (A : Type) : Type := World -> Outcome (A * World).

#[global] Instance M_ret : MRet M := fun A a w => Done (a, w).

#[global] Instance M_bind : MBind M := fun A B k m w =>
  match m w with
  | Done (a, w') => k a w'
  | Crash f => Crash f
  end.

Definition crash {A} (f : Fault) : M A := fun _ => Crash f.

Definition t_assert (condition : bool) : M unit :=
  if condition then mret () else crash AssertionFailed.

Definition getPalette : M P := fun w => Done (main_palette w, w).

Definition setPalette (p : P) : M unit := fun w =>
  Done ((), {| main_palette := p; instance := instance w;
               storage := storage w; notified := notified w |}).

Definition getStorage : M L := fun w => Done (storage w, w).

Definition setStorage (l : L) : M unit := fun w =>
  Done ((), {| main_palette := main_palette w; instance := instance w;
               storage := l; notified := notified w |}).

Definition getInstance : M (option Data) := fun w => Done (instance w, w).

Definition setInstance (d : option Data) : M unit := fun w =>
  Done ((), {| main_palette := main_palette w; instance := d;
               storage := storage w; notified := notified w |}).

(** [instance->...]: dereferencing the null singleton is a fault. *)
Definition deref : M Data :=
  d ← getInstance;
  match d with Some d => mret d | None => crash NullDereference end.

(** [instance.createIfNull()] *)
Definition createIfNull : M unit :=
  d ← getInstance;
  match d with Some _ => mret () | None => setInstance (Some Data0) end.

Definition notify (update : BackgroundUpdate) (forced : bool) : M unit :=
  fun w =>
  Done ((), {| main_palette := main_palette w; instance := instance w;
               storage := storage w;
               notified := (update, forced) :: notified w |}).

(** The members of [*this] for the methods of [ChatBackground], whose
    object is [instance->background]. *)
Definition this : M ChatBackground := d ← deref; mret (data_background d).

Definition setThis (bg : ChatBackground) : M unit :=
  d ← deref;
  setInstance (Some {| data_background := bg; applying := applying d |}).

Definition getApplying : M Applying := d ← deref; mret (applying d).

Definition setApplying (a : Applying) : M unit :=
  d ← deref;
  setInstance (Some {| data_background := data_background d; applying := a |}).

(** ** Background preparation *)

(** [prepareBackgroundImage]; the device pixel ratio tag is not modelled. *)
Definition prepareBackgroundImage (image : QImage) : QImage :=
  match image with
  | None => None
  | Some d =>
      match format d with
      | Format_ARGB32 | Format_ARGB32_Premultiplied | Format_RGB32 => Some d
      | Format_Other => Some (convertToFormat Format_RGB32 d)
      end
  end.

(** The bytes [pix[i + 0]], [pix[i + 1]], [pix[i + 2]] of a pixel. *)
Definition pixByte (k : Z) (pixel : Z) : Z :=
  Z.land (Z.shiftr pixel (8 * k)) 255.

Definition sumBytes (k : Z) (pixels : list Z) : Z :=
  foldr (fun pixel acc => pixByte k pixel + acc) 0 pixels.

(** [initColorsFromBackground]: the averages of the three channels are
    integers; the hue, the saturation and the six [initColor] calls are
    [initServiceColors]. *)
Definition initColorsFromBackground (img : QImage) : M unit :=
  match img with
  | None => crash AssertionFailed
  | Some d =>
      t_assert (bool_decide (format d = Format_ARGB32_Premultiplied));;
      let count := width d * height d in
      let pix := take (Z.to_nat count) (bits d) in
      let average (sum : Z) := if count =? 0 then sum else sum / count in
      let components0 := average (sumBytes 2 pix) in
      let components1 := average (sumBytes 1 pix) in
      let components2 := average (sumBytes 0 pix) in
      p ← getPalette;
      setPalette (initServiceColors components0 components1 components2 p)
  end.

(** [qCeil(kMinimumTiledSize / float64(dimension))]. The double nearest
    to 512 / dimension is that quotient when it is an integer and is
    otherwise further than its rounding error from every integer, so the
    result is the integer ceiling. *)
Definition qCeilOfRatio (threshold dimension : Z) : Z :=
  (threshold + dimension - 1) / dimension.

(** [memcpy(to, from, n)] on pixel buffers, offsets and counts in pixels
    (every byte offset of the source is a multiple of [sizeof(uint32)]). *)
Definition memcpy (canvas : list Z) (to : nat) (source : list Z)
    (from n : nat) : list Z :=
  take to canvas ++ take n (drop from source) ++ drop (to + n) canvas.

(** [for (timesX = 0; timesX != repeatTimesX; ++timesX)]: the canvas and
    [imageForTiledBytes] after the loop. *)
Fixpoint tileLine (repeatTimesX : nat) (canvas : list Z) (to : nat)
    (source : list Z) (from bytesInLine : nat) : list Z * nat :=
  match repeatTimesX with
  | O => (canvas, to)
  | S n =>
      tileLine n (memcpy canvas to source from bytesInLine)
        (to + bytesInLine) source from bytesInLine
  end.

(** [for (y = 0; y != height; ++y)] *)
Fixpoint tileLines (height : nat) (repeatTimesX : nat) (canvas : list Z)
    (to : nat) (source : list Z) (from bytesInLine : nat)
    (sourceBytesPerLine canvasBytesPerLine : nat) : list Z * nat :=
  match height with
  | O => (canvas, to)
  | S n =>
      let '(canvas, to) :=
        tileLine repeatTimesX canvas to source from bytesInLine in
      tileLines n repeatTimesX canvas
        (to + (canvasBytesPerLine - repeatTimesX * bytesInLine))
        source (from + sourceBytesPerLine) bytesInLine
        sourceBytesPerLine canvasBytesPerLine
  end.

(** [for (timesY = 0; timesY != repeatTimesY; ++timesY)] *)
Fixpoint tileBlocks (repeatTimesY : nat) (height repeatTimesX : nat)
    (canvas : list Z) (to : nat) (source : list Z) (bytesInLine : nat)
    (sourceBytesPerLine canvasBytesPerLine : nat) : list Z * nat :=
  match repeatTimesY with
  | O => (canvas, to)
  | S n =>
      let '(canvas, to) :=
        tileLines height repeatTimesX canvas to source 0 bytesInLine
          sourceBytesPerLine canvasBytesPerLine in
      tileBlocks n height repeatTimesX canvas to source bytesInLine
        sourceBytesPerLine canvasBytesPerLine
  end.

Definition isSmallForTiled (image : ImageData) : bool :=
  (width image <? kMinimumTiledSize) || (height image <? kMinimumTiledSize).

(** The [imageForTiled] built inside [if (isSmallForTiled)]. A line of a
    32-bit image takes [width * sizeof(uint32)] bytes with no padding. *)
Definition imageForTiled (image : ImageData) : ImageData :=
  let repeatTimesX := qCeilOfRatio kMinimumTiledSize (width image) in
  let repeatTimesY := qCeilOfRatio kMinimumTiledSize (height image) in
  let canvasWidth := width image * repeatTimesX in
  let canvasHeight := height image * repeatTimesY in
  let canvas := replicate (Z.to_nat (canvasWidth * canvasHeight)) uninitialized in
  let bytesInLine := Z.to_nat (width image) in
  let '(canvas, _) :=
    tileBlocks (Z.to_nat repeatTimesY) (Z.to_nat (height image))
      (Z.to_nat repeatTimesX) canvas 0 (bits image) bytesInLine
      (Z.to_nat (width image)) (Z.to_nat canvasWidth) in
  {| width := canvasWidth; height := canvasHeight;
     format := Format_ARGB32_Premultiplied; bits := canvas |}.

(** ** ChatBackground *)

Definition with_id (id : BackgroundId) (bg : ChatBackground) :=
  {| _id := id; _pixmap := _pixmap bg; _pixmapForTiled := _pixmapForTiled bg;
     _tile := _tile bg; _themeImage := _themeImage bg;
     _themeTile := _themeTile bg; _idForRevert := _idForRevert bg;
     _imageForRevert := _imageForRevert bg;
     _tileForRevert := _tileForRevert bg |}.

Definition with_tile (tile : bool) (bg : ChatBackground) :=
  {| _id := _id bg; _pixmap := _pixmap bg;
     _pixmapForTiled := _pixmapForTiled bg;
     _tile := tile; _themeImage := _themeImage bg;
     _themeTile := _themeTile bg; _idForRevert := _idForRevert bg;
     _imageForRevert := _imageForRevert bg;
     _tileForRevert := _tileForRevert bg |}.

Definition with_pixmaps (pixmap pixmapForTiled : QPixmap)
    (bg : ChatBackground) :=
  {| _id := _id bg; _pixmap := pixmap; _pixmapForTiled := pixmapForTiled;
     _tile := _tile bg; _themeImage := _themeImage bg;
     _themeTile := _themeTile bg; _idForRevert := _idForRevert bg;
     _imageForRevert := _imageForRevert bg;
     _tileForRevert := _tileForRevert bg |}.

Definition with_theme (themeImage : QImage) (themeTile : bool)
    (bg : ChatBackground) :=
  {| _id := _id bg; _pixmap := _pixmap bg;
     _pixmapForTiled := _pixmapForTiled bg;
     _tile := _tile bg; _themeImage := themeImage;
     _themeTile := themeTile; _idForRevert := _idForRevert bg;
     _imageForRevert := _imageForRevert bg;
     _tileForRevert := _tileForRevert bg |}.

Definition with_revert (id : BackgroundId) (image : QImage) (tile : bool)
    (bg : ChatBackground) :=
  {| _id := _id bg; _pixmap := _pixmap bg;
     _pixmapForTiled := _pixmapForTiled bg;
     _tile := _tile bg; _themeImage := _themeImage bg;
     _themeTile := _themeTile bg; _idForRevert := id;
     _imageForRevert := image; _tileForRevert := tile |}.

Definition setThemeData (themeImage : QImage) (themeTile : bool) : M unit :=
  bg ← this;
  setThis (with_theme (prepareBackgroundImage themeImage) themeTile bg).

Definition setPreparedImage (image : QImage) : M unit :=
  let image := convertToFormat Format_ARGB32_Premultiplied <$> image in
  bg ← this;
  (if negb (bool_decide (_id bg = kThemeBackground))
      && negb (bool_decide (_id bg = kTestingThemeBackground)) then
     l ← getStorage;
     d ← getInstance;
     let colorsFromSomeTheme := Local_hasTheme l in
     let colorsFromSomeTheme :=
       match d with
       | Some d =>
           if negb (isEmpty (paletteForRevert (applying d)))
           then negb (isEmpty (path (applying d)))
           else colorsFromSomeTheme
       | None => colorsFromSomeTheme
       end in
     if colorsFromSomeTheme
        || (negb (bool_decide (_id bg = kDefaultBackground))
            && negb (bool_decide (_id bg = kTestingDefaultBackground)))
     then initColorsFromBackground image
     else mret ()
   else mret ());;
  match image with
  | None => crash AssertionFailed (* width() and height() of null are 0 *)
  | Some d =>
      t_assert ((width d >? 0) && (height d >? 0));;
      bg ← this;
      if isSmallForTiled d then
        setThis (with_pixmaps (pixmapFromImageInPlace (Some d))
                   (pixmapFromImageInPlace (Some (imageForTiled d))) bg)
      else
        let pixmap := pixmapFromImageInPlace (Some d) in
        setThis (with_pixmaps pixmap pixmap bg)
  end.

Definition writeBackground (id : BackgroundId) (image : QImage) : M unit :=
  l ← getStorage; setStorage (Local_writeBackground id image l).

Definition writeUserSettings : M unit :=
  bg ← this; l ← getStorage;
  setStorage (Local_writeUserSettings (_tile bg) l).

Definition setImage (id : BackgroundId) (image : QImage) : M unit :=
  bg ← this;
  let id :=
    if bool_decide (id = kThemeBackground) && isNull (_themeImage bg)
    then kDefaultBackground else id in
  setThis (with_id id bg);;
  (if bool_decide (id = kThemeBackground) then
     setThis (with_tile (_themeTile bg) (with_id id bg));;
     setPreparedImage (_themeImage bg)
   else if isTesting id then
     if bool_decide (id = kTestingDefaultBackground) || isNull image then
       setThis (with_id kTestingDefaultBackground bg);;
       setPreparedImage (Some art_bg)
     else setPreparedImage image
   else
     (if bool_decide (id = kInitialBackground) then
        let image := art_bg_initial in
        let image :=
          if cRetina then scaledToWidth (width image * 2) image
          else if negb cScaleIsOne
          then scaledToWidth (convertScale (width image)) image
          else image in
        mret (id, Some image)
      else if bool_decide (id = kDefaultBackground) || isNull image then
        setThis (with_id kDefaultBackground bg);;
        mret (kDefaultBackground, Some art_bg)
      else mret (id, image)) ≫= fun '(id, image) =>
     writeBackground id
       (if bool_decide (id = kDefaultBackground)
           || bool_decide (id = kInitialBackground)
        then None else image);;
     setPreparedImage (prepareBackgroundImage image));;
  bg ← this;
  t_assert (negb (isNull (_pixmap bg)) && negb (isNull (_pixmapForTiled bg)));;
  notify {| update_type := New; update_tiled := _tile bg |} false.

Definition start : M unit :=
  bg ← this;
  if bool_decide (_id bg = kUninitializedBackground) then
    l ← getStorage;
    let '(stored, l) := Local_readBackground l in
    setStorage l;;
    match stored with
    | Some (id, image) => setImage id image
    | None => setImage kThemeBackground None
    end
  else mret ().

Definition id : M BackgroundId := bg ← this; mret (_id bg).

Definition tile : M bool := bg ← this; mret (_tile bg).


Definition ensureStarted : M unit :=
  bg ← this;
  if isNull (_pixmap bg) then start else mret ().

Definition setTile (tile : bool) : M unit :=
  ensureStarted;;
  bg ← this;
  if negb (eqb (_tile bg) tile) then
    setThis (with_tile tile bg);;
    (if negb (isTesting (_id bg)) then writeUserSettings else mret ());;
    notify {| update_type := Changed; update_tiled := tile |} false
  else mret ().

Definition reset : M unit :=
  bg ← this;
  if isTesting (_id bg) then
    if isNull (_themeImage bg) then
      setThis (with_revert kDefaultBackground None false bg)
    else
      setThis (with_revert kThemeBackground (_themeImage bg) (_themeTile bg) bg)
  else setImage kThemeBackground None.

Definition saveForRevert : M unit :=
  ensureStarted;;
  bg ← this;
  if negb (isTesting (_id bg)) then
    setThis (with_revert (_id bg) (toImage (_pixmap bg)) (_tile bg) bg)
  else mret ().

Definition setTestingTheme (theme : Instance) : M unit :=
  p ← getPalette;
  setPalette (palette_apply (palette theme) p);;
  bg ← this;
  (if negb (isNull (background theme))
      || bool_decide (_id bg = kThemeBackground) then
     saveForRevert;;
     setImage kTestingThemeBackground (background theme);;
     setTile (tiled theme)
   else
     setImage (_id bg) (toImage (_pixmap bg)));;
  bg ← this;
  notify {| update_type := TestingTheme; update_tiled := _tile bg |} true.

Definition setTestingDefaultTheme : M unit :=
  p ← getPalette;
  setPalette (palette_reset p);;
  bg ← this;
  (if bool_decide (_id bg = kThemeBackground) then
     saveForRevert;;
     setImage kTestingDefaultBackground None;;
     setTile false
   else
     setImage (_id bg) (toImage (_pixmap bg)));;
  bg ← this;
  notify {| update_type := TestingTheme; update_tiled := _tile bg |} true.

Definition writeNewBackgroundSettings : M unit :=
  bg ← this;
  (if negb (eqb (_tile bg) (_tileForRevert bg)) then writeUserSettings
   else mret ());;
  writeBackground (_id bg) None.

Definition keepApplied : M unit :=
  bg ← this;
  (if bool_decide (_id bg = kTestingThemeBackground) then
     setThis (with_theme (toImage (_pixmap bg)) (_tile bg)
                (with_id kThemeBackground bg));;
     writeNewBackgroundSettings
   else if bool_decide (_id bg = kTestingDefaultBackground) then
     setThis (with_theme None false (with_id kDefaultBackground bg));;
     writeNewBackgroundSettings
   else mret ());;
  bg ← this;
  notify {| update_type := ApplyingTheme; update_tiled := _tile bg |} true.

Definition revert : M unit :=
  bg ← this;
  (if isTesting (_id bg) then
     setTile (_tileForRevert bg);;
     setImage (_idForRevert bg) (_imageForRevert bg)
   else
     setImage (_id bg) (toImage (_pixmap bg)));;
  bg ← this;
  notify {| update_type := RevertingTheme; update_tiled := _tile bg |} true.

(** [Background()] creates the singleton; its result is [this]. *)
Definition Background : M unit := createIfNull.

(** ** The theme container loader *)

Definition applyBackground (background : QImage) (tiled : bool)
    (out : option Instance) : M (option Instance) :=
  match out with
  | Some i =>
      mret (Some {| palette := palette i; background := background;
                    tiled := tiled; cached := cached i |})
  | None =>
      Background;;
      setThemeData background tiled;;
      mret None
  end.

Definition loadThemeFromCache (content : bytes) (cache : Cached) : M bool :=
  if negb (paletteChecksum cache =? palette_Checksum) then mret false else
  if negb (contentChecksum cache =? hashCrc32 content) then mret false else
  let read : option QImage :=
    if negb (isEmpty (cached_background cache)) then
      match readerRead (cached_background cache) with
      | Some d => Some (Some d)
      | None => None
      end
    else Some None in
  match read with
  | None => mret false
  | Some background =>
      p ← getPalette;
      let '(loaded, p) := palette_load (colors cache) p in
      setPalette p;;
      if negb loaded then mret false else
      (if negb (isNull background)
       then applyBackground background (cached_tiled cache) None;; mret ()
       else mret ());;
      mret true
  end.

Definition loadBackgroundFromFile (file : zlib.FileToRead)
    (filename : string)
    : LoadResult.LoadResult * bytes * zlib.FileToRead :=
  let '(outBackground, file) :=
    zlib.readFileContent filename kThemeBackgroundSizeLimit file in
  if zlib.error file =? zlib.UNZ_OK then
    (LoadResult.Loaded, outBackground, file)
  else if zlib.error file =? zlib.UNZ_END_OF_LIST_OF_FILE then
    (LoadResult.NotFound, outBackground, zlib.clearError file)
  else (LoadResult.Failed, outBackground, file).

Definition isLoaded (result : LoadResult.LoadResult) : bool :=
  match result with LoadResult.Loaded => true | _ => false end.

Definition isNotFound (result : LoadResult.LoadResult) : bool :=
  match result with LoadResult.NotFound => true | _ => false end.

(** [loadBackground(file, outBackground, outTiled)]: the result, the file
    and the values left in [*outBackground] and [*outTiled]. *)
Definition loadBackground (file : zlib.FileToRead) (outTiled : bool)
    : bool * zlib.FileToRead * bytes * bool :=
  let '(result, outBackground, file) :=
    loadBackgroundFromFile file "background.jpg" in
  if negb (isNotFound result)
  then (isLoaded result, file, outBackground, outTiled) else
  let '(result, outBackground, file) :=
    loadBackgroundFromFile file "background.png" in
  if negb (isNotFound result)
  then (isLoaded result, file, outBackground, outTiled) else
  let outTiled := true in
  let '(result, outBackground, file) :=
    loadBackgroundFromFile file "tiled.jpg" in
  if negb (isNotFound result)
  then (isLoaded result, file, outBackground, outTiled) else
  let '(result, outBackground, file) :=
    loadBackgroundFromFile file "tiled.png" in
  if negb (isNotFound result)
  then (isLoaded result, file, outBackground, outTiled) else
  (true, file, outBackground, outTiled).

(** [loadColorScheme(content, out)] on the live palette. *)
Definition runColorScheme (content : bytes) (out : option Instance)
    : M (bool * option Instance) :=
  p ← getPalette;
  match loadColorScheme content out p with
  | None => crash OutOfFuel
  | Some (ok, out, p) => setPalette p;; mret (ok, out)
  end.

Definition with_cache_background (background : bytes) (cache : Cached) :=
  {| colors := colors cache; cached_background := background;
     cached_tiled := cached_tiled cache;
     paletteChecksum := paletteChecksum cache;
     contentChecksum := contentChecksum cache |}.

Definition with_cache_tiled (tiled : bool) (cache : Cached) :=
  {| colors := colors cache; cached_background := cached_background cache;
     cached_tiled := tiled;
     paletteChecksum := paletteChecksum cache;
     contentChecksum := contentChecksum cache |}.

(** The part of [loadTheme] before the cache is stamped: every [return
    false] of [loadTheme] is one of these. *)
Definition loadThemeContent (content : bytes) (cache : Cached)
    (out : option Instance) : M (bool * Cached * option Instance) :=
  let file := zlib.open (unzOpen content) in
  if zlib.error file =? zlib.UNZ_OK then
    let '(schemeContent, file) :=
      zlib.readFileContent "colors.tdesktop-theme" kThemeSchemeSizeLimit
        file in
    if negb (zlib.error file =? zlib.UNZ_OK) then mret (false, cache, out)
    else
    '(ok, out) ← runColorScheme schemeContent out;
    if negb ok then mret (false, cache, out) else
    let backgroundTiled := false in
    let '(ok, file, backgroundContent, backgroundTiled) :=
      loadBackground file backgroundTiled in
    if negb ok then mret (false, cache, out) else
    if negb (isEmpty backgroundContent) then
      match readImage backgroundContent with
      | None => mret (false, cache, out)
      | Some background =>
          match saveBMP background with
          | None => mret (false, cache, out)
          | Some bmp =>
              let cache := with_cache_background bmp cache in
              let cache := with_cache_tiled backgroundTiled cache in
              out ← applyBackground (Some background) (cached_tiled cache) out;
              mret (true, cache, out)
          end
      end
    else mret (true, cache, out)
  else
    (* Looks like it is not a .zip theme. *)
    '(ok, out) ← runColorScheme content out;
    mret (ok, cache, out).

(** [loadTheme(content, cache, out)]: the result, [cache] and [*out]. *)
Definition loadTheme (content : bytes) (out : option Instance)
    : M (bool * Cached * option Instance) :=
  let cache := Cached0 in
  '(ok, cache, out) ← loadThemeContent content cache out;
  if negb ok then mret (false, cache, out) else
  p ← getPalette;
  let saved :=
    match out with
    | Some i => palette_save (palette i)
    | None => palette_save p
    end in
  mret (true,
        {| colors := saved;
           cached_background := cached_background cache;
           cached_tiled := cached_tiled cache;
           paletteChecksum := palette_Checksum;
           contentChecksum := hashCrc32 content |},
        out).

(** ** Load, Apply, KeepApplied, Revert *)

Definition writeTheme (pathRelative pathAbsolute : string) (content : bytes)
    (cache : Cached) : M unit :=
  l ← getStorage;
  setStorage (Local_writeTheme pathRelative pathAbsolute content cache l).

(** [Load(pathRelative, pathAbsolute, content, cache)]: the result and
    [cache]. *)
Definition Load (pathRelative pathAbsolute : string) (content : bytes)
    (cache : Cached) : M (bool * Cached) :=
  if size content <? 4 then mret (false, cache) else
  createIfNull;;
  hit ← loadThemeFromCache content cache;
  if hit : bool then mret (true, cache) else
  '(ok, cache, _) ← loadTheme content None;
  if negb ok then mret (false, cache) else
  writeTheme pathRelative pathAbsolute content cache;;
  mret (true, cache).

Definition Unload : M unit := setInstance None.

Definition readThemeContent (path : string) : bytes :=
  let file := openFile path in
  if negb (file_exists file) then ""
  else if file_size file >? kThemeFileSizeLimit then ""
  else if negb (file_opens file) then ""
  else file_readAll file.

(** [LoadFromFile(path, out, outContent)]. The [cache] handed to
    [loadTheme] is [out->cached]. *)
Definition LoadFromFile (path : string) (out : Instance)
    : M (bool * Instance * bytes) :=
  let outContent := readThemeContent path in
  if size outContent <? 4 then mret (false, out, outContent) else
  '(ok, cache, out') ← loadTheme outContent (Some out);
  let out := default out out' in
  mret (ok, {| palette := palette out; background := background out;
               tiled := tiled out; cached := cache |}, outContent).

(** [Apply(std_::unique_ptr<Preview> preview)] *)
Definition Apply (preview : Preview) : M bool :=
  createIfNull;;
  a ← getApplying;
  setApplying {| path := preview_path preview;
                 content := preview_content preview;
                 paletteForRevert := paletteForRevert a;
                 applying_cached := cached (preview_instance preview) |};;
  a ← getApplying;
  (if isEmpty (paletteForRevert a) then
     p ← getPalette;
     setApplying {| path := path a; content := content a;
                    paletteForRevert := palette_save p;
                    applying_cached := applying_cached a |}
   else mret ());;
  Background;;
  setTestingTheme (preview_instance preview);;
  mret true.

(** [Apply(const QString &filepath)] *)
Definition ApplyPath (filepath : string) : M bool :=
  '(ok, loaded, outContent) ← LoadFromFile filepath Instance0;
  if negb ok then mret false else
  Apply {| preview_path := filepath; preview_instance := loaded;
           preview_content := outContent |}.

Definition ApplyDefault : M unit :=
  createIfNull;;
  a ← getApplying;
  setApplying {| path := ""; content := "";
                 paletteForRevert := paletteForRevert a;
                 applying_cached := Cached0 |};;
  a ← getApplying;
  (if isEmpty (paletteForRevert a) then
     p ← getPalette;
     setApplying {| path := path a; content := content a;
                    paletteForRevert := palette_save p;
                    applying_cached := applying_cached a |}
   else mret ());;
  Background;;
  setTestingDefaultTheme.

Definition KeepApplied : M unit :=
  d ← getInstance;
  match d with
  | None => mret ()
  | Some d =>
      let filepath := path (applying d) in
      let pathRelative :=
        if isEmpty filepath then "" else relativeFilePath filepath in
      let pathAbsolute :=
        if isEmpty filepath then "" else absoluteFilePath filepath in
      writeTheme pathRelative pathAbsolute (content (applying d))
        (applying_cached (applying d));;
      setApplying Applying0;;
      Background;;
      keepApplied
  end.

Definition Revert : M unit :=
  a ← getApplying;
  (if negb (isEmpty (paletteForRevert a)) then
     p ← getPalette;
     setPalette (snd (palette_load (paletteForRevert a) p))
   else mret ());;
  setApplying Applying0;;
  Background;;
  revert.

End Theme.

(** ** ComputeBackgroundRects *)

(** [QRect(x, y, width, height)] and [QSize(width, height)], by the values
    their accessors [x()], [y()], [width()] and [height()] return. *)
Record QRect := {
  rect_x : Z;
  rect_y : Z;
  rect_width : Z;
  rect_height : Z;
}.

Record QSize := {
  size_width : Z;
  size_height : Z;
}.

(** The [float64] operations [ComputeBackgroundRects] uses: the
    conversion of an [int], division, multiplication, subtraction, Qt's
    [qCeil] and the conversion [int(x)]. Their rounding is the
    platform's. *)
Class Float64 (F : Type) := {
  float64 : Z -> F;
  fdiv : F -> F -> F;
  fmul : F -> F -> F;
  fsub : F -> F -> F;
  qCeil : F -> Z;
  toInt : F -> Z;
}.

(** Conversion to [uint64], and [int] results with wrap-around. *)
Definition uint64 (n : Z) : Z := n mod 2 ^ 64.

Definition int32 (n : Z) : Z := (n + 2 ^ 31) mod 2 ^ 32 - 2 ^ 31.

(** [takewidth] (or [takeheight]) after the [if ... else if ...]: not more
    than the image has, and of the parity of the image's extent. [%] and
    [/] on [int] truncate towards zero. *)
Definition adjustTake (take extent : Z) : Z :=
  if take >? extent then extent
  else if negb (Z.rem extent 2 =? Z.rem take 2) then int32 (take + 1)
  else take.

Section Rects.

Context {F : Type} `{Float64 F}.

(** [ComputeBackgroundRects(wholeFill, imageSize, to, from)]: the
    rectangles left in [to] and [from]. *)
Definition ComputeBackgroundRects (wholeFill : QRect) (imageSize : QSize)
    : QRect * QRect :=
  if uint64 (uint64 (size_width imageSize) * uint64 (rect_height wholeFill))
     >? uint64 (uint64 (size_height imageSize) * uint64 (rect_width wholeFill))
  then
    let pxsize :=
      fdiv (float64 (rect_height wholeFill))
        (float64 (size_height imageSize)) in
    let takewidth := qCeil (fdiv (float64 (rect_width wholeFill)) pxsize) in
    let takewidth := adjustTake takewidth (size_width imageSize) in
    ({| rect_x :=
          toInt (fdiv (fsub (float64 (rect_width wholeFill))
                         (fmul (float64 takewidth) pxsize)) (float64 2));
        rect_y := 0;
        rect_width := qCeil (fmul (float64 takewidth) pxsize);
        rect_height := rect_height wholeFill |},
     {| rect_x := Z.quot (int32 (size_width imageSize - takewidth)) 2;
        rect_y := 0;
        rect_width := takewidth;
        rect_height := size_height imageSize |})
  else
    let pxsize :=
      fdiv (float64 (rect_width wholeFill))
        (float64 (size_width imageSize)) in
    let takeheight := qCeil (fdiv (float64 (rect_height wholeFill)) pxsize) in
    let takeheight := adjustTake takeheight (size_height imageSize) in
    ({| rect_x := 0;
        rect_y :=
          toInt (fdiv (fsub (float64 (rect_height wholeFill))
                         (fmul (float64 takeheight) pxsize)) (float64 2));
        rect_width := rect_width wholeFill;
        rect_height := qCeil (fmul (float64 takeheight) pxsize) |},
     {| rect_x := 0;
        rect_y := Z.quot (int32 (size_height imageSize - takeheight)) 2;
        rect_width := size_width imageSize;
        rect_height := takeheight |}).

End Rects.

(** ** The grammar of a color scheme

    What [readNameAndValue] accepts, stated on the text: an entry is
    [name ':' value ';'] with free whitespace around the tokens. *)

Fixpoint blank (s : string) : bool :=
  match s with
  | EmptyString => true
  | String c rest => parse.isWhitespace c && blank rest
  end.

Fixpoint nameChars (s : string) : bool :=
  match s with
  | EmptyString => true
  | String c rest => parse.isNameChar c && nameChars rest
  end.

Definition isName (s : string) : bool := negb (isEmpty s) && nameChars s.

(** A value token: a name, or '#' and a name. *)
Definition isValue (s : string) : bool :=
  match s with
  | String c rest => if Ascii.eqb c "#" then isName rest else isName s
  | EmptyString => false
  end.

Definition isHexDigit (c : ascii) : bool :=
  let n := code c in
  ((code "0" <=? n) && (n <=? code "9"))
  || ((code "a" <=? n) && (n <=? code "f"))
  || ((code "A" <=? n) && (n <=? code "F")).

Definition hexValue (c : ascii) : Z :=
  let n := code c in
  if n <=? code "9" then n - code "0"
  else if n <=? code "F" then n - code "A" + 10
  else n - code "a" + 10.

Fixpoint hexDigits (s : string) : bool :=
  match s with
  | EmptyString => true
  | String c rest => isHexDigit c && hexDigits rest
  end.

(** A '#'-token of 7 or 9 characters with a character that is no hex
    digit. *)
Definition malformedHex (value : string) : bool :=
  match value with
  | String c body =>
      Ascii.eqb c "#"
      && ((String.length body =? 6)%nat || (String.length body =? 8)%nat)
      && negb (hexDigits body)
  | EmptyString => false
  end.

Definition Entry (from name value rest : string) : Prop :=
  exists ws1 ws2 ws3 ws4 : string,
    blank ws1 = true /\ blank ws2 = true /\ blank ws3 = true
    /\ blank ws4 = true /\ isName name = true /\ isValue value = true
    /\ from = ws1 +:+ name +:+ ws2 +:+ ":" +:+ ws3 +:+ value
              +:+ ws4 +:+ ";" +:+ rest.

(** The inputs made of entries without a malformed hex colour, up to the
    end of the input. *)
Inductive Scheme : string -> Prop :=
| Scheme_end from : blank from = true -> Scheme from
| Scheme_entry from name value rest :
    Entry from name value rest -> malformedHex value = false ->
    Scheme rest -> Scheme from.

(** The text read so far inside an entry: past the name, past the ':',
    past the value. [tail] is what follows. *)
Definition startsWithNameChar (s : string) : bool :=
  match s with String c _ => parse.isNameChar c | EmptyString => false end.

Inductive PastName (tail : string) : string -> Prop :=
| past_name ws1 name :
    blank ws1 = true -> isName name = true ->
    startsWithNameChar tail = false ->
    PastName tail (ws1 +:+ name +:+ tail).

Inductive PastColon (tail : string) : string -> Prop :=
| past_colon ws2 from :
    blank ws2 = true -> PastName (ws2 +:+ ":" +:+ tail) from ->
    PastColon tail from.

Inductive PastValue (tail : string) : string -> Prop :=
| past_value ws3 value from :
    blank ws3 = true -> isValue value = true ->
    startsWithNameChar tail = false ->
    PastColon (ws3 +:+ value +:+ tail) from ->
    PastValue tail from.

(** The first character after the whitespace at the head of [s]. *)
Definition nextChar (s : string) : option ascii :=
  match parse.skip s with String c _ => Some c | EmptyString => None end.

(** The structural violations: the input ends inside an entry, something
    else than ':' follows the name, something else than ';' follows the
    value. *)
Inductive Violation (from : string) : Prop :=
| unexpected_end tail :
    blank tail = true ->
    PastName tail from \/ PastColon tail from \/ PastValue tail from ->
    Violation from
| missing_colon tail c :
    PastName tail from -> nextChar tail = Some c -> c <> ":"%char ->
    Violation from
| missing_semicolon tail c :
    PastValue tail from -> nextChar tail = Some c -> c <> ";"%char ->
    Violation from.

(** The entries of a scheme read before [from] is reached, none of them
    with a malformed hex colour. *)
Inductive Reaches : string -> string -> Prop :=
| Reaches_here data : Reaches data data
| Reaches_next data name value rest from :
    Entry data name value rest -> malformedHex value = false ->
    Reaches rest from -> Reaches data from.

(** ** The background entries of an archive

    The names [loadBackground] asks for, in its order, and the first of
    them the archive has. *)
Definition probeOrder : list string :=
  ["background.jpg"; "background.png"; "tiled.jpg"; "tiled.png"]%string.

Definition isTiledName (name : string) : bool :=
  String.eqb name "tiled.jpg" || String.eqb name "tiled.png".

Fixpoint firstFound (names : list string) (entries : zlib.Archive)
    : option (string * zlib.Entry) :=
  match names with
  | [] => None
  | name :: names =>
      match zlib.locate name entries with
      | Some entry => Some (name, entry)
      | None => firstFound names entries
      end
  end.

(** ** Pixels

    An image whose buffer holds its [width * height] pixels, and the pixel
    at column [x] of line [y]. *)
Definition wellFormed (image : ImageData) : Prop :=
  0 < width image /\ 0 < height image
  /\ Z.of_nat (length (bits image)) = width image * height image.

Definition pixelAt (image : ImageData) (x y : Z) : option Z :=
  bits image !! Z.to_nat (y * width image + x).

(** ** The background state machine, in words

    An image the codecs can have produced has positive dimensions. *)
Definition valid (image : ImageData) : Prop :=
  0 < width image /\ 0 < height image.

Definition validImage (image : QImage) : Prop :=
  match image with Some d => valid d | None => True end.

(** The identifier [setImage(id, image)] settles on: the theme background
    without a theme image is the default one, a testing background without
    an image is the testing default, any other background without an image
    is the default one. *)
Definition settledId (id : BackgroundId) (image themeImage : QImage)
    : BackgroundId :=
  let id :=
    if bool_decide (id = kThemeBackground) && isNull themeImage
    then kDefaultBackground else id in
  if bool_decide (id = kThemeBackground) then kThemeBackground
  else if isTesting id then
    if bool_decide (id = kTestingDefaultBackground) || isNull image
    then kTestingDefaultBackground else id
  else if bool_decide (id = kInitialBackground) then kInitialBackground
  else if bool_decide (id = kDefaultBackground) || isNull image
  then kDefaultBackground else id.

(** The background after [setTestingTheme] of a theme with this
    [background] and [tiled] flag, and after [revert], the pixmaps left
    aside: what the members are in terms of the members before. *)
Definition previewed (background : QImage) (tiled : bool)
    (bg : ChatBackground) (pixmap pixmapForTiled : QPixmap)
    : ChatBackground :=
  if negb (isNull background) || bool_decide (_id bg = kThemeBackground)
  then
    {| _id := if isNull background then kTestingDefaultBackground
              else kTestingThemeBackground;
       _pixmap := pixmap; _pixmapForTiled := pixmapForTiled;
       _tile := tiled;
       _themeImage := _themeImage bg; _themeTile := _themeTile bg;
       _idForRevert :=
         if isTesting (_id bg) then _idForRevert bg else _id bg;
       _imageForRevert :=
         if isTesting (_id bg) then _imageForRevert bg
         else toImage (_pixmap bg);
       _tileForRevert :=
         if isTesting (_id bg) then _tileForRevert bg else _tile bg |}
  else
    {| _id := settledId (_id bg) (toImage (_pixmap bg)) (_themeImage bg);
       _pixmap := pixmap; _pixmapForTiled := pixmapForTiled;
       _tile := _tile bg;
       _themeImage := _themeImage bg; _themeTile := _themeTile bg;
       _idForRevert := _idForRevert bg;
       _imageForRevert := _imageForRevert bg;
       _tileForRevert := _tileForRevert bg |}.

Definition reverted (bg : ChatBackground) (pixmap pixmapForTiled : QPixmap)
    : ChatBackground :=
  let settled :=
    if isTesting (_id bg)
    then settledId (_idForRevert bg) (_imageForRevert bg) (_themeImage bg)
    else settledId (_id bg) (toImage (_pixmap bg)) (_themeImage bg) in
  {| _id := settled;
     _pixmap := pixmap; _pixmapForTiled := pixmapForTiled;
     _tile := if bool_decide (settled = kThemeBackground) then _themeTile bg
              else if isTesting (_id bg) then _tileForRevert bg
              else _tile bg;
     _themeImage := _themeImage bg; _themeTile := _themeTile bg;
     _idForRevert := _idForRevert bg;
     _imageForRevert := _imageForRevert bg;
     _tileForRevert := _tileForRevert bg |}.

(** ** Notions the statements use *)

(** The values of one hex digit. *)
Definition nibbles : list Z := map Z.of_nat (seq 0 16).

(** What the loop keeps true of [unsupported]: its keys are names and its
    values are no malformed hex colours. *)
Definition goodMap (unsupported : gmap string string) : Prop :=
  forall k v, unsupported !! k = Some v ->
    isName k = true /\ malformedHex v = false.

(** The states of the CRC register. *)
Definition word32 (s : Z) : Prop := 0 <= s < 2 ^ 32.

(** The step undone: the top bit of the result tells whether the
    polynomial was added, that is, whether the state was odd. *)
Definition crcUnbit (t : Z) : Z :=
  if Z.testbit t 31 then 2 * Z.lxor t crcPolynomial + 1 else 2 * t.

(** The lines of the source from line [y0] on, each [repeatTimesX]
    times. *)
Definition band (repeatTimesX : nat) (source : list Z) (n y0 count : nat)
    : list Z :=
  concat ((fun y =>
    concat (replicate repeatTimesX (take n (drop (y * n) source))))
    <$> seq y0 count).

(** The background after [keepApplied]: a testing background becomes the
    theme's own or the default one. *)
Definition kept (bg : ChatBackground) : ChatBackground :=
  if bool_decide (_id bg = kTestingThemeBackground) then
    with_theme (toImage (_pixmap bg)) (_tile bg) (with_id kThemeBackground bg)
  else if bool_decide (_id bg = kTestingDefaultBackground) then
    with_theme None false (with_id kDefaultBackground bg)
  else bg.

(** What [tileForSave()] returns. *)
Definition savedTile (bg : ChatBackground) : bool :=
  if isTesting (_id bg) then _tileForRevert bg else _tile bg.

Section Notions.

Context {P L : Type} `{Registry P} `{Collaborators P L}.

Implicit Types (w : @World P L) (cache : Cached)
  (out : option (@Instance P)).

(** What the cache check looks at besides the checksums: the cached
    background, when there is one, is decoded, and the registry loads the
    cached colours. *)
Definition usable cache w : Prop :=
  (cached_background cache = "" \/ readerRead (cached_background cache) <> None)
  /\ (palette_load (colors cache) (main_palette w)).1 = true.

(** The packaged path of [loadTheme] up to the background: the archive
    opens, its scheme is read and parsed with success. *)
Definition schemeLoaded (content : bytes) (entries : zlib.Archive)
    out w out1 w1 : Prop :=
  exists scheme,
    unzOpen content = Some entries
    /\ zlib.locate "colors.tdesktop-theme" entries
       = Some (zlib.Readable scheme)
    /\ size scheme <= kThemeSchemeSizeLimit
    /\ runColorScheme scheme out w = Done ((true, out1), w1).

(** The palette after [initColorsFromBackground] may have run on it. *)
Definition recolored (p p' : P) : Prop :=
  p' = p \/ exists r g b, p' = initServiceColors r g b p.

(** A world whose singleton exists. *)
Definition mkWorld (p : P) (bg : ChatBackground) (a : Applying) (l : L)
    (n : list (BackgroundUpdate * bool)) : @World P L :=
  {| main_palette := p;
     instance := Some {| data_background := bg; applying := a |};
     storage := l; notified := n |}.

(** The pending record after [Apply(preview)]. *)
Definition pending (preview : @Preview P) (p : P) (a : Applying)
    : Applying :=
  {| path := preview_path preview; content := preview_content preview;
     paletteForRevert :=
       if isEmpty (paletteForRevert a) then palette_save p
       else paletteForRevert a;
     applying_cached := cached (preview_instance preview) |}.

(** The palette [Revert] loads before it reverts the background. *)
Definition restored (p : P) (a : Applying) : P :=
  if negb (isEmpty (paletteForRevert a))
  then (palette_load (paletteForRevert a) p).2 else p.

(** Two previews and a revert, started from palette [p0] and background
    [bg0]: all three calls return; the snapshot taken by the first [Apply]
    is still the pending one after the second; a second [saveForRevert]
    keeps the saved fields while the background is a testing one; after
    [Revert] nothing is pending, the background id is the one of [bg0],
    the tile flag is the one of [bg0] unless the restored background is
    the theme's own, and the palette is [p0] with at most the service
    colors recomputed (exactly [p0] for the theme's own background). *)
Definition chainReverts (themeA themeB : @Preview P) (p0 : P)
    (bg0 : ChatBackground) (a0 : Applying) (l0 : L)
    (n0 : list (BackgroundUpdate * bool)) : Prop :=
  exists (w1 w2 w3 : @World P L) (d1 d2 d3 : Data),
    Apply themeA (mkWorld p0 bg0 a0 l0 n0) = Done (true, w1)
    /\ Apply themeB w1 = Done (true, w2)
    /\ Revert w2 = Done ((), w3)
    /\ instance w1 = Some d1 /\ instance w2 = Some d2
    /\ instance w3 = Some d3
    /\ paletteForRevert (applying d1) = palette_save p0
    /\ paletteForRevert (applying d2) = palette_save p0
    /\ (isTesting (_id (data_background d1)) = true ->
        _idForRevert (data_background d2)
        = _idForRevert (data_background d1)
        /\ _imageForRevert (data_background d2)
           = _imageForRevert (data_background d1)
        /\ _tileForRevert (data_background d2)
           = _tileForRevert (data_background d1))
    /\ applying d3 = Applying0
    /\ _id (data_background d3) = _id bg0
    /\ (_id bg0 <> kThemeBackground ->
        _tile (data_background d3) = _tile bg0)
    /\ recolored p0 (main_palette w3)
    /\ (_id bg0 = kThemeBackground -> main_palette w3 = p0).

(** What loading for the live theme may do to the world besides the
    palette: nothing is stored, nobody is told, and of the singleton only
    the theme image and the theme tile flag of the background are set. *)
Definition onlyThemeData (w w' : @World P L) : Prop :=
  storage w' = storage w /\ notified w' = notified w
  /\ (instance w' = instance w
      \/ exists image tiled,
           let d := default Data0 (instance w) in
           instance w'
           = Some {| data_background :=
                       with_theme (prepareBackgroundImage (Some image)) tiled
                         (data_background d);
                     applying := applying d |}).

End Notions.

(** ** A sample of collaborators

    A small registry, storage and set of codecs on which the statements
    below are run: three colours, one of them a service colour; a stored
    theme flag and a stored background; images of one pixel. *)

Module Sample.

Definition Color : Type := Z * Z * Z * Z.

Definition Palette := list (string * Color).

Fixpoint lookup (name : string) (p : Palette) : option Color :=
  match p with
  | [] => None
  | (n, c) :: rest => if String.eqb n name then Some c else lookup name rest
  end.

Fixpoint update (name : string) (c : Color) (p : Palette) : bool * Palette :=
  match p with
  | [] => (false, [])
  | (n, c0) :: rest =>
      if String.eqb n name then (true, (n, c) :: rest)
      else let '(found, rest) := update name c rest in (found, (n, c0) :: rest)
  end.

Definition byte (n : Z) : ascii := ascii_of_N (Z.to_N n).

Fixpoint save (p : Palette) : string :=
  match p with
  | [] => ""
  | (_, (r, g, b, a)) :: rest =>
      String (byte r) (String (byte g) (String (byte b)
        (String (byte a) (save rest))))
  end.

Fixpoint fill (blob : string) (p : Palette) : option Palette :=
  match p, blob with
  | [], "" => Some []
  | (n, _) :: rest, String r (String g (String b (String a blob))) =>
      match fill blob rest with
      | Some rest => Some ((n, (code r, code g, code b, code a)) :: rest)
      | None => None
      end
  | _, _ => None
  end.

Definition defaults : Palette :=
  [("windowBg", (255, 255, 255, 255)); ("windowFg", (0, 0, 0, 255));
   ("msgServiceBg", (120, 140, 160, 255))]%string.

#[global] Instance registry : Registry Palette := {|
  palette_new := defaults;
  palette_setColor name r g b a p := update name (r, g, b, a) p;
  palette_setColorRef name from p :=
    match lookup from p with
    | Some c => update name c p
    | None => (false, p)
    end;
  palette_save := save;
  palette_load blob p :=
    match fill blob defaults with Some q => (true, q) | None => (false, p) end;
  palette_apply other p := other;
  palette_reset p := defaults;
  palette_Checksum := 20170101;
|}.

Record Storage := {
  hasTheme : bool;
  storedBackground : option (BackgroundId * QImage);
}.

Definition pixel (n : Z) : ImageData :=
  {| width := 1; height := 1; format := Format_RGB32; bits := [n] |}.

(** Comments are "//" to the end of the line; a text without '/' is
    left as it is. *)
Fixpoint strip (inComment : bool) (s : string) : string :=
  match s with
  | "" => ""
  | String c rest =>
      if inComment then
        if Ascii.eqb c "010" then String c (strip false rest)
        else strip true rest
      else
        match rest with
        | String d rest' =>
            if Ascii.eqb c "/" && Ascii.eqb d "/" then strip true rest'
            else String c (strip false rest)
        | "" => String c ""
        end
  end.

(** The archives of the sample: "PK01" holds a scheme and tiled.png,
    "PK02" a scheme, background.jpg and tiled.png, "PK03" a scheme only. *)
Definition archives (content : string) : option zlib.Archive :=
  if String.eqb content "PK01" then
    Some [("colors.tdesktop-theme", zlib.Readable "windowBg: #336699;");
          ("tiled.png", zlib.Readable "png")]%string
  else if String.eqb content "PK02" then
    Some [("colors.tdesktop-theme", zlib.Readable "windowBg: #336699;");
          ("Background.JPG", zlib.Readable "jpg");
          ("tiled.png", zlib.Readable "png")]%string
  else if String.eqb content "PK03" then
    Some [("colors.tdesktop-theme", zlib.Readable "windowBg: #336699;")]%string
  else None.

Definition decode (content : string) : QImage :=
  match content with
  | "" => None
  | String c _ => if Ascii.eqb c "!" then None else Some (pixel (code c))
  end.

Definition files (path : string) : QFile :=
  if String.eqb path "day.tdesktop-theme" then
    {| file_exists := true; file_size := 18; file_opens := true;
       file_readAll := "windowBg: #336699;" |}
  else if String.eqb path "bad.tdesktop-theme" then
    {| file_exists := true; file_size := 33; file_opens := true;
       file_readAll := "windowBg: #336699; windowFg: #12;" |}
  else if String.eqb path "broken.tdesktop-theme" then
    {| file_exists := true; file_size := 37; file_opens := true;
       file_readAll := "windowBg: #336699; windowFg: #gggggg;" |}
  else
    {| file_exists := false; file_size := 0; file_opens := false;
       file_readAll := "" |}.

#[global] Instance collaborators : Collaborators Palette Storage := {|
  stripComments := strip false;
  unzOpen := archives;
  readImage := decode;
  readerRead := decode;
  saveBMP image := Some "BM";
  convertToFormat fmt image :=
    {| width := width image; height := height image; format := fmt;
       bits := bits image |};
  scaledToWidth w image := image;
  art_bg := pixel 1;
  art_bg_initial := pixel 2;
  cRetina := false;
  cScaleIsOne := true;
  convertScale w := w;
  uninitialized := 0;
  initServiceColors r g b p := (update "msgServiceBg" (r, g, b, 255) p).2;
  openFile := files;
  relativeFilePath path := path;
  absoluteFilePath path := String "/" path;
  Local_hasTheme := hasTheme;
  Local_readBackground l := (storedBackground l, l);
  Local_writeBackground id image l :=
    {| hasTheme := hasTheme l; storedBackground := Some (id, image) |};
  Local_writeUserSettings tile l := l;
  Local_writeTheme pathRelative pathAbsolute content cache l :=
    {| hasTheme := negb (isEmpty content);
       storedBackground := storedBackground l |};
|}.

Definition world : World :=
  {| main_palette := defaults; instance := None;
     storage := {| hasTheme := false; storedBackground := None |};
     notified := [] |}.

Definition scheme : string := "windowBg: #336699;".

(** A cache of [scheme] as [loadTheme] leaves it, and one with the same
    checksums whose colours are not a palette blob. *)
Definition goodCache : Cached :=
  {| colors := save defaults; cached_background := "";
     cached_tiled := false; paletteChecksum := 20170101;
     contentChecksum := hashCrc32 scheme |}.

Definition staleCache : Cached :=
  {| colors := "stale"; cached_background := "";
     cached_tiled := false; paletteChecksum := 20170101;
     contentChecksum := hashCrc32 scheme |}.

(** The theme's own background after the user has switched tiling on
    (the theme's flag is off), and a background of the user's own. *)
Definition themed : ChatBackground :=
  {| _id := kThemeBackground; _pixmap := Some (pixel 5);
     _pixmapForTiled := Some (pixel 5); _tile := true;
     _themeImage := Some (pixel 5); _themeTile := false;
     _idForRevert := kUninitializedBackground; _imageForRevert := None;
     _tileForRevert := false |}.

Definition custom : ChatBackground :=
  {| _id := kCustom 7; _pixmap := Some (pixel 6);
     _pixmapForTiled := Some (pixel 6); _tile := true;
     _themeImage := None; _themeTile := false;
     _idForRevert := kUninitializedBackground; _imageForRevert := None;
     _tileForRevert := false |}.

(** A preview being shown over the user's background. *)
Definition previewing : ChatBackground :=
  {| _id := kTestingThemeBackground; _pixmap := Some (pixel 9);
     _pixmapForTiled := Some (pixel 9); _tile := false;
     _themeImage := Some (pixel 5); _themeTile := true;
     _idForRevert := kCustom 7; _imageForRevert := Some (pixel 6);
     _tileForRevert := true |}.

(** Two themes to preview: one with a background, one without. *)
Definition night : Preview :=
  {| preview_path := "night.tdesktop-theme";
     preview_instance :=
       {| palette := [("windowBg", (0, 0, 0, 255));
                      ("windowFg", (255, 255, 255, 255));
                      ("msgServiceBg", (10, 20, 30, 255))]%string;
          background := Some (pixel 9); tiled := false;
          cached := Cached0 |};
     preview_content := "windowBg: #000000;" |}.

Definition dusk : Preview :=
  {| preview_path := "dusk.tdesktop-theme";
     preview_instance :=
       {| palette := [("windowBg", (40, 40, 60, 255));
                      ("windowFg", (200, 200, 200, 255));
                      ("msgServiceBg", (70, 80, 90, 255))]%string;
          background := None; tiled := false; cached := Cached0 |};
     preview_content := "windowBg: #28283c;" |}.

Definition disk : Storage :=
  {| hasTheme := true; storedBackground := None |}.

(** The running application showing background [bg], nothing pending. *)
Definition started (bg : ChatBackground) : World :=
  mkWorld defaults bg Applying0 disk [].

(** A window to fill and the size of a picture. *)
Definition window : QRect :=
  {| rect_x := 0; rect_y := 0; rect_width := 300; rect_height := 200 |}.

Definition photo : QSize := {| size_width := 1001; size_height := 400 |}.

(** Exact rational arithmetic in place of [float64]. *)
Definition truncate (q : QArith_base.Q) : Z :=
  Z.quot (QArith_base.Qnum q) (Z.pos (QArith_base.Qden q)).

#[global] Instance rationals : Float64 QArith_base.Q := {|
  float64 := QArith_base.inject_Z;
  fdiv := QArith_base.Qdiv;
  fmul := QArith_base.Qmult;
  fsub := QArith_base.Qminus;
  qCeil := Qround.Qceiling;
  toInt := truncate;
|}.

(** A 100 by 100 image whose pixels are numbered line by line. *)
Definition square : ImageData :=
  {| width := 100; height := 100; format := Format_ARGB32_Premultiplied;
     bits := seqZ 0 10000 |}.

(** A 600 by 512 image of one colour. *)
Definition poster : ImageData :=
  {| width := 600; height := 512; format := Format_RGB32;
     bits := replicate (600 * 512) 7 |}.

End Sample.

(** * Properties *)

(** ** Strings *)

Lemma string_app_cons c s t : String c s +:+ t = String c (s +:+ t).
Proof. reflexivity. Qed.

Lemma string_app_nil_l s : "" +:+ s = s.
Proof. reflexivity. Qed.

Lemma string_app_nil_r s : s +:+ "" = s.
Proof. induction s as [|c s IH]; [reflexivity|]. now rewrite string_app_cons, IH. Qed.

Lemma string_app_assoc s t u : (s +:+ t) +:+ u = s +:+ t +:+ u.
Proof.
  induction s as [|c s IH]; [reflexivity|]. now rewrite !string_app_cons, IH.
Qed.

Lemma string_length_app s t :
  String.length (s +:+ t) = (String.length s + String.length t)%nat.
Proof.
  induction s as [|c s IH]; [reflexivity|].
  rewrite string_app_cons. simpl. now rewrite IH.
Qed.

Lemma size_zero s : (size s =? 0) = isEmpty s.
Proof. destruct s; reflexivity. Qed.

(** ** Character classes *)

Ltac codes :=
  change (code "a") with 97 in *; change (code "z") with 122 in *;
  change (code "A") with 65 in *; change (code "Z") with 90 in *;
  change (code "0") with 48 in *; change (code "9") with 57 in *;
  change (code "f") with 102 in *; change (code "F") with 70 in *;
  change (code "_") with 95 in *.

Ltac bools :=
  repeat match goal with
  | H : _ && _ = true |- _ => apply andb_true_iff in H; destruct H
  | H : _ || _ = false |- _ => apply orb_false_iff in H; destruct H
  | H : negb _ = true |- _ => apply negb_true_iff in H
  | H : negb _ = false |- _ => apply negb_false_iff in H
  | H : (_ =? _) = true |- _ => apply Z.eqb_eq in H
  | H : (_ =? _) = false |- _ => apply Z.eqb_neq in H
  | H : (_ <=? _) = true |- _ => apply Z.leb_le in H
  | H : (_ <=? _) = false |- _ => apply Z.leb_gt in H
  end.

Lemma code_inj c d : code c = code d -> c = d.
Proof.
  unfold code. intros E. apply N2Z.inj in E.
  rewrite <- (ascii_N_embedding c), <- (ascii_N_embedding d). now rewrite E.
Qed.

Lemma code_range c : 0 <= code c < 256.
Proof. unfold code. pose proof (N_ascii_bounded c). lia. Qed.

Lemma eqb_code c d : Ascii.eqb c d = (code c =? code d).
Proof.
  destruct (Ascii.eqb_spec c d) as [->|N].
  - now rewrite Z.eqb_refl.
  - symmetry. apply Z.eqb_neq. intros E. now apply N, code_inj.
Qed.

Lemma whitespace_not_name c :
  parse.isWhitespace c = true -> parse.isNameChar c = false.
Proof.
  unfold parse.isWhitespace, parse.isNameChar. cbv zeta. codes. intros Hw.
  apply orb_true_iff in Hw as [Hw|Hw]; [apply orb_true_iff in Hw as [Hw|Hw];
    [apply orb_true_iff in Hw as [Hw|Hw]|]|];
  apply Z.eqb_eq in Hw; rewrite Hw; reflexivity.
Qed.

Lemma hex_is_name c : isHexDigit c = true -> parse.isNameChar c = true.
Proof.
  unfold isHexDigit, parse.isNameChar. cbv zeta. codes. intros Hh.
  repeat (apply orb_true_iff in Hh as [Hh|Hh]); bools;
    rewrite !orb_true_iff, !andb_true_iff, !Z.leb_le, Z.eqb_eq; lia.
Qed.

(** ** skipWhitespaces and readName *)

Lemma skip_blank ws s : blank ws = true -> parse.skip (ws +:+ s) = parse.skip s.
Proof.
  induction ws as [|c ws IH]; [reflexivity|]. simpl. intros Hb. bools.
  rewrite ?string_app_cons; simpl. rewrite H. auto.
Qed.

Lemma skip_all s : blank s = true -> parse.skip s = "".
Proof.
  intros Hb. rewrite <- (string_app_nil_r s). now rewrite skip_blank.
Qed.

Lemma skip_stay s :
  match s with String c _ => parse.isWhitespace c | "" => false end = false ->
  parse.skip s = s.
Proof. destruct s as [|c s]; [reflexivity|]. simpl. now intros ->. Qed.

Lemma skip_split s :
  exists ws, blank ws = true /\ s = ws +:+ parse.skip s
    /\ match parse.skip s with
       | String c _ => parse.isWhitespace c
       | "" => false
       end = false.
Proof.
  induction s as [|c s (ws & Hb & Hs & Hn)].
  - exists "". auto.
  - simpl. destruct (parse.isWhitespace c) eqn:Hc.
    + exists (String c ws). simpl. rewrite Hc, Hb, ?string_app_cons, <- Hs. auto.
    + exists "". simpl. rewrite Hc. auto.
Qed.

Lemma skip_empty_blank s : parse.skip s = "" -> blank s = true.
Proof.
  intros E. destruct (skip_split s) as (ws & Hb & Hs & _).
  rewrite E, string_app_nil_r in Hs. now subst.
Qed.

Lemma readName_app name rest :
  nameChars name = true -> startsWithNameChar rest = false ->
  parse.readName (name +:+ rest) = (name, rest).
Proof.
  induction name as [|c name IH]; simpl; intros Hn Hr.
  - rewrite string_app_nil_l. destruct rest as [|d rest]; [reflexivity|].
    simpl in *. now rewrite Hr.
  - bools. rewrite ?string_app_cons; simpl. rewrite H, IH; auto.
Qed.

Lemma readName_split s name rest :
  parse.readName s = (name, rest) ->
  s = name +:+ rest /\ nameChars name = true
  /\ startsWithNameChar rest = false.
Proof.
  revert name rest. induction s as [|c s IH]; simpl; intros name rest E.
  - now inversion E.
  - destruct (parse.isNameChar c) eqn:Hc.
    + destruct (parse.readName s) as [n r]. inversion E; subst.
      destruct (IH n rest eq_refl) as (-> & Hn & Hr).
      simpl. rewrite Hc. auto.
    + inversion E; subst. simpl. rewrite Hc. auto.
Qed.

(** ** readNameAndValue against the grammar *)

Lemma name_starts name :
  isName name = true ->
  exists c n, name = String c n /\ parse.isNameChar c = true
    /\ parse.isWhitespace c = false.
Proof.
  destruct name as [|c n]; [discriminate|]. unfold isName. simpl.
  intros Hn. bools. exists c, n. repeat split; auto.
  destruct (parse.isWhitespace c) eqn:Hw; [|reflexivity].
  apply whitespace_not_name in Hw. congruence.
Qed.

Lemma value_starts value :
  isValue value = true ->
  exists c n, value = String c n /\ parse.isWhitespace c = false.
Proof.
  destruct value as [|c n]; [discriminate|]. simpl.
  destruct (Ascii.eqb_spec c "#") as [->|_]; intros Hv.
  - now exists "#"%char, n.
  - destruct (name_starts _ Hv) as (c' & n' & E & _ & Hw).
    inversion E; subst. now exists c', n'.
Qed.

Lemma blank_then_not_name ws c t :
  blank ws = true -> parse.isNameChar c = false ->
  startsWithNameChar (ws +:+ String c t) = false.
Proof.
  destruct ws as [|w ws]; simpl; intros Hb Hc; [exact Hc|].
  bools. now apply whitespace_not_name.
Qed.

Lemma skip_to ws c t :
  blank ws = true -> parse.isWhitespace c = false ->
  parse.skipWhitespaces (ws +:+ String c t) = (true, String c t).
Proof.
  intros Hb Hc. unfold parse.skipWhitespaces.
  rewrite skip_blank by exact Hb. simpl. now rewrite Hc.
Qed.

Lemma skip_to_end ws :
  blank ws = true -> parse.skipWhitespaces ws = (false, "").
Proof.
  intros Hb. unfold parse.skipWhitespaces. now rewrite skip_all.
Qed.

Lemma readNameAndValue_blank from :
  blank from = true ->
  readNameAndValue from
  = {| nv_ok := true; nv_from := ""; nv_name := ""; nv_value := "" |}.
Proof.
  intros Hb. unfold readNameAndValue. now rewrite skip_to_end.
Qed.

Lemma readNameAndValue_entry from name value rest :
  Entry from name value rest ->
  readNameAndValue from
  = {| nv_ok := true; nv_from := rest; nv_name := name; nv_value := value |}.
Proof.
  intros (ws1 & ws2 & ws3 & ws4 & H1 & H2 & H3 & H4 & Hn & Hv & ->).
  destruct (name_starts _ Hn) as (c & n & -> & Hc & Hcw).
  destruct (value_starts _ Hv) as (d & v & -> & Hdw).
  unfold isName in Hn. simpl in Hn.
  unfold readNameAndValue.
  rewrite !string_app_cons, !string_app_nil_l.
  rewrite (skip_to ws1) by assumption. cbv iota beta. simpl negb. cbv iota.
  rewrite <- (string_app_cons c n), readName_app;
    [|exact Hn|now apply blank_then_not_name].
  simpl (size _ =? 0). cbv iota.
  rewrite (skip_to ws2) by (auto; reflexivity). simpl negb. cbv iota beta.
  simpl (Ascii.eqb ":" ":"). simpl negb. cbv iota.
  rewrite (skip_to ws3) by assumption. simpl negb. cbv iota beta.
  simpl in Hv.
  destruct (Ascii.eqb_spec d "#") as [->|Hd].
  - cbv iota beta.
    destruct (name_starts _ Hv) as (e & v' & -> & He & _).
    unfold isName in Hv. simpl in Hv.
    rewrite <- ?(string_app_cons e v'), readName_app;
      [|exact Hv|now apply blank_then_not_name].
    simpl (size _ =? 0). cbv iota.
    rewrite (skip_to ws4) by (auto; reflexivity). reflexivity.
  - cbv iota beta. unfold isName in Hv. simpl in Hv.
    rewrite <- (string_app_cons d v), readName_app;
      [|exact Hv|now apply blank_then_not_name].
    simpl (size _ =? 0). cbv iota.
    rewrite (skip_to ws4) by (auto; reflexivity). reflexivity.
Qed.

Lemma readNameAndValue_ok from :
  nv_ok (readNameAndValue from) = true ->
  (blank from = true /\ nv_name (readNameAndValue from) = "")
  \/ Entry from (nv_name (readNameAndValue from))
       (nv_value (readNameAndValue from)) (nv_from (readNameAndValue from)).
Proof.
  unfold readNameAndValue, parse.skipWhitespaces.
  destruct (skip_split from) as (ws1 & Hb1 & Hs1 & _).
  destruct (parse.skip from) as [|c0 r0] eqn:E0; simpl negb; cbv iota.
  { intros _. left. rewrite string_app_nil_r in Hs1. subst. auto. }
  destruct (parse.readName (String c0 r0)) as [name r1] eqn:E1.
  apply readName_split in E1 as (E1 & Hname & Hr1).
  rewrite size_zero.
  destruct name as [|n0 name]; [discriminate|]. simpl isEmpty. cbv iota.
  destruct (skip_split r1) as (ws2 & Hb2 & Hs2 & _).
  destruct (parse.skip r1) as [|c2 r2] eqn:E2; simpl negb; cbv iota;
    [discriminate|].
  destruct (Ascii.eqb_spec c2 ":") as [->|_]; simpl negb; cbv iota;
    [|discriminate].
  destruct (skip_split r2) as (ws3 & Hb3 & Hs3 & _).
  destruct (parse.skip r2) as [|c3 r3] eqn:E3; simpl negb; cbv iota;
    [discriminate|].
  destruct (Ascii.eqb_spec c3 "#") as [->|Hc3].
  - destruct (parse.readName r3) as [digits r4] eqn:E4.
    apply readName_split in E4 as (E4 & Hdigits & Hr4).
    rewrite size_zero.
    destruct digits as [|d0 digits]; [discriminate|]. simpl isEmpty.
    cbv iota.
    destruct (skip_split r4) as (ws4 & Hb4 & Hs4 & _).
    destruct (parse.skip r4) as [|c5 r5] eqn:E5; simpl negb; cbv iota;
      [discriminate|].
    destruct (Ascii.eqb_spec c5 ";") as [->|_]; simpl negb; cbv iota;
      [|discriminate].
    intros _. right. simpl.
    exists ws1, ws2, ws3, ws4. repeat split; auto.
    rewrite Hs1, E1, Hs2, Hs3, E4, Hs4. reflexivity.
  - destruct (parse.readName (String c3 r3)) as [digits r4] eqn:E4.
    apply readName_split in E4 as (E4 & Hdigits & Hr4).
    rewrite size_zero.
    destruct digits as [|d0 digits]; [discriminate|]. simpl isEmpty.
    cbv iota.
    destruct (skip_split r4) as (ws4 & Hb4 & Hs4 & _).
    destruct (parse.skip r4) as [|c5 r5] eqn:E5; simpl negb; cbv iota;
      [discriminate|].
    destruct (Ascii.eqb_spec c5 ";") as [->|_]; simpl negb; cbv iota;
      [|discriminate].
    intros _. right. simpl.
    exists ws1, ws2, ws3, ws4. repeat split; auto.
    + rewrite string_app_cons in E4. inversion E4; subst d0.
      unfold isValue.
      destruct (Ascii.eqb_spec c3 "#"); [contradiction|]. exact Hdigits.
    + rewrite Hs1, E1, Hs2, Hs3, E4, Hs4. reflexivity.
Qed.

(** ** Hex digits *)

Lemma hexValue_range c : isHexDigit c = true -> 0 <= hexValue c < 16.
Proof.
  unfold isHexDigit, hexValue. cbv zeta. codes. intros Hh.
  repeat (apply orb_true_iff in Hh as [Hh|Hh]); bools;
    destruct (Z.leb_spec (code c) 57), (Z.leb_spec (code c) 70); lia.
Qed.

Lemma land_255 n : 0 <= n < 256 -> Z.land n 255 = n.
Proof.
  intros Hn. change 255 with (Z.ones 8). rewrite Z.land_ones by lia.
  apply Z.mod_small. lia.
Qed.

Lemma readHexUchar1_spec c error :
  readHexUchar1 c error
  = (if isHexDigit c then hexValue c else 255,
     error || negb (isHexDigit c)).
Proof.
  unfold readHexUchar1, isHexDigit, hexValue. cbv zeta. codes.
  pose proof (code_range c) as Hc.
  destruct (Z.leb_spec 48 (code c)), (Z.leb_spec (code c) 57),
    (Z.leb_spec 97 (code c)), (Z.leb_spec (code c) 102),
    (Z.leb_spec 65 (code c)), (Z.leb_spec (code c) 70);
    simpl; try (exfalso; lia); rewrite ?orb_false_r, ?orb_true_r;
    try reflexivity; f_equal; rewrite ?land_255; lia.
Qed.

Lemma nibble_in h : 0 <= h < 16 -> In h nibbles.
Proof.
  intros Hh. unfold nibbles. apply in_map_iff. exists (Z.to_nat h).
  split; [lia|]. apply in_seq. lia.
Qed.

Lemma pack_nibbles h l :
  0 <= h < 16 -> 0 <= l < 16 ->
  Z.land (Z.lor (Z.shiftl (Z.land h 15) 4) (Z.land l 15)) 255 = 16 * h + l.
Proof.
  intros Hh Hl.
  assert (Hall : forallb (fun h => forallb (fun l =>
    Z.land (Z.lor (Z.shiftl (Z.land h 15) 4) (Z.land l 15)) 255
    =? 16 * h + l) nibbles) nibbles = true) by (vm_compute; reflexivity).
  rewrite forallb_forall in Hall. specialize (Hall h (nibble_in h Hh)).
  rewrite forallb_forall in Hall. specialize (Hall l (nibble_in l Hl)).
  now apply Z.eqb_eq.
Qed.

Lemma readHexUchar_error char1 char2 error :
  snd (readHexUchar char1 char2 error)
  = error || negb (isHexDigit char1 && isHexDigit char2).
Proof.
  unfold readHexUchar. rewrite !readHexUchar1_spec. simpl.
  destruct error, (isHexDigit char1), (isHexDigit char2); reflexivity.
Qed.

Lemma readHexUchar_digits char1 char2 error :
  isHexDigit char1 = true -> isHexDigit char2 = true ->
  readHexUchar char1 char2 error
  = (16 * hexValue char1 + hexValue char2, error).
Proof.
  intros H1 H2. unfold readHexUchar. rewrite !readHexUchar1_spec, H1, H2.
  simpl. rewrite !orb_false_r.
  now rewrite pack_nibbles by now apply hexValue_range.
Qed.

(** ** setColorSchemeValue *)

Lemma size_cons_eqb c body (n : nat) :
  (size (String c body) =? Z.of_nat (S n)) = (String.length body =? n)%nat.
Proof.
  unfold size. simpl String.length.
  destruct (Nat.eqb_spec (String.length body) n) as [E|E].
  - apply Z.eqb_eq. lia.
  - apply Z.eqb_neq. lia.
Qed.

Lemma length_6 body :
  String.length body = 6%nat ->
  exists c1 c2 c3 c4 c5 c6,
    body = String c1 (String c2 (String c3 (String c4 (String c5
             (String c6 ""))))).
Proof.
  destruct body as [|c1 [|c2 [|c3 [|c4 [|c5 [|c6 [|c7 body]]]]]]];
    try discriminate.
  intros _. now exists c1, c2, c3, c4, c5, c6.
Qed.

Lemma length_8 body :
  String.length body = 8%nat ->
  exists c1 c2 c3 c4 c5 c6 c7 c8,
    body = String c1 (String c2 (String c3 (String c4 (String c5
             (String c6 (String c7 (String c8 ""))))))).
Proof.
  destruct body as
    [|c1 [|c2 [|c3 [|c4 [|c5 [|c6 [|c7 [|c8 [|c9 body]]]]]]]]];
    try discriminate.
  intros _. now exists c1, c2, c3, c4, c5, c6, c7, c8.
Qed.

Section SchemeFacts.

Context {P : Type} `{Registry P}.

Implicit Types (out : option (@Instance P)) (main : P).

(** A reference never gives [Bad]. *)
Lemma setColorSchemeValue_reference name value out main :
  Ascii.eqb (at_ value 0) "#" && ((size value =? 7) || (size value =? 9))
  = false ->
  setColorSchemeValue name value out main
  = let '(found, out, main) :=
      onPalette (palette_setColorRef name value) out main in
    (if found : bool then Ok else NotFound, out, main).
Proof. intros E. unfold setColorSchemeValue. now rewrite E. Qed.

Ltac read_pair c1 c2 e v e' E :=
  pose proof (readHexUchar_error c1 c2 e) as E;
  destruct (readHexUchar c1 c2 e) as [v e']; simpl in E.

Lemma setColorSchemeValue_Bad name value out main :
  (malformedHex value = true ->
   setColorSchemeValue name value out main = (Bad, out, main))
  /\ (malformedHex value = false ->
      (setColorSchemeValue name value out main).1.1 <> Bad).
Proof.
  assert (Href : forall f : P -> bool * P,
    (let '(found, o, m) := onPalette f out main in
     (if found : bool then Ok else NotFound, o, m)).1.1 <> Bad).
  { intros f. destruct (onPalette f out main) as [[[] ?] ?]; discriminate. }
  destruct value as [|c body].
  { split; [discriminate|]. intros _.
    rewrite setColorSchemeValue_reference by reflexivity. apply Href. }
  unfold malformedHex.
  destruct (Ascii.eqb_spec c "#") as [->|Hc].
  2:{ split; [discriminate|]. intros _.
      rewrite setColorSchemeValue_reference; [apply Href|].
      cbv beta iota delta [at_ String.get].
      now destruct (Ascii.eqb_spec c "#"). }
  destruct (Nat.eqb_spec (String.length body) 6) as [E6|N6].
  { destruct (length_6 _ E6) as (c1 & c2 & c3 & c4 & c5 & c6 & ->).
    unfold setColorSchemeValue.
    cbv beta iota zeta delta [at_ String.get size String.length].
    cbn [Z.of_nat Pos.of_succ_nat Pos.succ Z.eqb Pos.eqb orb andb hexDigits].
    change (Ascii.eqb "#" "#") with true. cbv iota.
    read_pair c1 c2 false r e1 E1. read_pair c3 c4 e1 g e2 E2.
    read_pair c5 c6 e2 b e3 E3. subst.
    destruct (isHexDigit c1), (isHexDigit c2), (isHexDigit c3),
      (isHexDigit c4), (isHexDigit c5), (isHexDigit c6); simpl;
      (split; [try discriminate; reflexivity|try discriminate]);
      intros _; apply Href. }
  destruct (Nat.eqb_spec (String.length body) 8) as [E8|N8].
  { destruct (length_8 _ E8)
      as (c1 & c2 & c3 & c4 & c5 & c6 & c7 & c8 & ->).
    unfold setColorSchemeValue.
    cbv beta iota zeta delta [at_ String.get size String.length].
    cbn [Z.of_nat Pos.of_succ_nat Pos.succ Z.eqb Pos.eqb orb andb hexDigits].
    change (Ascii.eqb "#" "#") with true. cbv iota.
    read_pair c1 c2 false r e1 E1. read_pair c3 c4 e1 g e2 E2.
    read_pair c5 c6 e2 b e3 E3. read_pair c7 c8 e3 a e4 E4. subst.
    destruct (isHexDigit c1), (isHexDigit c2), (isHexDigit c3),
      (isHexDigit c4), (isHexDigit c5), (isHexDigit c6),
      (isHexDigit c7), (isHexDigit c8); simpl;
      (split; [try discriminate; reflexivity|try discriminate]);
      intros _; apply Href. }
  rewrite andb_false_r. split; [discriminate|]. intros _.
  rewrite setColorSchemeValue_reference; [apply Href|].
  change 7 with (Z.of_nat 7). change 9 with (Z.of_nat 9).
  rewrite !size_cons_eqb.
  destruct (Nat.eqb_spec (String.length body) 6); [contradiction|].
  destruct (Nat.eqb_spec (String.length body) 8); [contradiction|].
  apply andb_false_r.
Qed.

End SchemeFacts.

(** ** The loop of loadColorScheme *)

Lemma blank_app ws s : blank (ws +:+ s) = blank ws && blank s.
Proof.
  induction ws as [|c ws IH]; [reflexivity|].
  rewrite string_app_cons. simpl. now rewrite IH, andb_assoc.
Qed.

Lemma name_not_blank name s :
  isName name = true -> blank (name +:+ s) = false.
Proof.
  intros Hn. destruct (name_starts _ Hn) as (c & n & -> & _ & Hw).
  rewrite string_app_cons. simpl. now rewrite Hw.
Qed.

Lemma Entry_not_blank from name value rest :
  Entry from name value rest -> blank from = false.
Proof.
  intros (ws1 & ws2 & ws3 & ws4 & _ & _ & _ & _ & Hn & _ & ->).
  rewrite blank_app, name_not_blank by exact Hn. apply andb_false_r.
Qed.

Lemma Entry_shorter from name value rest :
  Entry from name value rest ->
  (String.length rest < String.length from)%nat.
Proof.
  intros (ws1 & ws2 & ws3 & ws4 & _ & _ & _ & _ & _ & _ & ->).
  rewrite !string_length_app. simpl. lia.
Qed.

Lemma Entry_name from name value rest :
  Entry from name value rest -> isName name = true /\ isValue value = true.
Proof. intros (? & ? & ? & ? & _ & _ & _ & _ & Hn & Hv & _). auto. Qed.

Lemma Entry_unique from name value rest name' value' rest' :
  Entry from name value rest -> Entry from name' value' rest' ->
  name' = name /\ value' = value /\ rest' = rest.
Proof.
  intros E E'. apply readNameAndValue_entry in E, E'.
  rewrite E in E'. now inversion E'.
Qed.

Lemma name_no_hash name : isName name = true -> malformedHex name = false.
Proof.
  intros Hn. destruct (name_starts _ Hn) as (c & n & -> & Hc & _).
  unfold malformedHex. destruct (Ascii.eqb_spec c "#") as [->|]; [|reflexivity].
  discriminate.
Qed.

Lemma goodMap_empty : goodMap ∅.
Proof. intros k v Hk. now rewrite lookup_empty in Hk. Qed.

Lemma goodMap_insert unsupported name value :
  goodMap unsupported -> isName name = true -> malformedHex value = false ->
  goodMap (<[name := value]> unsupported).
Proof.
  intros Hu Hn Hv k v. rewrite lookup_insert. case_decide.
  - intros [= <-]. now subst.
  - apply Hu.
Qed.

Lemma goodMap_substitute unsupported value :
  goodMap unsupported -> isValue value = true ->
  malformedHex (default value (unsupported !! value)) = malformedHex value.
Proof.
  intros Hu Hv. destruct (unsupported !! value) as [v|] eqn:E; [|reflexivity].
  simpl. destruct (Hu _ _ E) as [Hk ->]. symmetry. now apply name_no_hash.
Qed.

Section LoopFacts.

Context {P : Type} `{Registry P}.

Implicit Types (out : option (@Instance P)) (main : P).

(** One turn of the loop on an entry. *)
Lemma schemeLoop_entry fuel from name value rest unsupported out main :
  Entry from name value rest ->
  schemeLoop (S fuel) from unsupported out main
  = let value := default value (unsupported !! value) in
    let '(result, out, main) := setColorSchemeValue name value out main in
    match result with
    | Bad => Some (false, out, main)
    | NotFound =>
        schemeLoop fuel rest (<[name := value]> unsupported) out main
    | Ok => schemeLoop fuel rest unsupported out main
    end.
Proof.
  intros E. pose proof (Entry_not_blank _ _ _ _ E) as Hb.
  destruct (Entry_name _ _ _ _ E) as [Hn _].
  cbn [schemeLoop]. rewrite (readNameAndValue_entry _ _ _ _ E).
  cbn [nv_ok nv_name nv_value nv_from negb].
  destruct from; [discriminate|]. cbn [isEmpty].
  rewrite size_zero. destruct name; [discriminate|]. reflexivity.
Qed.

(** A turn on whitespace up to the end of the input. *)
Lemma schemeLoop_blank fuel from unsupported out main :
  blank from = true ->
  schemeLoop (S fuel) from unsupported out main = Some (true, out, main).
Proof.
  intros Hb. cbn [schemeLoop]. rewrite (readNameAndValue_blank _ Hb).
  destruct from; reflexivity.
Qed.

(** A turn at which [readNameAndValue] fails. *)
Lemma schemeLoop_fail fuel from unsupported out main :
  nv_ok (readNameAndValue from) = false ->
  schemeLoop (S fuel) from unsupported out main = Some (false, out, main).
Proof.
  intros Hf. cbn [schemeLoop]. rewrite Hf.
  destruct from; [discriminate|]. reflexivity.
Qed.

Lemma Scheme_fail from :
  nv_ok (readNameAndValue from) = false -> ~ Scheme from.
Proof.
  intros Hf Hs. destruct Hs as [from Hb|from name value rest E _ _].
  - now rewrite readNameAndValue_blank in Hf.
  - now rewrite (readNameAndValue_entry _ _ _ _ E) in Hf.
Qed.

(** The loop ends within its fuel, and with success exactly on the inputs
    of the grammar. *)
Lemma schemeLoop_spec fuel : forall from unsupported out main,
  (String.length from < fuel)%nat -> goodMap unsupported ->
  exists b out' main',
    schemeLoop fuel from unsupported out main = Some (b, out', main')
    /\ (b = true <-> Scheme from).
Proof.
  induction fuel as [|fuel IH]; intros from u out main Hlen Hu; [lia|].
  destruct (nv_ok (readNameAndValue from)) eqn:Hok.
  2:{ exists false, out, main. split; [now apply schemeLoop_fail|].
      split; [discriminate|]. intros Hs. now apply Scheme_fail in Hs. }
  destruct (readNameAndValue_ok _ Hok) as [[Hb _]|E].
  { exists true, out, main. split; [now apply schemeLoop_blank|].
    split; [intros _; now constructor|reflexivity]. }
  set (name := nv_name (readNameAndValue from)) in *.
  set (value := nv_value (readNameAndValue from)) in *.
  set (rest := nv_from (readNameAndValue from)) in *.
  destruct (Entry_name _ _ _ _ E) as [Hn Hv].
  assert (Hiff : malformedHex value = false -> Scheme from <-> Scheme rest).
  { intros Hm. split.
    - intros Hs. destruct Hs as [from Hb|from name' value' rest' E' _ Hr].
      + now rewrite (Entry_not_blank _ _ _ _ E) in Hb.
      + destruct (Entry_unique _ _ _ _ _ _ _ E E') as (_ & _ & ->).
        exact Hr.
    - intros Hr. now apply (Scheme_entry from name value rest). }
  rewrite (schemeLoop_entry _ _ _ _ _ _ _ _ E). cbv zeta.
  pose proof (goodMap_substitute u value Hu Hv) as Hsub.
  destruct (setColorSchemeValue_Bad name (default value (u !! value)) out main)
    as [Hbad Hgood].
  destruct (malformedHex value) eqn:Hm.
  { rewrite (Hbad Hsub). exists false, out, main. split; [reflexivity|].
    split; [discriminate|].
    intros Hs. destruct Hs as [from Hb|from name' value' rest' E' Hm' _].
    - now rewrite (Entry_not_blank _ _ _ _ E) in Hb.
    - destruct (Entry_unique _ _ _ _ _ _ _ E E') as (_ & -> & _).
      congruence. }
  specialize (Hgood Hsub).
  pose proof (Entry_shorter _ _ _ _ E) as Hshort.
  destruct (setColorSchemeValue name (default value (u !! value)) out main)
    as [[result out1] main1].
  simpl in Hgood.
  destruct result; [|contradiction|].
  - destruct (IH rest u out1 main1) as (b & o & m & Hrun & Hb);
      [lia|exact Hu|].
    exists b, o, m. split; [exact Hrun|]. rewrite Hb. symmetry. now apply Hiff.
  - destruct (IH rest (<[name := default value (u !! value)]> u) out1 main1)
      as (b & o & m & Hrun & Hb); [lia|now apply goodMap_insert|].
    exists b, o, m. split; [exact Hrun|]. rewrite Hb. symmetry. now apply Hiff.
Qed.

End LoopFacts.

(** ** Structural violations *)

Lemma lex_name ws name tail :
  blank ws = true -> isName name = true -> startsWithNameChar tail = false ->
  parse.readName (parse.skip (ws +:+ name +:+ tail)) = (name, tail).
Proof.
  intros Hb Hn Ht. rewrite skip_blank by exact Hb.
  destruct (name_starts _ Hn) as (c & n & -> & Hc & Hw).
  rewrite skip_stay by (rewrite string_app_cons; exact Hw).
  apply readName_app; [|exact Ht]. unfold isName in Hn. exact Hn.
Qed.

Lemma lex_colon ws tail :
  blank ws = true -> parse.skip (ws +:+ ":" +:+ tail) = String ":" tail.
Proof. intros Hb. now rewrite skip_blank. Qed.

Lemma lex_value ws value tail :
  blank ws = true -> isValue value = true ->
  parse.skip (ws +:+ value +:+ tail) = value +:+ tail.
Proof.
  intros Hb Hv. rewrite skip_blank by exact Hb.
  destruct (value_starts _ Hv) as (c & n & -> & Hw).
  apply skip_stay. rewrite string_app_cons. exact Hw.
Qed.

Lemma value_unique value tail value' tail' :
  isValue value = true -> isValue value' = true ->
  startsWithNameChar tail = false -> startsWithNameChar tail' = false ->
  value +:+ tail = value' +:+ tail' -> value = value' /\ tail = tail'.
Proof.
  intros Hv Hv' Ht Ht' E.
  destruct value as [|c n], value' as [|c' n']; try discriminate.
  rewrite !string_app_cons in E. inversion E as [[Hc E']]. subst c'.
  simpl in Hv, Hv'.
  destruct (Ascii.eqb_spec c "#") as [->|_].
  - unfold isName in Hv, Hv'. bools.
    pose proof (readName_app n tail H2 Ht) as R.
    rewrite E', (readName_app n' tail' H0 Ht') in R. now inversion R.
  - unfold isName in Hv, Hv'. simpl in Hv, Hv'.
    pose proof (readName_app (String c n) tail Hv Ht) as R.
    rewrite string_app_cons, E', <- string_app_cons in R.
    rewrite (readName_app (String c n') tail' Hv' Ht') in R.
    now inversion R.
Qed.

Lemma PastName_entry tail from name value rest :
  PastName tail from -> Entry from name value rest ->
  exists ws2 ws3 ws4,
    blank ws2 = true /\ blank ws3 = true /\ blank ws4 = true
    /\ tail = ws2 +:+ ":" +:+ ws3 +:+ value +:+ ws4 +:+ ";" +:+ rest.
Proof.
  intros [ws1 name' Hb Hn Ht]
    (ws1' & ws2 & ws3 & ws4 & H1 & H2 & H3 & H4 & Hn' & Hv & E).
  pose proof (lex_name ws1 name' tail Hb Hn Ht) as R.
  rewrite E, lex_name in R; [|assumption..|now apply blank_then_not_name].
  inversion R. now exists ws2, ws3, ws4.
Qed.

Lemma PastColon_entry tail from name value rest :
  PastColon tail from -> Entry from name value rest ->
  exists ws3 ws4,
    blank ws3 = true /\ blank ws4 = true
    /\ tail = ws3 +:+ value +:+ ws4 +:+ ";" +:+ rest.
Proof.
  intros [ws2' from' Hb Hp] E.
  destruct (PastName_entry _ _ _ _ _ Hp E)
    as (ws2 & ws3 & ws4 & H2 & H3 & H4 & Et).
  apply (f_equal parse.skip) in Et. rewrite !lex_colon in Et by assumption.
  inversion Et. now exists ws3, ws4.
Qed.

Lemma PastValue_entry tail from name value rest :
  PastValue tail from -> Entry from name value rest ->
  exists ws4, blank ws4 = true /\ tail = ws4 +:+ ";" +:+ rest.
Proof.
  intros [ws3' value' from' Hb Hv' Ht Hp] E.
  destruct (PastColon_entry _ _ _ _ _ Hp E) as (ws3 & ws4 & H3 & H4 & Et).
  destruct (Entry_name _ _ _ _ E) as [_ Hv].
  apply (f_equal parse.skip) in Et. rewrite !lex_value in Et by assumption.
  apply value_unique in Et as [_ ->]; auto.
  - now exists ws4.
  - now apply blank_then_not_name.
Qed.

Lemma PastName_not_blank tail from : PastName tail from -> blank from = false.
Proof.
  intros [ws1 name Hb Hn _].
  rewrite blank_app, name_not_blank by exact Hn. apply andb_false_r.
Qed.

Lemma nextChar_blank ws c t :
  blank ws = true -> parse.isWhitespace c = false ->
  nextChar (ws +:+ String c t) = Some c.
Proof.
  intros Hb Hc. unfold nextChar. rewrite skip_blank by exact Hb.
  simpl. now rewrite Hc.
Qed.

Lemma blank_before ws c t :
  parse.isWhitespace c = false -> blank (ws +:+ String c t) = false.
Proof.
  intros Hc. rewrite blank_app. simpl. rewrite Hc. apply andb_false_r.
Qed.

(** At a structural violation [readNameAndValue] fails. *)
Lemma Violation_fails from :
  Violation from -> nv_ok (readNameAndValue from) = false.
Proof.
  intros Hv. destruct (nv_ok (readNameAndValue from)) eqn:Hok; [|reflexivity].
  exfalso.
  assert (Hroot : exists tail, PastName tail from).
  { destruct Hv as [tail _ [Hp|[Hp|Hp]]|tail c Hp _ _|tail c Hp _ _];
      repeat match goal with
      | Hp : PastValue _ _ |- _ => destruct Hp as [? ? ? _ _ _ Hp]
      | Hp : PastColon _ _ |- _ => destruct Hp as [? ? _ Hp]
      end; eauto. }
  destruct Hroot as [tail0 Hroot].
  destruct (readNameAndValue_ok _ Hok) as [[Hb _]|E].
  { now rewrite (PastName_not_blank _ _ Hroot) in Hb. }
  destruct (Entry_name _ _ _ _ E) as [_ Hval].
  destruct Hv as [tail Hb [Hp|[Hp|Hp]]|tail c Hp Hc Hne|tail c Hp Hc Hne].
  - destruct (PastName_entry _ _ _ _ _ Hp E) as (ws2 & ? & ? & ? & ? & ? & ->).
    rewrite string_app_cons, string_app_nil_l in Hb. now rewrite blank_before in Hb.
  - destruct (PastColon_entry _ _ _ _ _ Hp E) as (ws3 & ? & ? & ? & ->).
    destruct (value_starts _ Hval) as (d & v & Ev & Hd).
    rewrite Ev, string_app_cons in Hb. now rewrite blank_before in Hb.
  - destruct (PastValue_entry _ _ _ _ _ Hp E) as (ws4 & ? & ->).
    rewrite string_app_cons, string_app_nil_l in Hb. now rewrite blank_before in Hb.
  - destruct (PastName_entry _ _ _ _ _ Hp E) as (ws2 & ? & ? & ? & ? & ? & ->).
    rewrite string_app_cons, string_app_nil_l, nextChar_blank in Hc by auto. congruence.
  - destruct (PastValue_entry _ _ _ _ _ Hp E) as (ws4 & ? & ->).
    rewrite string_app_cons, string_app_nil_l, nextChar_blank in Hc by auto. congruence.
Qed.

Lemma Reaches_Scheme data from :
  Reaches data from -> Scheme data -> Scheme from.
Proof.
  induction 1 as [|data name value rest from E Hm _ IH]; [auto|].
  intros Hs. apply IH.
  destruct Hs as [data Hb|data name' value' rest' E' _ Hr].
  - now rewrite (Entry_not_blank _ _ _ _ E) in Hb.
  - now destruct (Entry_unique _ _ _ _ _ _ _ E E') as (_ & _ & ->).
Qed.

(** ** The claims about the color-scheme parser *)

Section SchemeClaims.

Context {P : Type} `{Registry P}.

Implicit Types (out : option (@Instance P)) (main : P).

(** C9. The parse loop always ends, and it succeeds exactly on the inputs
    that are entries [name ':' value ';'] up to the end of the input, none
    with a malformed hex colour. At every turn, whitespace up to the end
    of the input (no name read) is success, and a structural violation —
    the input ending inside an entry, a missing ':' after the name, a
    missing ';' after the value — makes the loop return failure. *)
Theorem parse_loop_outcome :
  (forall data out main,
     exists b out' main',
       loadColorSchemeData data out main = Some (b, out', main')
       /\ (b = true <-> Scheme data))
  /\ (forall fuel from unsupported out main,
        blank from = true ->
        schemeLoop (S fuel) from unsupported out main
        = Some (true, out, main))
  /\ (forall fuel from unsupported out main,
        Violation from ->
        schemeLoop (S fuel) from unsupported out main
        = Some (false, out, main))
  /\ (forall data out main,
        Violation data ->
        loadColorSchemeData data out main = Some (false, out, main)).
Proof.
  split; [|split; [|split]].
  - intros data out main.
    apply schemeLoop_spec; [lia|apply goodMap_empty].
  - intros. now apply schemeLoop_blank.
  - intros fuel from u out main Hv.
    apply schemeLoop_fail. now apply Violation_fails.
  - intros data out main Hv.
    apply schemeLoop_fail. now apply Violation_fails.
Qed.

Lemma malformed_entry_fails data from name value rest out main :
  Reaches data from -> Entry from name value rest ->
  malformedHex value = true ->
  exists out' main', loadColorSchemeData data out main
                     = Some (false, out', main').
Proof.
  intros Hr E Hm.
  destruct (schemeLoop_spec (S (String.length data)) data ∅ out main)
    as (b & o & m & Hrun & Hb); [lia|apply goodMap_empty|].
  exists o, m. unfold loadColorSchemeData. rewrite Hrun.
  destruct b; [exfalso|reflexivity].
  assert (Hs : Scheme from) by (eapply Reaches_Scheme; [eassumption|now apply Hb]).
  destruct Hs as [from Hbl|from name' value' rest' E' Hm' _].
  - now rewrite (Entry_not_blank _ _ _ _ E) in Hbl.
  - destruct (Entry_unique _ _ _ _ _ _ _ E E') as (_ & -> & _). congruence.
Qed.

Ltac hex_value :=
  unfold setColorSchemeValue;
  cbv beta iota zeta delta [at_ String.get size String.length];
  cbn [Z.of_nat Pos.of_succ_nat Pos.succ Z.eqb Pos.eqb orb andb];
  change (Ascii.eqb "#" "#") with true; cbv iota;
  rewrite !readHexUchar_digits by assumption.

Lemma setColorSchemeValue_hex6 name c1 c2 c3 c4 c5 c6 out main :
  hexDigits (String c1 (String c2 (String c3 (String c4 (String c5
    (String c6 "")))))) = true ->
  setColorSchemeValue name
    (String "#" (String c1 (String c2 (String c3 (String c4 (String c5
       (String c6 ""))))))) out main
  = let '(found, out, main) :=
      onPalette
        (palette_setColor name
           (16 * hexValue c1 + hexValue c2)
           (16 * hexValue c3 + hexValue c4)
           (16 * hexValue c5 + hexValue c6) 255) out main in
    (if found : bool then Ok else NotFound, out, main).
Proof. intros Hh. simpl in Hh. bools. now hex_value. Qed.

Lemma setColorSchemeValue_hex8 name c1 c2 c3 c4 c5 c6 c7 c8 out main :
  hexDigits (String c1 (String c2 (String c3 (String c4 (String c5
    (String c6 (String c7 (String c8 "")))))))) = true ->
  setColorSchemeValue name
    (String "#" (String c1 (String c2 (String c3 (String c4 (String c5
       (String c6 (String c7 (String c8 ""))))))))) out main
  = let '(found, out, main) :=
      onPalette
        (palette_setColor name
           (16 * hexValue c1 + hexValue c2)
           (16 * hexValue c3 + hexValue c4)
           (16 * hexValue c5 + hexValue c6)
           (16 * hexValue c7 + hexValue c8)) out main in
    (if found : bool then Ok else NotFound, out, main).
Proof. intros Hh. simpl in Hh. bools. now hex_value. Qed.

(** C4. A value '#' and six hex digits sets the colour whose red, green
    and blue channels are the digits read in pairs, with alpha 255; with
    eight hex digits the fourth pair is the alpha channel. A '#'-token of
    7 or 9 characters with a character that is no hex digit gives [Bad]
    for every name and registry, and a scheme that reaches an entry with
    such a value fails as a whole. *)
Theorem hex_color_channels name out main :
  (forall c1 c2 c3 c4 c5 c6,
     hexDigits (String c1 (String c2 (String c3 (String c4 (String c5
       (String c6 "")))))) = true ->
     setColorSchemeValue name
       (String "#" (String c1 (String c2 (String c3 (String c4 (String c5
          (String c6 ""))))))) out main
     = let '(found, out, main) :=
         onPalette
           (palette_setColor name
              (16 * hexValue c1 + hexValue c2)
              (16 * hexValue c3 + hexValue c4)
              (16 * hexValue c5 + hexValue c6) 255) out main in
       (if found : bool then Ok else NotFound, out, main))
  /\ (forall c1 c2 c3 c4 c5 c6 c7 c8,
     hexDigits (String c1 (String c2 (String c3 (String c4 (String c5
       (String c6 (String c7 (String c8 "")))))))) = true ->
     setColorSchemeValue name
       (String "#" (String c1 (String c2 (String c3 (String c4 (String c5
          (String c6 (String c7 (String c8 ""))))))))) out main
     = let '(found, out, main) :=
         onPalette
           (palette_setColor name
              (16 * hexValue c1 + hexValue c2)
              (16 * hexValue c3 + hexValue c4)
              (16 * hexValue c5 + hexValue c6)
              (16 * hexValue c7 + hexValue c8)) out main in
       (if found : bool then Ok else NotFound, out, main))
  /\ (forall value,
        malformedHex value = true ->
        setColorSchemeValue name value out main = (Bad, out, main))
  /\ (forall data from value rest,
        Reaches data from -> Entry from name value rest ->
        malformedHex value = true ->
        exists out' main',
          loadColorSchemeData data out main = Some (false, out', main')).
Proof.
  split; [|split; [|split]].
  - intros. now apply setColorSchemeValue_hex6.
  - intros. now apply setColorSchemeValue_hex8.
  - intros value. apply setColorSchemeValue_Bad.
  - intros data from value rest. apply malformed_entry_fails.
Qed.

(** C5, as the code has it. A value that is not 7 or 9 characters long,
    beginning with '#' or not, is no error: it is handed to the registry
    as a reference, the answer is [Ok] or [NotFound], and the loop goes
    on. The
    scheme "a: #fff000; b: #000;" loads with success for every registry,
    'a' being set to #fff000 before 'b' is looked at. *)
Theorem short_hash_is_reference name out main :
  (forall value,
     size value <> 7 -> size value <> 9 ->
     setColorSchemeValue name value out main
     = let '(found, out, main) :=
         onPalette (palette_setColorRef name value) out main in
       (if found : bool then Ok else NotFound, out, main))
  /\ loadColorSchemeData "a: #fff000; b: #000;" out main
     = let '(_, out, main) :=
         onPalette (palette_setColor "a" 255 240 0 255) out main in
       let '(_, out, main) :=
         onPalette (palette_setColorRef "b" "#000") out main in
       Some (true, out, main).
Proof.
  split.
  - intros value H7 H9. apply setColorSchemeValue_reference.
    apply Z.eqb_neq in H7, H9. rewrite H7, H9. apply andb_false_r.
  - unfold loadColorSchemeData.
    rewrite (schemeLoop_entry _ _ "a" "#fff000" " b: #000;");
      [|now exists "", "", " ", ""].
    rewrite lookup_empty. cbv zeta. cbn [default].
    rewrite (setColorSchemeValue_hex6 "a" "f" "f" "f" "0" "0" "0")%char
      by reflexivity.
    change (16 * hexValue "f" + hexValue "f") with 255.
    change (16 * hexValue "f" + hexValue "0") with 240.
    change (16 * hexValue "0" + hexValue "0") with 0.
    destruct (onPalette (palette_setColor "a" 255 240 0 255) out main)
      as [[found out1] main1].
    assert (Hb : forall u, u !! "#000" = None ->
      schemeLoop (String.length "a: #fff000; b: #000;") " b: #000;" u
        out1 main1
      = let '(_, out, main) :=
          onPalette (palette_setColorRef "b" "#000") out1 main1 in
        Some (true, out, main)).
    { intros u Hu. simpl String.length.
      rewrite (schemeLoop_entry _ _ "b" "#000" "");
        [|now exists " ", "", " ", ""].
      rewrite Hu. cbv zeta. cbn [default].
      rewrite setColorSchemeValue_reference by reflexivity.
      destruct (onPalette (palette_setColorRef "b" "#000") out1 main1)
        as [[[] out2] main2]; reflexivity. }
    destruct found; apply Hb.
    + apply lookup_empty.
    + rewrite lookup_insert_ne by discriminate. apply lookup_empty.
Qed.

(** C7, as the code has it. The value remembered for an unknown name is
    the value after substitution, so a reference to a reference resolves:
    with 'a' and 'b' unknown to the registry, "a: #112233; b: a; c: b;"
    sets 'c' to #112233. *)
Theorem chained_reference_resolves out main :
  (forall r g b a,
     onPalette (palette_setColor "a" r g b a) out main = (false, out, main)) ->
  (forall r g b a,
     onPalette (palette_setColor "b" r g b a) out main = (false, out, main)) ->
  (forall fuel from name value rest unsupported out' main',
     Entry from name value rest ->
     setColorSchemeValue name (default value (unsupported !! value)) out main
     = (NotFound, out', main') ->
     schemeLoop (S fuel) from unsupported out main
     = schemeLoop fuel rest
         (<[name := default value (unsupported !! value)]> unsupported)
         out' main')
  /\ loadColorSchemeData "a: #112233; b: a; c: b;" out main
     = let '(_, out, main) :=
         onPalette (palette_setColor "c" 17 34 51 255) out main in
       Some (true, out, main).
Proof.
  intros Ha Hb. split.
  - intros fuel from name value rest u out' main' E Hset.
    rewrite (schemeLoop_entry _ _ _ _ _ _ _ _ E). cbv zeta.
    now rewrite Hset.
  - unfold loadColorSchemeData. simpl String.length.
    rewrite (schemeLoop_entry _ _ "a" "#112233" " b: a; c: b;");
      [|now exists "", "", " ", ""].
    rewrite lookup_empty. cbv zeta. cbn [default].
    rewrite (setColorSchemeValue_hex6 "a" "1" "1" "2" "2" "3" "3")%char
      by reflexivity.
    rewrite Ha. cbv beta iota.
    rewrite (schemeLoop_entry _ _ "b" "a" " c: b;");
      [|now exists " ", "", " ", ""].
    rewrite lookup_insert_eq. cbv zeta. cbn [default].
    rewrite (setColorSchemeValue_hex6 "b" "1" "1" "2" "2" "3" "3")%char
      by reflexivity.
    rewrite Hb. cbv beta iota.
    rewrite (schemeLoop_entry _ _ "c" "b" "");
      [|now exists " ", "", " ", ""].
    rewrite lookup_insert_eq. cbv zeta. cbn [default].
    rewrite (setColorSchemeValue_hex6 "c" "1" "1" "2" "2" "3" "3")%char
      by reflexivity.
    change (16 * hexValue "1" + hexValue "1") with 17.
    change (16 * hexValue "2" + hexValue "2") with 34.
    change (16 * hexValue "3" + hexValue "3") with 51.
    destruct (onPalette (palette_setColor "c" 17 34 51 255) out main)
      as [[[] out1] main1]; reflexivity.
Qed.

End SchemeClaims.

(** ** The parser on the sample registry *)

Lemma parse_loop_outcome_witness :
  Violation "windowBg #336699;"
  /\ loadColorSchemeData (P := Sample.Palette) "windowBg #336699;" None
       Sample.defaults
     = Some (false, None, Sample.defaults).
Proof.
  assert (V : Violation "windowBg #336699;").
  { apply (missing_colon _ " #336699;" "#").
    - exact (past_name " #336699;" "" "windowBg" eq_refl eq_refl eq_refl).
    - reflexivity.
    - discriminate. }
  split; [exact V|].
  exact (proj2 (proj2 (proj2 parse_loop_outcome)) _ None Sample.defaults V).
Defined.

Lemma hex_color_channels_witness :
  setColorSchemeValue (P := Sample.Palette) "windowBg" "#336699" None
    Sample.defaults
  = (Ok, None,
     [("windowBg", (0x33, 0x66, 0x99, 255)); ("windowFg", (0, 0, 0, 255));
      ("msgServiceBg", (120, 140, 160, 255))]%string)
  /\ setColorSchemeValue (P := Sample.Palette) "windowBg" "#33669980" None
       Sample.defaults
     = (Ok, None,
        [("windowBg", (0x33, 0x66, 0x99, 0x80)); ("windowFg", (0, 0, 0, 255));
         ("msgServiceBg", (120, 140, 160, 255))]%string)
  /\ setColorSchemeValue (P := Sample.Palette) "windowBg" "#3366zz" None
       Sample.defaults
     = (Bad, None, Sample.defaults)
  /\ exists out' main',
       loadColorSchemeData (P := Sample.Palette)
         "windowFg: #000000; windowBg: #3366zz;" None Sample.defaults
       = Some (false, out', main').
Proof.
  destruct (hex_color_channels (P := Sample.Palette) "windowBg" None
              Sample.defaults) as (H6 & H8 & Hbad & Hfail).
  split; [exact (H6 "3" "3" "6" "6" "9" "9" eq_refl)%char|].
  split; [exact (H8 "3" "3" "6" "6" "9" "9" "8" "0" eq_refl)%char|].
  split; [exact (Hbad "#3366zz" eq_refl)|].
  apply (Hfail _ " windowBg: #3366zz;" "#3366zz" "").
  - apply (Reaches_next _ "windowFg" "#000000" " windowBg: #3366zz;");
      [now exists "", "", " ", ""|reflexivity|constructor].
  - now exists " ", "", " ", "".
  - reflexivity.
Defined.

(** C5 as stated fails: the scheme with the 4-character value "#000"
    loads with success. *)
Lemma short_hash_loads :
  loadColorScheme (P := Sample.Palette) (L := Sample.Storage)
    "a: #fff000; b: #000;" None [("a", (0, 0, 0, 0))]%string
  = Some (true, None, [("a", (255, 240, 0, 255))]%string).
Proof. vm_compute. reflexivity. Qed.

Lemma short_hash_is_reference_witness :
  setColorSchemeValue (P := Sample.Palette) "b" "#000" None
    [("a", (255, 240, 0, 255))]%string
  = (NotFound, None, [("a", (255, 240, 0, 255))]%string)
  /\ loadColorSchemeData (P := Sample.Palette) "a: #fff000; b: #000;" None
       [("a", (0, 0, 0, 0))]%string
     = Some (true, None, [("a", (255, 240, 0, 255))]%string).
Proof.
  split.
  - destruct (short_hash_is_reference (P := Sample.Palette) "b" None
                [("a", (255, 240, 0, 255))]%string) as [Href _].
    apply (Href "#000"); discriminate.
  - destruct (short_hash_is_reference (P := Sample.Palette) "b" None
                [("a", (0, 0, 0, 0))]%string) as [_ Hload].
    exact Hload.
Defined.

(** C7 as stated fails: with 'a' and 'b' unknown and 'c' known, 'c' does
    receive #112233. *)
Lemma chain_sets_c :
  loadColorScheme (P := Sample.Palette) (L := Sample.Storage)
    "a: #112233; b: a; c: b;" None [("c", (0, 0, 0, 0))]%string
  = Some (true, None, [("c", (0x11, 0x22, 0x33, 255))]%string).
Proof. vm_compute. reflexivity. Qed.

Lemma chained_reference_resolves_witness :
  loadColorSchemeData (P := Sample.Palette) "a: #112233; b: a; c: b;" None
    [("c", (0, 0, 0, 0))]%string
  = Some (true, None, [("c", (0x11, 0x22, 0x33, 255))]%string).
Proof.
  destruct (chained_reference_resolves (P := Sample.Palette) None
              [("c", (0, 0, 0, 0))]%string) as [_ Hload];
    [reflexivity|reflexivity|].
  exact Hload.
Defined.

(** ** hashCrc32 tells apart contents that differ in one byte *)

Lemma lxor_word32 a b : word32 a -> word32 b -> word32 (Z.lxor a b).
Proof.
  unfold word32. intros Ha Hb. split; [apply Z.lxor_nonneg; lia|].
  destruct (Z.eq_dec (Z.lxor a b) 0) as [->|Hn]; [lia|].
  assert (0 <= Z.lxor a b) by (apply Z.lxor_nonneg; lia).
  apply Z.log2_lt_pow2; [lia|].
  eapply Z.le_lt_trans; [apply Z.log2_lxor; lia|].
  apply Z.max_lub_lt.
  - destruct (Z.eq_dec a 0) as [->|]; [reflexivity|].
    apply Z.log2_lt_pow2; lia.
  - destruct (Z.eq_dec b 0) as [->|]; [reflexivity|].
    apply Z.log2_lt_pow2; lia.
Qed.

Lemma lxor_cancel a b c : Z.lxor a b = Z.lxor a c -> b = c.
Proof.
  intros E. apply (f_equal (Z.lxor a)) in E.
  now rewrite <- !Z.lxor_assoc, Z.lxor_nilpotent, !Z.lxor_0_l in E.
Qed.

Lemma word32_bit s n : word32 s -> 32 <= n -> Z.testbit s n = false.
Proof.
  unfold word32. intros Hs Hn.
  destruct (Z.eq_dec s 0) as [->|]; [apply Z.testbit_0_l|].
  apply Z.bits_above_log2; [lia|].
  assert (Z.log2 s < 32) by (apply Z.log2_lt_pow2; lia). lia.
Qed.

Lemma crcBit_word32 s : word32 s -> word32 (crcBit s).
Proof.
  intros Hs. unfold crcBit. apply lxor_word32.
  - unfold word32 in *. rewrite Z.shiftr_div_pow2 by lia.
    change (2 ^ 1) with 2. split; [apply Z.div_pos; lia|].
    apply Z.div_lt_upper_bound; lia.
  - destruct (Z.testbit s 0); unfold word32, crcPolynomial; lia.
Qed.

Lemma crcUnbit_crcBit s : word32 s -> crcUnbit (crcBit s) = s.
Proof.
  intros Hs. unfold crcUnbit, crcBit.
  assert (Hhigh : Z.testbit (Z.shiftr s 1) 31 = false).
  { rewrite Z.shiftr_spec by lia. now apply word32_bit. }
  assert (Hhalf : Z.shiftr s 1 = s / 2).
  { now rewrite Z.shiftr_div_pow2 by lia. }
  pose proof (Z.bit0_odd s) as Hodd.
  pose proof (Z.div_mod s 2 ltac:(lia)) as Hdiv.
  rewrite Z.lxor_spec, Hhigh.
  destruct (Z.testbit s 0) eqn:Hbit.
  - change (Z.testbit crcPolynomial 31) with true. cbn [xorb].
    rewrite Z.lxor_assoc, Z.lxor_nilpotent, Z.lxor_0_r, Hhalf.
    symmetry in Hodd. rewrite <- Z.negb_even in Hodd.
    apply negb_true_iff in Hodd. rewrite Zeven_mod in Hodd.
    apply Z.eqb_neq in Hodd. pose proof (Z.mod_pos_bound s 2). lia.
  - rewrite Z.testbit_0_l. cbn [xorb]. rewrite Z.lxor_0_r, Hhalf.
    symmetry in Hodd. rewrite <- Z.negb_even in Hodd.
    apply negb_false_iff in Hodd. rewrite Zeven_mod in Hodd.
    apply Z.eqb_eq in Hodd. lia.
Qed.

Lemma iter_crcBit_word32 n s : word32 s -> word32 (Nat.iter n crcBit s).
Proof. induction n; simpl; auto using crcBit_word32. Qed.

Lemma iter_crcBit_inj n s s' :
  word32 s -> word32 s' ->
  Nat.iter n crcBit s = Nat.iter n crcBit s' -> s = s'.
Proof.
  intros Hs Hs'. induction n as [|n IH]; simpl; [auto|].
  intros E. apply IH.
  rewrite <- (crcUnbit_crcBit (Nat.iter n crcBit s)),
          <- (crcUnbit_crcBit (Nat.iter n crcBit s'));
    auto using iter_crcBit_word32.
  now rewrite E.
Qed.

Lemma code_word32 c : word32 (code c).
Proof. pose proof (code_range c). unfold word32. lia. Qed.

Lemma crcByte_iter s c :
  crcByte s c = Nat.iter 8 crcBit (Z.lxor s (code c)).
Proof. reflexivity. Qed.

Lemma crcByte_word32 s c : word32 s -> word32 (crcByte s c).
Proof.
  intros Hs. apply iter_crcBit_word32, lxor_word32; auto using code_word32.
Qed.

Lemma crcByte_inj_state s s' c :
  word32 s -> word32 s' -> crcByte s c = crcByte s' c -> s = s'.
Proof.
  intros Hs Hs' E. rewrite !crcByte_iter in E.
  apply (iter_crcBit_inj 8) in E; auto using lxor_word32, code_word32.
  rewrite (Z.lxor_comm s), (Z.lxor_comm s') in E. now apply lxor_cancel in E.
Qed.

Lemma crcByte_inj_char s c c' :
  word32 s -> crcByte s c = crcByte s c' -> c = c'.
Proof.
  intros Hs E. rewrite !crcByte_iter in E.
  apply (iter_crcBit_inj 8) in E; auto using lxor_word32, code_word32.
  now apply lxor_cancel, code_inj in E.
Qed.

Lemma crcUpdate_word32 data : forall s, word32 s -> word32 (crcUpdate s data).
Proof. induction data; simpl; auto using crcByte_word32. Qed.

Lemma crcUpdate_inj data : forall s s',
  word32 s -> word32 s' -> crcUpdate s data = crcUpdate s' data -> s = s'.
Proof.
  induction data as [|c data IH]; simpl; intros s s' Hs Hs' E; [exact E|].
  apply IH in E; auto using crcByte_word32.
  now apply crcByte_inj_state in E.
Qed.

Lemma crcUpdate_app pre rest : forall s,
  crcUpdate s (pre +:+ rest) = crcUpdate (crcUpdate s pre) rest.
Proof.
  induction pre as [|c pre IH]; intros s; [reflexivity|].
  rewrite string_app_cons. simpl. apply IH.
Qed.

Lemma hashCrc32_one_byte pre c c' post :
  c <> c' ->
  hashCrc32 (pre +:+ String c post) <> hashCrc32 (pre +:+ String c' post).
Proof.
  intros Hc E. apply Hc. unfold hashCrc32 in E.
  rewrite !(Z.lxor_comm _ 4294967295) in E. apply lxor_cancel in E.
  rewrite !crcUpdate_app in E. simpl in E.
  assert (Hs : word32 (crcUpdate 4294967295 pre)).
  { apply crcUpdate_word32. unfold word32. lia. }
  apply crcUpdate_inj in E; auto using crcByte_word32.
  now apply crcByte_inj_char in E.
Qed.

Example hashCrc32_check : hashCrc32 "123456789" = 0xCBF43926.
Proof. vm_compute. reflexivity. Qed.

(** ** The state monad *)

Ltac run :=
  cbv beta iota zeta delta
    [mbind M_bind mret M_ret crash t_assert getPalette setPalette
     getStorage setStorage getInstance setInstance deref createIfNull notify
     this setThis getApplying setApplying Background writeBackground
     writeUserSettings writeTheme];
  cbn [main_palette instance storage notified data_background applying
       path content paletteForRevert applying_cached].

Ltac cases :=
  run;
  repeat (match goal with
          | |- context [if ?c then _ else _] => destruct c eqn:?
          end; run).

Section CacheClaims.

Context {P L : Type} `{Registry P} `{Collaborators P L}.

Implicit Types (w : @World P L) (cache : Cached).

Lemma loadThemeFromCache_palette content cache w :
  paletteChecksum cache <> palette_Checksum ->
  loadThemeFromCache content cache w = Done (false, w).
Proof.
  intros Hp. unfold loadThemeFromCache.
  apply Z.eqb_neq in Hp. now rewrite Hp.
Qed.

Lemma loadThemeFromCache_content content cache w :
  contentChecksum cache <> hashCrc32 content ->
  loadThemeFromCache content cache w = Done (false, w).
Proof.
  intros Hc. unfold loadThemeFromCache.
  apply Z.eqb_neq in Hc. rewrite Hc.
  now destruct (paletteChecksum cache =? palette_Checksum).
Qed.

(** C2, as the code has it. The cache is accepted exactly when both
    checksums match and, besides, its background decodes and its colours
    load. A cache whose palette checksum is not the registry's, or whose
    content checksum is not the CRC-32 of the content, is rejected with
    nothing changed; so is the cache of a content after one byte of the
    content is replaced by another. [Load] then runs the full
    [loadTheme] on the content. *)
Theorem cache_acceptance content cache w :
  ((exists w', loadThemeFromCache content cache w = Done (true, w'))
   <-> paletteChecksum cache = palette_Checksum
       /\ contentChecksum cache = hashCrc32 content
       /\ usable cache w)
  /\ (paletteChecksum cache <> palette_Checksum
      \/ contentChecksum cache <> hashCrc32 content ->
      loadThemeFromCache content cache w = Done (false, w))
  /\ (forall pre c c' post,
        content = pre +:+ String c post -> c <> c' ->
        contentChecksum cache = hashCrc32 content ->
        loadThemeFromCache (pre +:+ String c' post) cache w
        = Done (false, w))
  /\ (forall pathRelative pathAbsolute w1 w2,
        4 <= size content ->
        createIfNull w = Done ((), w1) ->
        loadThemeFromCache content cache w1 = Done (false, w2) ->
        Load pathRelative pathAbsolute content cache w
        = ('(ok, cache, _) ← loadTheme content None;
           if negb ok then mret (false, cache) else
           writeTheme pathRelative pathAbsolute content cache;;
           mret (true, cache)) w2).
Proof.
  split; [|split; [|split]].
  - destruct w as [pal inst sto nots].
    unfold usable, loadThemeFromCache. cbn [main_palette].
    destruct (Z.eqb_spec (paletteChecksum cache) palette_Checksum) as [Ep|Np];
      cbn [negb].
    2:{ split; [intros [w' E]; discriminate|]. intros (Ep & _). contradiction. }
    destruct (Z.eqb_spec (contentChecksum cache) (hashCrc32 content))
      as [Ec|Nc]; cbn [negb].
    2:{ split; [intros [w' E]; discriminate|]. intros (_ & Ec & _).
        contradiction. }
    destruct (cached_background cache) as [|b0 bs] eqn:Eb; cbn [isEmpty negb].
    + run. destruct (palette_load (colors cache) pal)
        as [[] p] eqn:El; cbn [negb fst isNull].
      * split; [intros _|intros _; eauto]. auto.
      * split; [intros [w' E]; discriminate|]. intros (_ & _ & _ & E).
        discriminate.
    + destruct (readerRead (String b0 bs)) as [d|] eqn:Er.
      * run. destruct (palette_load (colors cache) pal)
          as [[] p] eqn:El; cbn [negb fst isNull].
        -- unfold applyBackground, setThemeData. run.
           destruct inst; run;
             (split; [intros _|intros _; eauto]); repeat split; auto;
             right; discriminate.
        -- split; [intros [w' E]; discriminate|]. intros (_ & _ & _ & E).
           discriminate.
      * run. split; [intros [w' E]; discriminate|].
        intros (_ & _ & [E|E] & _); [discriminate|contradiction].
  - intros [Hp|Hc];
      [now apply loadThemeFromCache_palette
      |now apply loadThemeFromCache_content].
  - intros pre c c' post -> Hc Ec. apply loadThemeFromCache_content.
    rewrite Ec. now apply hashCrc32_one_byte.
  - intros pathRelative pathAbsolute w1 w2 Hsize Hcreate Hreject.
    unfold Load. destruct (Z.ltb_spec (size content) 4); [lia|].
    change (createIfNull ≫= _) with (mbind (M := M)
      (fun _ : unit => hit ← loadThemeFromCache content cache;
         if hit : bool then mret (true, cache) else
         '(ok, cache, _) ← loadTheme content None;
         if negb ok then mret (false, cache) else
         writeTheme pathRelative pathAbsolute content cache;;
         mret (true, cache)) createIfNull).
    unfold mbind at 1, M_bind at 1. rewrite Hcreate.
    unfold mbind at 1, M_bind at 1. rewrite Hreject. reflexivity.
Qed.

End CacheClaims.

(** C2 as stated fails: both checksums of this cache match and it is
    rejected, because the registry does not load its colours. *)
Lemma stale_colors_rejected :
  paletteChecksum Sample.staleCache = palette_Checksum
  /\ contentChecksum Sample.staleCache = hashCrc32 Sample.scheme
  /\ loadThemeFromCache Sample.scheme Sample.staleCache Sample.world
     = Done (false, Sample.world).
Proof. repeat split. Qed.

Lemma cache_acceptance_witness :
  (exists w', loadThemeFromCache Sample.scheme Sample.goodCache Sample.world
              = Done (true, w'))
  /\ loadThemeFromCache "WindowBg: #336699;" Sample.goodCache Sample.world
     = Done (false, Sample.world)
  /\ exists cache w',
       Load "day" "/day" Sample.scheme Sample.staleCache Sample.world
       = Done (true, cache, w').
Proof.
  destruct (cache_acceptance Sample.scheme Sample.goodCache Sample.world)
    as (Hiff & _ & Hflip & _).
  split; [apply Hiff; repeat split; left; reflexivity|].
  split; [apply (Hflip "" "w"%char "W"%char "indowBg: #336699;");
          [reflexivity|discriminate|reflexivity]|].
  destruct (cache_acceptance Sample.scheme Sample.staleCache Sample.world)
    as (_ & _ & _ & Hload).
  rewrite (Hload "day" "/day"
             {| main_palette := Sample.defaults; instance := Some Data0;
                storage := storage Sample.world; notified := [] |}
             {| main_palette := Sample.defaults; instance := Some Data0;
                storage := storage Sample.world; notified := [] |})%string;
    [|vm_compute; discriminate|reflexivity|reflexivity].
  vm_compute. eauto.
Defined.

(** ** The background of a packaged theme *)

Section ContainerClaims.

Context {P L : Type} `{Registry P} `{Collaborators P L}.

Implicit Types (w : @World P L) (out : option (@Instance P)).

Lemma loadBackground_probing entries :
  let file := zlib.open (Some entries) in
  match firstFound probeOrder entries with
  | None => loadBackground file false = (true, file, "", true)
  | Some (name, zlib.Readable content) =>
      if size content >? kThemeBackgroundSizeLimit
      then (loadBackground file false).1.1.1 = false
      else loadBackground file false
           = (true, file, content, isTiledName name)
  | Some (name, zlib.Corrupt) => (loadBackground file false).1.1.1 = false
  end.
Proof.
  cbv zeta. unfold firstFound, probeOrder, loadBackground,
    loadBackgroundFromFile, zlib.readFileContent, zlib.open.
  cbn [zlib.error zlib.handle negb]. change (zlib.UNZ_OK =? zlib.UNZ_OK) with true.
  cbn [negb].
  destruct (zlib.locate "background.jpg" entries) as [[c|]|].
  { destruct (size c >? kThemeBackgroundSizeLimit); reflexivity. }
  { reflexivity. }
  cbn. destruct (zlib.locate "background.png" entries) as [[c|]|].
  { destruct (size c >? kThemeBackgroundSizeLimit); reflexivity. }
  { reflexivity. }
  cbn. destruct (zlib.locate "tiled.jpg" entries) as [[c|]|].
  { destruct (size c >? kThemeBackgroundSizeLimit); reflexivity. }
  { reflexivity. }
  cbn. destruct (zlib.locate "tiled.png" entries) as [[c|]|].
  { destruct (size c >? kThemeBackgroundSizeLimit); reflexivity. }
  { reflexivity. }
  reflexivity.
Qed.

Lemma loadThemeContent_packaged content entries cache out w out1 w1 :
  schemeLoaded content entries out w out1 w1 ->
  loadThemeContent content cache out w
  = (let '(ok, file, backgroundContent, backgroundTiled) :=
       loadBackground (zlib.open (Some entries)) false in
     if negb ok then mret (false, cache, out1) else
     if negb (isEmpty backgroundContent) then
       match readImage backgroundContent with
       | None => mret (false, cache, out1)
       | Some background =>
           match saveBMP background with
           | None => mret (false, cache, out1)
           | Some bmp =>
               let cache := with_cache_background bmp cache in
               let cache := with_cache_tiled backgroundTiled cache in
               out ← applyBackground (Some background) (cached_tiled cache)
                       out1;
               mret (true, cache, out)
           end
       end
     else mret (true, cache, out1)) w1.
Proof.
  intros (scheme & Hopen & Hlocate & Hsize & Hrun).
  unfold loadThemeContent. rewrite Hopen.
  unfold zlib.readFileContent, zlib.open. cbn [zlib.error zlib.handle].
  change (zlib.UNZ_OK =? zlib.UNZ_OK) with true. cbn [negb].
  rewrite Hlocate.
  destruct (Z.gtb_spec (size scheme) kThemeSchemeSizeLimit); [lia|].
  cbn [zlib.error]. change (zlib.UNZ_OK =? zlib.UNZ_OK) with true.
  cbn [negb]. unfold mbind at 1, M_bind at 1. rewrite Hrun. reflexivity.
Qed.

(** C3. [loadBackground] takes the first of background.jpg,
    background.png, tiled.jpg, tiled.png that the archive has: its bytes
    come out, and the tiled flag comes out true exactly when that entry is
    one of the tiled names; an entry that is found and cannot be read is
    failure. In [loadTheme], the bytes that decode give the background and
    the tiled flag of the result; with all four entries absent the load
    succeeds with no background. *)
Theorem background_extraction :
  (forall entries,
     let file := zlib.open (Some entries) in
     match firstFound probeOrder entries with
     | None => loadBackground file false = (true, file, "", true)
     | Some (name, zlib.Readable content) =>
         if size content >? kThemeBackgroundSizeLimit
         then (loadBackground file false).1.1.1 = false
         else loadBackground file false
              = (true, file, content, isTiledName name)
     | Some (name, zlib.Corrupt) => (loadBackground file false).1.1.1 = false
     end)
  /\ (forall content entries out w out1 w1,
        schemeLoaded content entries out w out1 w1 ->
        firstFound probeOrder entries = None ->
        loadTheme content out w
        = Done ((true,
                 {| colors :=
                      match out1 with
                      | Some i => palette_save (palette i)
                      | None => palette_save (main_palette w1)
                      end;
                    cached_background := ""; cached_tiled := false;
                    paletteChecksum := palette_Checksum;
                    contentChecksum := hashCrc32 content |},
                 out1), w1))
  /\ (forall content entries i w i1 w1 name bytes image bmp,
        schemeLoaded content entries (Some i) w (Some i1) w1 ->
        firstFound probeOrder entries = Some (name, zlib.Readable bytes) ->
        size bytes <= kThemeBackgroundSizeLimit ->
        isEmpty bytes = false ->
        readImage bytes = Some image -> saveBMP image = Some bmp ->
        loadTheme content (Some i) w
        = Done ((true,
                 {| colors := palette_save (palette i1);
                    cached_background := bmp;
                    cached_tiled := isTiledName name;
                    paletteChecksum := palette_Checksum;
                    contentChecksum := hashCrc32 content |},
                 Some {| palette := palette i1; background := Some image;
                         tiled := isTiledName name; cached := cached i1 |}),
                w1)).
Proof.
  split; [exact loadBackground_probing|split].
  - intros content entries out w out1 w1 Hscheme Hnone.
    unfold loadTheme. unfold mbind at 1, M_bind at 1.
    rewrite (loadThemeContent_packaged _ _ _ _ _ _ _ Hscheme).
    pose proof (loadBackground_probing entries) as Hprobe.
    cbv zeta in Hprobe. rewrite Hnone in Hprobe. rewrite Hprobe.
    destruct w1. reflexivity.
  - intros content entries i w i1 w1 name bytes image bmp
      Hscheme Hfound Hsize Hne Himage Hbmp.
    unfold loadTheme. unfold mbind at 1, M_bind at 1.
    rewrite (loadThemeContent_packaged _ _ _ _ _ _ _ Hscheme).
    pose proof (loadBackground_probing entries) as Hprobe.
    cbv zeta in Hprobe. rewrite Hfound in Hprobe.
    destruct (Z.gtb_spec (size bytes) kThemeBackgroundSizeLimit); [lia|].
    rewrite Hprobe. cbn [negb]. rewrite Hne. cbn [negb].
    rewrite Himage, Hbmp. destruct w1. reflexivity.
Qed.

End ContainerClaims.

Lemma background_extraction_witness :
  (exists cache i w,
     loadTheme "PK01" (Some Instance0) Sample.world
     = Done ((true, cache, Some i), w)
     /\ cached_tiled cache = true /\ tiled i = true
     /\ background i = Some (Sample.pixel (code "p")))
  /\ (exists cache i w,
        loadTheme "PK02" (Some Instance0) Sample.world
        = Done ((true, cache, Some i), w)
        /\ cached_tiled cache = false /\ tiled i = false
        /\ background i = Some (Sample.pixel (code "j")))
  /\ (exists cache i w,
        loadTheme "PK03" (Some Instance0) Sample.world
        = Done ((true, cache, Some i), w)
        /\ cached_background cache = "" /\ background i = None).
Proof.
  destruct (background_extraction (P := Sample.Palette) (L := Sample.Storage))
    as (_ & Habsent & Hfound).
  assert (Hscheme : forall content entries,
    unzOpen content = Some entries ->
    zlib.locate "colors.tdesktop-theme" entries
    = Some (zlib.Readable Sample.scheme) ->
    schemeLoaded content entries (Some Instance0) Sample.world
      (Some {| palette := (Sample.update "windowBg" (0x33, 0x66, 0x99, 255)
                             Sample.defaults).2;
               background := None; tiled := false; cached := Cached0 |})
      Sample.world).
  { intros content entries Hopen Hlocate. exists Sample.scheme.
    split; [exact Hopen|]. split; [exact Hlocate|].
    split; [vm_compute; discriminate|reflexivity]. }
  split; [|split].
  - do 3 eexists. split.
    + eapply Hfound;
        [apply Hscheme; reflexivity|reflexivity|vm_compute; discriminate
        |reflexivity|reflexivity|reflexivity].
    + repeat split.
  - do 3 eexists. split.
    + eapply Hfound;
        [apply Hscheme; reflexivity|reflexivity|vm_compute; discriminate
        |reflexivity|reflexivity|reflexivity].
    + repeat split.
  - do 3 eexists. split.
    + eapply Habsent; [apply Hscheme; reflexivity|reflexivity].
    + repeat split.
Defined.

(** ** Tiling *)

Section TilingLoops.

Local Open Scope nat_scope.

Lemma lookup_concat_blocks {A} (blocks : list (list A)) n : forall i j,
  Forall (fun block => length block = n) blocks -> j < n ->
  concat blocks !! (i * n + j) = blocks !! i ≫= (.!! j).
Proof.
  induction blocks as [|block blocks IH]; intros i j Hall Hj.
  - now rewrite !lookup_nil.
  - inversion Hall as [|? ? Hlen Hrest]; subst. simpl concat.
    destruct i as [|i].
    + simpl. rewrite lookup_app_l by lia. reflexivity.
    + rewrite lookup_app_r by lia.
      replace (S i * length block + j - length block)
        with (i * length block + j) by lia.
      now rewrite IH.
Qed.

Lemma length_concat_blocks {A} (blocks : list (list A)) n :
  Forall (fun block => length block = n) blocks ->
  length (concat blocks) = length blocks * n.
Proof.
  induction 1 as [|block blocks Hlen _ IH]; [reflexivity|].
  simpl. rewrite length_app, IH. lia.
Qed.

(** A copy at the end of what is written so far. *)
Lemma memcpy_next (written rest source : list Z) from n :
  n <= length rest ->
  memcpy (written ++ rest) (length written) source from n
  = (written ++ take n (drop from source)) ++ drop n rest.
Proof.
  intros Hn. unfold memcpy.
  rewrite take_app_length, drop_app_add, <- app_assoc. reflexivity.
Qed.

Lemma tileLine_spec repeatTimesX source from n : forall written rest,
  length (take n (drop from source)) = n ->
  repeatTimesX * n <= length rest ->
  tileLine repeatTimesX (written ++ rest) (length written) source from n
  = ((written ++ concat (replicate repeatTimesX (take n (drop from source))))
       ++ drop (repeatTimesX * n) rest,
     length written + repeatTimesX * n).
Proof.
  induction repeatTimesX as [|k IH]; intros written rest Hrow Hfit.
  - simpl. now rewrite app_nil_r, Nat.add_0_r.
  - cbn [tileLine]. rewrite memcpy_next by lia.
    replace (length written + n)
      with (length (written ++ take n (drop from source)))
      by (rewrite length_app, Hrow; reflexivity).
    rewrite IH; [|exact Hrow|rewrite length_drop; lia].
    rewrite drop_drop, length_app, Hrow. simpl concat.
    rewrite <- !app_assoc. replace (S k * n) with (n + k * n) by lia.
    f_equal. lia.
Qed.

Lemma tileLines_spec repeatTimesX source n : forall count y0 written rest,
  (y0 + count) * n <= length source ->
  count * (repeatTimesX * n) <= length rest ->
  tileLines count repeatTimesX (written ++ rest) (length written) source
    (y0 * n) n n (n * repeatTimesX)
  = ((written ++ band repeatTimesX source n y0 count)
       ++ drop (count * (repeatTimesX * n)) rest,
     length written + count * (repeatTimesX * n)).
Proof.
  induction count as [|count IH]; intros y0 written rest Hsrc Hfit.
  - unfold band. simpl. now rewrite app_nil_r, Nat.add_0_r.
  - cbn [tileLines].
    assert (Hrow : length (take n (drop (y0 * n) source)) = n).
    { rewrite length_take, length_drop. nia. }
    rewrite tileLine_spec; [|exact Hrow|nia].
    replace (n * repeatTimesX - repeatTimesX * n) with 0 by lia.
    rewrite Nat.add_0_r.
    set (row := concat (replicate repeatTimesX
                          (take n (drop (y0 * n) source)))).
    assert (Hlen : length row = repeatTimesX * n).
    { unfold row. erewrite length_concat_blocks;
        [now rewrite length_replicate|].
      now apply Forall_replicate. }
    replace (length written + repeatTimesX * n)
      with (length (written ++ row)) by (rewrite length_app; lia).
    replace (y0 * n + n) with (S y0 * n) by lia.
    rewrite IH; [|nia|rewrite length_drop; nia].
    rewrite drop_drop, length_app, Hlen.
    unfold band. cbn [seq fmap list_fmap concat]. fold row.
    rewrite <- !app_assoc.
    replace (S count * (repeatTimesX * n))
      with (repeatTimesX * n + count * (repeatTimesX * n)) by lia.
    f_equal. lia.
Qed.

Lemma band_lines repeatTimesX source n y0 count :
  (y0 + count) * n <= length source ->
  Forall (fun block : list Z => length block = repeatTimesX * n)
    ((fun y =>
        concat (replicate repeatTimesX (take n (drop (y * n) source))))
     <$> seq y0 count).
Proof.
  intros Hsrc. apply Forall_fmap, Forall_seq. intros y Hy. cbn.
  erewrite length_concat_blocks; [now rewrite length_replicate|].
  apply Forall_replicate. rewrite length_take, length_drop. nia.
Qed.

Lemma length_band repeatTimesX source n y0 count :
  (y0 + count) * n <= length source ->
  length (band repeatTimesX source n y0 count) = count * (repeatTimesX * n).
Proof.
  intros Hsrc. unfold band.
  erewrite length_concat_blocks; [|now apply band_lines].
  now rewrite length_fmap, length_seq.
Qed.

Lemma tileBlocks_spec height repeatTimesX source n :
  forall repeatTimesY written rest,
  height * n <= length source ->
  repeatTimesY * (height * (repeatTimesX * n)) <= length rest ->
  tileBlocks repeatTimesY height repeatTimesX (written ++ rest)
    (length written) source n n (n * repeatTimesX)
  = ((written
        ++ concat (replicate repeatTimesY
                     (band repeatTimesX source n 0 height)))
       ++ drop (repeatTimesY * (height * (repeatTimesX * n))) rest,
     length written + repeatTimesY * (height * (repeatTimesX * n))).
Proof.
  induction repeatTimesY as [|k IH]; intros written rest Hsrc Hfit.
  - simpl. now rewrite app_nil_r, Nat.add_0_r.
  - cbn [tileBlocks].
    change 0 with (0 * n) at 1. rewrite tileLines_spec; [|lia|nia].
    pose proof (length_band repeatTimesX source n 0 height Hsrc) as Hlen.
    replace (length written + height * (repeatTimesX * n))
      with (length (written ++ band repeatTimesX source n 0 height))
      by (rewrite length_app; lia).
    rewrite IH; [|exact Hsrc|rewrite length_drop; nia].
    rewrite drop_drop, length_app, Hlen. cbn [replicate concat].
    rewrite <- !app_assoc.
    replace (S k * (height * (repeatTimesX * n)))
      with (height * (repeatTimesX * n) + k * (height * (repeatTimesX * n)))
      by lia.
    f_equal. lia.
Qed.

(** A pixel of the tiled lines is the pixel of the source at the same
    place in its block. *)
Lemma lookup_tiles height repeatTimesX repeatTimesY source n bx by_ x y :
  length source = height * n ->
  bx < repeatTimesX -> by_ < repeatTimesY -> x < n -> y < height ->
  concat (replicate repeatTimesY (band repeatTimesX source n 0 height))
    !! ((by_ * height + y) * (n * repeatTimesX) + (bx * n + x))
  = source !! (y * n + x).
Proof.
  intros Hsrc Hbx Hby Hx Hy.
  replace ((by_ * height + y) * (n * repeatTimesX) + (bx * n + x))
    with (by_ * (height * (repeatTimesX * n))
          + (y * (repeatTimesX * n) + (bx * n + x))) by lia.
  rewrite (lookup_concat_blocks _ (height * (repeatTimesX * n)));
    [|apply Forall_replicate, length_band; lia|nia].
  rewrite lookup_replicate_2 by exact Hby. cbn [mbind option_bind].
  unfold band.
  rewrite (lookup_concat_blocks _ (repeatTimesX * n));
    [|apply band_lines; lia|nia].
  rewrite list_lookup_fmap, lookup_seq_lt by exact Hy.
  cbn [fmap option_fmap option_map mbind option_bind Nat.add].
  rewrite (lookup_concat_blocks _ n);
    [|apply Forall_replicate; rewrite length_take, length_drop; nia
     |exact Hx].
  rewrite lookup_replicate_2 by exact Hbx. cbn [mbind option_bind].
  rewrite lookup_take_lt by exact Hx. now rewrite lookup_drop.
Qed.

End TilingLoops.

Lemma qCeilOfRatio_spec threshold dimension :
  0 < dimension ->
  (qCeilOfRatio threshold dimension - 1) * dimension < threshold
  <= qCeilOfRatio threshold dimension * dimension.
Proof.
  intros Hd. unfold qCeilOfRatio.
  pose proof (Z.div_mod (threshold + dimension - 1) dimension ltac:(lia)).
  pose proof (Z.mod_pos_bound (threshold + dimension - 1) dimension Hd).
  nia.
Qed.

Ltac nonneg :=
  repeat first [apply Z.add_nonneg_nonneg | apply Z.mul_nonneg_nonneg]; lia.

Section TilingClaims.

Context {P L : Type} `{Registry P} `{Collaborators P L}.

Lemma imageForTiled_bits image :
  wellFormed image ->
  bits (imageForTiled image)
  = concat (replicate
      (Z.to_nat (qCeilOfRatio kMinimumTiledSize (height image)))
      (band (Z.to_nat (qCeilOfRatio kMinimumTiledSize (width image)))
         (bits image) (Z.to_nat (width image)) 0
         (Z.to_nat (height image)))).
Proof.
  intros (Hw & Hh & Hlen). unfold imageForTiled.
  pose proof (qCeilOfRatio_spec kMinimumTiledSize _ Hw) as Hx.
  pose proof (qCeilOfRatio_spec kMinimumTiledSize _ Hh) as Hy.
  set (rx := qCeilOfRatio kMinimumTiledSize (width image)) in *.
  set (ry := qCeilOfRatio kMinimumTiledSize (height image)) in *.
  unfold kMinimumTiledSize in Hx, Hy.
  assert (0 < rx) by nia. assert (0 < ry) by nia.
  replace (Z.to_nat (width image * rx))
    with (Z.to_nat (width image) * Z.to_nat rx)%nat by nia.
  rewrite <- (app_nil_l (replicate _ uninitialized)).
  change 0%nat with (length (@nil Z)) at 1.
  rewrite tileBlocks_spec;
    [|nia|rewrite length_replicate; nia].
  cbn [bits]. rewrite app_nil_l, drop_ge; [apply app_nil_r|].
  rewrite length_replicate. nia.
Qed.

(** C6. The tiled canvas of an image is [width * repeatTimesX] by
    [height * repeatTimesY] pixels, the repeat counts being the ceilings
    of 512 / width and 512 / height, and each of its width-by-height
    blocks holds the pixels of the image. [setPreparedImage] makes this
    canvas the pixmap for tiling exactly when the width or the height of
    the image is below 512, and makes the pixmap for tiling the main
    pixmap itself when both dimensions reach 512. *)
Theorem tiled_canvas :
  (forall image,
     wellFormed image ->
     let tiledImage := imageForTiled image in
     let repeatTimesX := qCeilOfRatio kMinimumTiledSize (width image) in
     let repeatTimesY := qCeilOfRatio kMinimumTiledSize (height image) in
     (repeatTimesX - 1) * width image < 512 <= repeatTimesX * width image
     /\ (repeatTimesY - 1) * height image < 512 <= repeatTimesY * height image
     /\ width tiledImage = width image * repeatTimesX
     /\ height tiledImage = height image * repeatTimesY
     /\ Z.of_nat (length (bits tiledImage))
        = width tiledImage * height tiledImage
     /\ forall bx by_ x y,
          0 <= bx < repeatTimesX -> 0 <= by_ < repeatTimesY ->
          0 <= x < width image -> 0 <= y < height image ->
          pixelAt tiledImage (bx * width image + x) (by_ * height image + y)
          = pixelAt image x y)
  /\ (forall source (w : @World P L) data,
        let image := convertToFormat Format_ARGB32_Premultiplied source in
        instance w = Some data ->
        format image = Format_ARGB32_Premultiplied ->
        0 < width image -> 0 < height image ->
        exists w' data',
          setPreparedImage (Some source) w = Done ((), w')
          /\ instance w' = Some data'
          /\ _pixmap (data_background data') = Some image
          /\ (width image < 512 \/ height image < 512 ->
              _pixmapForTiled (data_background data')
              = Some (imageForTiled image))
          /\ (512 <= width image -> 512 <= height image ->
              _pixmapForTiled (data_background data') = Some image)).
Proof.
  split.
  - intros image Hwf. cbv zeta.
    pose proof (imageForTiled_bits image Hwf) as Hbits.
    destruct Hwf as (Hw & Hh & Hlen).
    pose proof (qCeilOfRatio_spec kMinimumTiledSize _ Hw) as Hx.
    pose proof (qCeilOfRatio_spec kMinimumTiledSize _ Hh) as Hy.
    set (rx := qCeilOfRatio kMinimumTiledSize (width image)) in *.
    set (ry := qCeilOfRatio kMinimumTiledSize (height image)) in *.
    unfold kMinimumTiledSize in Hx, Hy.
    assert (0 < rx) by nia. assert (0 < ry) by nia.
    split; [exact Hx|]. split; [exact Hy|].
    assert (Hwidth : width (imageForTiled image) = width image * rx)
      by (unfold imageForTiled; now destruct (tileBlocks _ _ _ _ _ _ _ _ _)).
    assert (Hheight : height (imageForTiled image) = height image * ry)
      by (unfold imageForTiled; now destruct (tileBlocks _ _ _ _ _ _ _ _ _)).
    assert (Hsource : length (bits image)
                      = (Z.to_nat (height image) * Z.to_nat (width image))%nat).
    { apply Nat2Z.inj. rewrite Nat2Z.inj_mul, !Z2Nat.id, Hlen by lia. ring. }
    split; [exact Hwidth|]. split; [exact Hheight|]. split.
    + rewrite Hbits, Hwidth, Hheight.
      erewrite length_concat_blocks;
        [|apply Forall_replicate, length_band; rewrite Hsource; lia].
      rewrite length_replicate, !Nat2Z.inj_mul, !Z2Nat.id by lia. ring.
    + intros bx by_ x y Hbx Hby Hx' Hy'. unfold pixelAt.
      rewrite Hbits, Hwidth.
      repeat first [rewrite Z2Nat.inj_add by nonneg
                   |rewrite Z2Nat.inj_mul by nonneg].
      rewrite lookup_tiles by (exact Hsource || lia). reflexivity.
  - intros source w data image Hinst Hformat Hw Hh.
    destruct w as [pal inst sto nots]. cbn [instance] in Hinst. subst inst.
    destruct data as [bg app].
    unfold setPreparedImage, initColorsFromBackground.
    cbn [fmap option_fmap option_map]. fold image. run.
    rewrite Hformat.
    rewrite (bool_decide_eq_true_2
               (Format_ARGB32_Premultiplied = Format_ARGB32_Premultiplied))
      by reflexivity.
    destruct (Z.gtb_spec (width image) 0); [|lia].
    destruct (Z.gtb_spec (height image) 0); [|lia].
    cbn [andb].
    assert (Hsmall : isSmallForTiled image
                     = bool_decide (width image < 512 \/ height image < 512)).
    { unfold isSmallForTiled, kMinimumTiledSize.
      destruct (Z.ltb_spec (width image) 512),
               (Z.ltb_spec (height image) 512); cbn [orb];
        symmetry; first [apply bool_decide_eq_true_2; lia
                        |apply bool_decide_eq_false_2; lia]. }
    rewrite Hsmall.
    destruct (bool_decide_reflect (width image < 512 \/ height image < 512))
      as [Hbelow|Hreach]; cases;
      (do 2 eexists; split; [reflexivity|]); (split; [reflexivity|]);
      (split; [reflexivity|]); cbn [data_background _pixmapForTiled];
      unfold with_pixmaps, pixmapFromImageInPlace;
      cbn [_pixmapForTiled];
      (split; [intros Hyes|intros Hwide Hhigh]);
      first [reflexivity|exfalso; lia].
Qed.

End TilingClaims.

Lemma tiled_canvas_witness :
  width (imageForTiled (P := Sample.Palette) (L := Sample.Storage)
           Sample.square) = 600
  /\ height (imageForTiled (P := Sample.Palette) (L := Sample.Storage)
               Sample.square) = 600
  /\ pixelAt (imageForTiled (P := Sample.Palette) (L := Sample.Storage)
                Sample.square) 250 399
     = pixelAt Sample.square 50 99
  /\ (exists w' data',
        setPreparedImage (Some Sample.square) (Sample.started Sample.custom)
        = Done ((), w')
        /\ instance w' = Some data'
        /\ _pixmapForTiled (data_background data')
           = Some (imageForTiled
                     (convertToFormat (P := Sample.Palette)
                        Format_ARGB32_Premultiplied Sample.square)))
  /\ (exists w' data',
        setPreparedImage (Some Sample.poster) (Sample.started Sample.custom)
        = Done ((), w')
        /\ instance w' = Some data'
        /\ _pixmapForTiled (data_background data')
           = Some (convertToFormat (P := Sample.Palette)
                     Format_ARGB32_Premultiplied Sample.poster)).
Proof.
  destruct (tiled_canvas (P := Sample.Palette) (L := Sample.Storage))
    as [Htile Hprepared].
  assert (Hwf : wellFormed Sample.square).
  { repeat split. }
  destruct (Htile Sample.square Hwf) as (_ & _ & Hw & Hh & _ & Hpix).
  split; [exact Hw|]. split; [exact Hh|].
  split; [apply (Hpix 2 3 50 99); vm_compute; split; congruence|].
  split.
  - destruct (Hprepared Sample.square (Sample.started Sample.custom) _
                eq_refl eq_refl eq_refl eq_refl)
      as (w' & data' & E & Hinstance & _ & Hsmall & _).
    exists w', data'. split; [exact E|]. split; [exact Hinstance|].
    apply Hsmall. left. reflexivity.
  - destruct (Hprepared Sample.poster (Sample.started Sample.custom) _
                eq_refl eq_refl eq_refl eq_refl)
      as (w' & data' & E & Hinstance & _ & _ & Hlarge).
    exists w', data'. split; [exact E|]. split; [exact Hinstance|].
    apply Hlarge; cbn; lia.
Defined.

(** ** Parsing into a private Instance *)

Section PrivateParse.

Context {P L : Type} `{Registry P} `{Collaborators P L}.

Implicit Types (w : @World P L) (i : @Instance P) (main : P).

Lemma onPalette_private {A} (f : P -> A * P) i main :
  exists a i', onPalette f (Some i) main = (a, Some i', main).
Proof. unfold onPalette. destruct (f (palette i)); eauto. Qed.

Lemma setColorSchemeValue_private name value i main :
  exists result i',
    setColorSchemeValue name value (Some i) main = (result, Some i', main).
Proof.
  unfold setColorSchemeValue.
  destruct (Ascii.eqb _ _ && _).
  - destruct (readHexUchar _ _ _) as [r e1].
    destruct (readHexUchar _ _ e1) as [g e2].
    destruct (readHexUchar _ _ e2) as [b e3].
    destruct (if size value =? 9 then _ else _) as [a e4].
    destruct e4; [eauto|].
    destruct (onPalette_private (palette_setColor name r g b a) i main)
      as (found & i' & ->). eauto.
  - destruct (onPalette_private (palette_setColorRef name value) i main)
      as (found & i' & ->). eauto.
Qed.

Lemma schemeLoop_private fuel : forall from unsupported i main result,
  schemeLoop fuel from unsupported (Some i) main = Some result ->
  exists b i', result = (b, Some i', main).
Proof.
  induction fuel as [|fuel IH]; intros from u i main result; [discriminate|].
  cbn [schemeLoop].
  destruct (isEmpty from); [intros [= <-]; eauto|].
  destruct (negb (nv_ok _)); [intros [= <-]; eauto|].
  destruct (size _ =? 0); [intros [= <-]; eauto|].
  destruct (setColorSchemeValue_private (nv_name (readNameAndValue from))
              (default (nv_value (readNameAndValue from))
                 (u !! nv_value (readNameAndValue from))) i main)
    as (result' & i' & ->).
  destruct result'; [apply IH|intros [= <-]; eauto|apply IH].
Qed.

Lemma runColorScheme_private content i w :
  exists b i', runColorScheme content (Some i) w = Done ((b, Some i'), w).
Proof.
  destruct w as [pal inst sto nots]. unfold runColorScheme, loadColorScheme.
  run. destruct (size content >? kThemeSchemeSizeLimit); [eauto|].
  unfold loadColorSchemeData.
  destruct (schemeLoop_spec (S (String.length (stripComments content)))
              (stripComments content) ∅ (Some i) pal)
    as (b & o & m & Hrun & _); [lia|apply goodMap_empty|].
  rewrite Hrun.
  destruct (schemeLoop_private _ _ _ _ _ _ Hrun) as (b' & i' & [= -> -> ->]).
  eauto.
Qed.

Lemma loadTheme_private content i w :
  exists ok cache i', loadTheme content (Some i) w
                      = Done ((ok, cache, Some i'), w).
Proof.
  assert (Hcontent : forall cache, exists ok cache' i',
    loadThemeContent content cache (Some i) w
    = Done ((ok, cache', Some i'), w)).
  { intros cache. unfold loadThemeContent.
    destruct (zlib.error _ =? zlib.UNZ_OK).
    - destruct (zlib.readFileContent _ _ _) as [scheme file].
      destruct (negb _); [destruct w; eauto|].
      unfold mbind at 1, M_bind at 1.
      destruct (runColorScheme_private scheme i w) as (b & i1 & ->).
      destruct b; cbn [negb]; [|destruct w; eauto].
      destruct (loadBackground file false) as [[[ok file'] bytes] flag].
      destruct ok; cbn [negb]; [|destruct w; eauto].
      destruct (isEmpty bytes); cbn [negb]; [destruct w; eauto|].
      destruct (readImage bytes); [|destruct w; eauto].
      destruct (saveBMP _); destruct w; eauto.
    - unfold mbind at 1, M_bind at 1.
      destruct (runColorScheme_private content i w) as (b & i1 & ->).
      destruct w; eauto. }
  unfold loadTheme. unfold mbind at 1, M_bind at 1.
  destruct (Hcontent Cached0) as (ok & cache & i' & ->).
  destruct ok; destruct w; cbn; eauto.
Qed.

Lemma LoadFromFile_private path i w :
  exists ok i' bytes, LoadFromFile path i w = Done ((ok, i', bytes), w).
Proof.
  unfold LoadFromFile.
  destruct (size (readThemeContent path) <? 4); [destruct w; eauto|].
  unfold mbind at 1, M_bind at 1.
  destruct (loadTheme_private (readThemeContent path) i w)
    as (ok & cache & i' & ->). destruct w; eauto.
Qed.

(** C8. [LoadFromFile] parses into the private [Instance] and leaves the
    live palette, the background and everything else as they are; so
    [Apply(filepath)] that fails — the file is missing, too large, cannot
    be opened, has fewer than 4 bytes, or its content does not parse —
    returns false in an unchanged world. Only after a successful parse is
    [Apply(preview)] run. *)
Theorem failed_apply_keeps_state filepath w :
  (exists ok loaded bytes,
     LoadFromFile filepath Instance0 w = Done ((ok, loaded, bytes), w)
     /\ ApplyPath filepath w
        = if ok : bool
          then Apply {| preview_path := filepath; preview_instance := loaded;
                        preview_content := bytes |} w
          else Done (false, w))
  /\ (file_exists (openFile filepath) = false
      \/ (file_size (openFile filepath) > kThemeFileSizeLimit)
      \/ file_opens (openFile filepath) = false
      \/ (size (file_readAll (openFile filepath)) < 4) ->
      ApplyPath filepath w = Done (false, w))
  /\ (forall cache o w',
        loadTheme (readThemeContent filepath) (Some Instance0) w
        = Done ((false, cache, o), w') ->
        ApplyPath filepath w = Done (false, w))
  /\ (forall w', ApplyPath filepath w = Done (false, w') -> w' = w).
Proof.
  destruct (LoadFromFile_private filepath Instance0 w)
    as (ok & loaded & bytes & Hload).
  assert (Happly : ApplyPath filepath w
    = if ok : bool
      then Apply {| preview_path := filepath; preview_instance := loaded;
                    preview_content := bytes |} w
      else Done (false, w)).
  { unfold ApplyPath. unfold mbind at 1, M_bind at 1. rewrite Hload.
    destruct ok; reflexivity. }
  assert (Htrue : forall preview r w',
    Apply preview w = Done (r, w') -> r = true).
  { intros preview r w'. unfold Apply.
    destruct w as [pal inst sto nots]. run.
    repeat (match goal with
            | |- context [match ?x with _ => _ end] =>
                match x with
                | context [match _ with _ => _ end] => fail 1
                | _ => destruct x
                end
            end; try discriminate).
    all: try (intros [= <- _]; reflexivity). }
  split; [eauto|]. split; [|split].
  - intros Hbad. unfold ApplyPath, LoadFromFile.
    assert (Hshort : (size (readThemeContent filepath) <? 4) = true).
    { apply Z.ltb_lt. unfold readThemeContent.
      destruct (file_exists (openFile filepath)) eqn:Ee; cbn [negb];
        [|reflexivity].
      destruct (file_size (openFile filepath) >? kThemeFileSizeLimit) eqn:Es;
        [reflexivity|].
      destruct (file_opens (openFile filepath)) eqn:Eo; cbn [negb];
        [|reflexivity].
      destruct Hbad as [E|[E|[E|E]]];
        [discriminate|apply Z.gt_lt in E; apply Z.gtb_lt in E; congruence
        |discriminate|exact E]. }
    rewrite Hshort. destruct w. reflexivity.
  - intros cache o w' Hfail.
    destruct (loadTheme_private (readThemeContent filepath) Instance0 w)
      as (ok' & cache' & i' & Hl).
    rewrite Hl in Hfail. injection Hfail as -> _ _ _.
    unfold ApplyPath, LoadFromFile.
    destruct (size (readThemeContent filepath) <? 4);
      [destruct w; reflexivity|].
    unfold mbind, M_bind. rewrite Hl. destruct w. reflexivity.
  - intros w' Hfalse. rewrite Happly in Hfalse. destruct ok.
    + apply Htrue in Hfalse. discriminate.
    + now inversion Hfalse.
Qed.

(** C10. With no singleton, [Revert] dereferences the null pointer,
    while [KeepApplied] returns at once and changes nothing. [Background],
    and with it every entry point that calls [createIfNull], leaves a
    singleton behind. *)
Theorem revert_without_instance w :
  instance w = None ->
  Revert w = Crash NullDereference
  /\ KeepApplied w = Done ((), w)
  /\ exists w', Background w = Done ((), w') /\ instance w' = Some Data0.
Proof.
  destruct w as [pal inst sto nots]. cbn [instance]. intros ->.
  split; [reflexivity|]. split; [reflexivity|]. eexists. split; reflexivity.
Qed.

End PrivateParse.

Lemma failed_apply_keeps_state_witness :
  ApplyPath "nowhere.tdesktop-theme" Sample.world = Done (false, Sample.world)
  /\ ApplyPath "broken.tdesktop-theme" Sample.world
     = Done (false, Sample.world).
Proof.
  split.
  - apply (failed_apply_keeps_state "nowhere.tdesktop-theme" Sample.world).
    left. reflexivity.
  - destruct (failed_apply_keeps_state "broken.tdesktop-theme" Sample.world)
      as (_ & _ & Hparse & _).
    eapply Hparse. vm_compute. reflexivity.
Defined.

Lemma revert_without_instance_witness :
  Revert Sample.world = Crash NullDereference
  /\ KeepApplied Sample.world = Done ((), Sample.world).
Proof.
  destruct (revert_without_instance Sample.world eq_refl) as (Hr & Hk & _).
  split; [exact Hr|exact Hk].
Defined.

(** ** The members through a chain of previews *)

Section PreviewFields.

Context {P L : Type} `{Registry P} `{Collaborators P L}.

(** The members after two [setTestingTheme] and a [revert], from a
    background that is not a testing one: the image saved for the revert
    is valid, a testing background keeps the saved members, and the revert
    gives back the identifier, and the tile flag of a background that is
    not the theme's own. *)
Lemma chain_fields (themeA themeB : @Preview P) bg0 px1 pt1 px2 pt2 px0 :
  _pixmap bg0 = Some px0 -> valid px0 -> valid px1 ->
  validImage (_themeImage bg0) ->
  (_id bg0 = kThemeBackground -> _themeImage bg0 <> None) ->
  isTesting (_id bg0) = false ->
  validImage (background (preview_instance themeA)) ->
  validImage (background (preview_instance themeB)) ->
  let bg1 := previewed (background (preview_instance themeA))
               (tiled (preview_instance themeA)) bg0 (Some px1) (Some pt1) in
  let bg2 := previewed (background (preview_instance themeB))
               (tiled (preview_instance themeB)) bg1 (Some px2) (Some pt2) in
  (isTesting (_id bg2) = true -> validImage (_imageForRevert bg2))
  /\ (isTesting (_id bg1) = true ->
      _idForRevert bg2 = _idForRevert bg1
      /\ _imageForRevert bg2 = _imageForRevert bg1
      /\ _tileForRevert bg2 = _tileForRevert bg1)
  /\ (forall pixmap pixmapForTiled,
        _id (reverted bg2 pixmap pixmapForTiled) = _id bg0
        /\ (_id bg0 <> kThemeBackground ->
            _tile (reverted bg2 pixmap pixmapForTiled) = _tile bg0)).
Proof.
  intros Hpix Hpx Hpx1 Htheme Hthemed Hstart HA HB bg1 bg2. subst bg2 bg1.
  destruct bg0 as [id0 pm0 pt0 tile0 themeImage themeTile idR imageR tileR].
  cbn [_pixmap _themeImage _id _tile] in *. subst pm0.
  destruct (background (preview_instance themeA)) as [dA|],
           (background (preview_instance themeB)) as [dB|],
           themeImage as [t|], id0;
    try discriminate; try (exfalso; now apply Hthemed);
    cbv in *; intuition (try discriminate; try congruence).
Qed.

Lemma settledId_facts id image themeImage :
  let settled := settledId id image themeImage in
  (settled = kThemeBackground ->
   id = kThemeBackground /\ isNull themeImage = false)
  /\ (settled = kTestingThemeBackground ->
      id = kTestingThemeBackground /\ isNull image = false)
  /\ (isNull image = true ->
      settled = kThemeBackground \/ settled = kInitialBackground
      \/ settled = kDefaultBackground
      \/ settled = kTestingDefaultBackground)
  /\ (isTesting settled = isTesting id).
Proof.
  destruct id, image as [d|], themeImage as [t|]; cbv;
    intuition (try discriminate; try congruence).
Qed.


End PreviewFields.

(** ** The background state machine *)

Section StateMachine.

Context {P L : Type} `{Registry P} `{Collaborators P L}.

(** What Qt and the resources guarantee: the conversion to a format
    yields that format, conversions and scaling keep an image valid, the
    built-in art loads. *)
Hypothesis converted_format : forall fmt d,
  format (convertToFormat fmt d) = fmt.
Hypothesis converted_valid : forall fmt d,
  valid d -> valid (convertToFormat fmt d).
Hypothesis scaled_valid : forall z d, valid d -> valid (scaledToWidth z d).
Hypothesis art_bg_valid : valid art_bg.
Hypothesis art_bg_initial_valid : valid art_bg_initial.

Lemma setPreparedImage_spec d p bg a l n :
  valid d ->
  exists p' px pt,
    setPreparedImage (Some d) (mkWorld p bg a l n)
    = Done ((), mkWorld p' (with_pixmaps (Some px) (Some pt) bg) a l n)
    /\ valid px /\ recolored p p'
    /\ (_id bg = kThemeBackground \/ _id bg = kTestingThemeBackground ->
        p' = p).
Proof.
  intros Hd.
  pose proof (converted_valid Format_ARGB32_Premultiplied d Hd) as [Hw Hh].
  unfold setPreparedImage, initColorsFromBackground, mkWorld.
  cbn [fmap option_fmap option_map]. run.
  rewrite converted_format.
  rewrite (bool_decide_eq_true_2
             (Format_ARGB32_Premultiplied = Format_ARGB32_Premultiplied))
    by reflexivity.
  destruct (Z.gtb_spec
              (width (convertToFormat Format_ARGB32_Premultiplied d)) 0);
    [|lia].
  destruct (Z.gtb_spec
              (height (convertToFormat Format_ARGB32_Premultiplied d)) 0);
    [|lia].
  cbn [andb].
  destruct (bool_decide (_id bg = kThemeBackground)) eqn:Et;
    destruct (bool_decide (_id bg = kTestingThemeBackground)) eqn:Ett;
    cbn [negb andb]; run.
  1-3: destruct (isSmallForTiled _); run;
       (do 3 eexists; split; [reflexivity|]);
       (split; [split; assumption|]); (split; [now left|]); reflexivity.
  apply bool_decide_eq_false in Et, Ett.
  cases; (do 3 eexists; split; [reflexivity|]);
    (split; [split; assumption|]);
    (split; [first [now left|right; eauto]|]);
    intros [?|?]; contradiction.
Qed.

Lemma prepareBackgroundImage_valid d :
  valid d ->
  exists d', prepareBackgroundImage (Some d) = Some d' /\ valid d'.
Proof.
  intros Hd. unfold prepareBackgroundImage.
  destruct (format d); eauto.
Qed.

Ltac decide_ids :=
  unfold isTesting, with_id, with_tile, with_pixmaps, with_theme,
    with_revert, toImage, pixmapFromImageInPlace;
  cbn [_id _pixmap _pixmapForTiled _tile _themeImage _themeTile
       _idForRevert _imageForRevert _tileForRevert];
  repeat match goal with
  | |- context [bool_decide (?a = ?b)] =>
      let v := eval vm_compute in (bool_decide (a = b)) in
      match v with
      | true => change (bool_decide (a = b)) with true
      | false => change (bool_decide (a = b)) with false
      end
  end;
  cbn [andb orb negb isNull isTesting].

Ltac prepared :=
  try match goal with
  | |- context [prepareBackgroundImage (Some ?d)] =>
      let E := fresh "E" in
      destruct (prepareBackgroundImage_valid d) as (? & E & ?);
      [auto|rewrite E; clear E]
  end;
  match goal with
  | |- context [setPreparedImage (Some ?d)
        {| main_palette := ?p;
           instance := Some {| data_background := ?b; applying := ?a |};
           storage := ?l; notified := ?n |}] =>
      let E := fresh "E" in
      let Hvalid := fresh "Hvalid" in
      let Hrecolored := fresh "Hrecolored" in
      let Hsame := fresh "Hsame" in
      destruct (setPreparedImage_spec d p b a l n)
        as (? & ? & ? & E & Hvalid & Hrecolored & Hsame);
      [auto|unfold mkWorld in E; rewrite E; clear E]
  end.

Lemma setImage_spec id image p bg a l n :
  validImage image -> validImage (_themeImage bg) ->
  let settled := settledId id image (_themeImage bg) in
  exists p' px pt l' n',
    setImage id image (mkWorld p bg a l n)
    = Done ((), mkWorld p'
        {| _id := settled;
           _pixmap := Some px; _pixmapForTiled := Some pt;
           _tile := if bool_decide (settled = kThemeBackground)
                    then _themeTile bg else _tile bg;
           _themeImage := _themeImage bg; _themeTile := _themeTile bg;
           _idForRevert := _idForRevert bg;
           _imageForRevert := _imageForRevert bg;
           _tileForRevert := _tileForRevert bg |} a l' n')
    /\ valid px /\ recolored p p'
    /\ (settled = kThemeBackground -> p' = p).
Proof.
  intros Himage Htheme. cbv zeta.
  unfold setImage, settledId, mkWorld.
  destruct bg as [id0 px0 pt0 tile0 themeImage themeTile idR imageR tileR].
  cbn [_themeImage _themeTile _tile _idForRevert _imageForRevert
       _tileForRevert] in *.
  destruct id; destruct image as [d|]; destruct themeImage as [t|];
    cbn [validImage] in *; decide_ids; run; decide_ids; run;
    try match goal with
        | |- context [cRetina] => destruct cRetina, cScaleIsOne; cbn [negb]
        end;
    prepared; run; decide_ids; run;
    (do 5 eexists; split; [reflexivity|]);
    (split; [assumption|]); (split; [assumption|]);
    first [discriminate|intros _; apply Hsame; auto].
Qed.

Lemma setTile_spec tile p bg a l n :
  isNull (_pixmap bg) = false ->
  exists l' n',
    setTile tile (mkWorld p bg a l n)
    = Done ((), mkWorld p (with_tile tile bg) a l' n').
Proof.
  destruct bg as [id0 px0 pt0 tile0 themeImage themeTile idR imageR tileR].
  cbn [_pixmap]. intros Hpix.
  unfold setTile, ensureStarted, mkWorld. run. cbn [_pixmap _tile _id].
  rewrite Hpix. run. cbn [_tile _id].
  destruct (Bool.eqb_spec tile0 tile) as [->|_]; cbn [negb]; run.
  - do 2 eexists. reflexivity.
  - unfold with_tile. cbn [_id _tile].
    destruct (isTesting id0); cbn [negb]; run; do 2 eexists; reflexivity.
Qed.

Lemma saveForRevert_spec p bg a l n :
  isNull (_pixmap bg) = false ->
  saveForRevert (mkWorld p bg a l n)
  = Done ((), mkWorld p
      (if isTesting (_id bg) then bg
       else with_revert (_id bg) (toImage (_pixmap bg)) (_tile bg) bg)
      a l n).
Proof.
  intros Hpix. unfold saveForRevert, ensureStarted, mkWorld. run.
  rewrite Hpix. run. destruct (isTesting (_id bg)); reflexivity.
Qed.

Ltac saved :=
  match goal with
  | |- context [saveForRevert
        {| main_palette := ?p;
           instance := Some {| data_background := ?b; applying := ?a |};
           storage := ?l; notified := ?n |}] =>
      let E := fresh "E" in
      pose proof (saveForRevert_spec p b a l n eq_refl) as E;
      unfold mkWorld in E; rewrite E; clear E
  end.

Ltac imaged :=
  match goal with
  | |- context [setImage ?id ?image
        {| main_palette := ?p;
           instance := Some {| data_background := ?b; applying := ?a |};
           storage := ?l; notified := ?n |}] =>
      let E := fresh "E" in
      let Hvalid := fresh "Hvalid" in
      let Hrecolored := fresh "Hrecolored" in
      let Hsame := fresh "Hsame" in
      destruct (setImage_spec id image p b a l n)
        as (? & ? & ? & ? & ? & E & Hvalid & Hrecolored & Hsame);
      [cbn [validImage _themeImage]; auto
      |cbn [validImage _themeImage]; auto
      |cbv zeta in E; unfold mkWorld in E; rewrite E; clear E]
  end.

Ltac tiled_ :=
  match goal with
  | |- context [setTile ?tile
        {| main_palette := ?p;
           instance := Some {| data_background := ?b; applying := ?a |};
           storage := ?l; notified := ?n |}] =>
      let E := fresh "E" in
      destruct (setTile_spec tile p b a l n eq_refl) as (? & ? & E);
      unfold mkWorld in E; rewrite E; clear E
  end.

Ltac settle :=
  unfold settledId, previewed, reverted; decide_ids; run.

Lemma setTestingTheme_spec theme p bg a l n px0 :
  _pixmap bg = Some px0 -> valid px0 ->
  validImage (background theme) -> validImage (_themeImage bg) ->
  exists p' px pt l' n',
    setTestingTheme theme (mkWorld p bg a l n)
    = Done ((), mkWorld p'
        (previewed (background theme) (tiled theme) bg (Some px) (Some pt))
        a l' n')
    /\ valid px /\ recolored (palette_apply (palette theme) p) p'.
Proof.
  destruct bg as [id0 pm0 pt0 tile0 themeImage themeTile idR imageR tileR].
  destruct theme as [themePalette themeBackground themeTiled themeCached].
  cbn [_pixmap _themeImage background tiled palette].
  intros -> Hpx Hbackground Htheme.
  unfold setTestingTheme, mkWorld. run.
  cbn [background tiled palette].
  destruct themeBackground as [d|]; destruct id0; settle;
    try saved; settle; imaged; settle; try tiled_; settle;
    (do 5 eexists; split; [reflexivity|]); (split; assumption).
Qed.

Lemma Apply_spec preview p bg a l n px0 :
  _pixmap bg = Some px0 -> valid px0 ->
  validImage (background (preview_instance preview)) ->
  validImage (_themeImage bg) ->
  exists p' px pt l' n',
    Apply preview (mkWorld p bg a l n)
    = Done (true, mkWorld p'
        (previewed (background (preview_instance preview))
           (tiled (preview_instance preview)) bg (Some px) (Some pt))
        (pending preview p a) l' n')
    /\ valid px
    /\ recolored (palette_apply (palette (preview_instance preview)) p) p'.
Proof.
  intros Hpix Hpx Hbackground Htheme.
  unfold Apply, pending, mkWorld. run.
  assert (Hstep : forall a',
    exists p' px pt l' n',
      setTestingTheme (preview_instance preview)
        {| main_palette := p;
           instance := Some {| data_background := bg; applying := a' |};
           storage := l; notified := n |}
      = Done ((), mkWorld p'
          (previewed (background (preview_instance preview))
             (tiled (preview_instance preview)) bg (Some px) (Some pt))
          a' l' n')
      /\ valid px
      /\ recolored (palette_apply (palette (preview_instance preview)) p) p').
  { intros a'. exact (setTestingTheme_spec _ p bg a' l n px0 Hpix Hpx
                        Hbackground Htheme). }
  destruct (isEmpty (paletteForRevert a)); run;
    match goal with
    | |- context [setTestingTheme _
          {| main_palette := _;
             instance := Some {| data_background := _; applying := ?a' |};
             storage := _; notified := _ |}] =>
        destruct (Hstep a') as (p' & px & pt & l' & n' & E & Hv & Hr)
    end;
    rewrite E; unfold mkWorld; run; eauto 10.
Qed.

Lemma Revert_spec p bg a l n px0 :
  _pixmap bg = Some px0 -> valid px0 ->
  (isTesting (_id bg) = true -> validImage (_imageForRevert bg)) ->
  validImage (_themeImage bg) ->
  exists p' px pt l' n',
    Revert (mkWorld p bg a l n)
    = Done ((), mkWorld p' (reverted bg (Some px) (Some pt)) Applying0 l' n')
    /\ valid px /\ recolored (restored p a) p'
    /\ (_id (reverted bg None None) = kThemeBackground ->
        p' = restored p a).
Proof.
  destruct bg as [id0 pm0 pt0 tile0 themeImage themeTile idR imageR tileR].
  cbn [_pixmap _themeImage _imageForRevert _id].
  intros -> Hpx Himage Htheme.
  unfold Revert, revert, restored, reverted, mkWorld. run.
  cbn [_id _pixmap _tileForRevert _idForRevert _imageForRevert].
  destruct (isEmpty (paletteForRevert a)); cbn [negb]; run;
    cbn [_id _pixmap _tileForRevert _idForRevert _imageForRevert];
    (destruct (isTesting id0) eqn:Et; [specialize (Himage eq_refl)|]);
    run; try tiled_; settle; imaged; settle;
    (do 5 eexists; split; [reflexivity|]);
    (split; [assumption|]); (split; [assumption|]); exact Hsame.
Qed.

Lemma previewed_pixmap background tiled bg pixmap pixmapForTiled :
  _pixmap (previewed background tiled bg pixmap pixmapForTiled) = pixmap
  /\ _themeImage (previewed background tiled bg pixmap pixmapForTiled)
     = _themeImage bg.
Proof. unfold previewed. now destruct (_ || _). Qed.

(** What a chain of two previews and a revert does restore.  Start from
    a started background that is not a testing one (a pixmap and valid
    images, the theme's own only with a theme image), with nothing
    pending and a palette that [save] and [load] round-trip.  Then
    [Apply(themeA)], [Apply(themeB)] and [Revert()] all return, the
    [paletteForRevert] snapshot is taken by the first [Apply] only,
    [saveForRevert] changes nothing while the background is a testing one,
    and [Revert] restores the background id; the tile flag is the first
    one when the restored background is not the theme's own, and the
    palette is the snapshot loaded again, on which [setPreparedImage] may
    have recomputed the service colors (never for the theme's own
    background, where it is exactly the first palette). *)
Theorem preview_chain_reverts (themeA themeB : @Preview P)
    p0 bg0 a0 l0 n0 px0 :
  isEmpty (palette_save p0) = false ->
  (forall q, palette_load (palette_save p0) q = (true, p0)) ->
  _pixmap bg0 = Some px0 -> valid px0 -> validImage (_themeImage bg0) ->
  (_id bg0 = kThemeBackground -> _themeImage bg0 <> None) ->
  isTesting (_id bg0) = false -> paletteForRevert a0 = "" ->
  validImage (background (preview_instance themeA)) ->
  validImage (background (preview_instance themeB)) ->
  chainReverts themeA themeB p0 bg0 a0 l0 n0.
Proof.
  intros saved_nonempty load_saved Hpix Hpx Htheme Hthemed Hstart Hpending
    HA HB.
  unfold chainReverts.
  destruct (Apply_spec themeA p0 bg0 a0 l0 n0 px0 Hpix Hpx HA Htheme)
    as (p1 & px1 & pt1 & l1 & n1 & E1 & Hpx1 & _).
  set (bg1 := previewed (background (preview_instance themeA))
                (tiled (preview_instance themeA)) bg0 (Some px1) (Some pt1))
    in *.
  destruct (previewed_pixmap (background (preview_instance themeA))
              (tiled (preview_instance themeA)) bg0 (Some px1) (Some pt1))
    as [Hpix1 Htheme1]. fold bg1 in Hpix1, Htheme1.
  destruct (Apply_spec themeB p1 bg1 (pending themeA p0 a0) l1 n1 px1
              Hpix1 Hpx1 HB) as (p2 & px2 & pt2 & l2 & n2 & E2 & Hpx2 & _);
    [now rewrite Htheme1|].
  set (bg2 := previewed (background (preview_instance themeB))
                (tiled (preview_instance themeB)) bg1 (Some px2) (Some pt2))
    in *.
  destruct (previewed_pixmap (background (preview_instance themeB))
              (tiled (preview_instance themeB)) bg1 (Some px2) (Some pt2))
    as [Hpix2 Htheme2]. fold bg2 in Hpix2, Htheme2.
  set (a2 := pending themeB p1 (pending themeA p0 a0)) in *.
  assert (Hsnapshot1 :
    paletteForRevert (pending themeA p0 a0) = palette_save p0).
  { unfold pending. cbn [paletteForRevert]. now rewrite Hpending. }
  assert (Hsnapshot2 : paletteForRevert a2 = palette_save p0).
  { unfold a2, pending at 1. cbn [paletteForRevert].
    now rewrite Hsnapshot1, saved_nonempty. }
  assert (Hrestored : restored p2 a2 = p0).
  { unfold restored. now rewrite Hsnapshot2, saved_nonempty, load_saved. }
  pose proof (chain_fields themeA themeB bg0 px1 pt1 px2 pt2 px0
                Hpix Hpx Hpx1 Htheme Hthemed Hstart HA HB) as Hfacts.
  cbv zeta in Hfacts. fold bg1 in Hfacts. fold bg2 in Hfacts.
  destruct Hfacts as (HimageR & Hkept & Hfinal).
  destruct (Revert_spec p2 bg2 a2 l2 n2 px2 Hpix2 Hpx2 HimageR)
    as (p3 & px3 & pt3 & l3 & n3 & E3 & _ & Hrecolored & Hexact);
    [rewrite Htheme2, Htheme1; exact Htheme|].
  rewrite Hrestored in Hrecolored, Hexact.
  destruct (Hfinal (Some px3) (Some pt3)) as [Hid Htile].
  destruct (Hfinal None None) as [Hid' _].
  do 3 eexists.
  exists {| data_background := bg1; applying := pending themeA p0 a0 |},
         {| data_background := bg2; applying := a2 |},
         {| data_background := reverted bg2 (Some px3) (Some pt3);
            applying := Applying0 |}.
  split; [exact E1|]. split; [exact E2|]. split; [exact E3|].
  cbn [mkWorld instance main_palette data_background applying].
  repeat split; auto.
  - now apply Hkept.
  - now apply Hkept.
  - now apply Hkept.
  - intros Hthemeid. apply Hexact. now rewrite Hid'.
Qed.

(** ** More of the state machine *)

(** [prepareBackgroundImage] keeps a null image null, leaves an image in
    one of the three 32-bit formats as it is and converts any other to
    RGB32; preparing twice is preparing once. *)
Theorem prepareBackgroundImage_idempotent image :
  prepareBackgroundImage (prepareBackgroundImage image)
  = prepareBackgroundImage image
  /\ isNull (prepareBackgroundImage image) = isNull image
  /\ (forall d, prepareBackgroundImage image = Some d ->
        format d <> Format_Other)
  /\ (forall d, image = Some d -> format d <> Format_Other ->
        prepareBackgroundImage image = image).
Proof.
  destruct image as [d|]; [|repeat split; intros; discriminate].
  unfold prepareBackgroundImage.
  destruct (format d) eqn:E; rewrite ?converted_format, ?E;
    repeat split; try reflexivity; intros d' [= <-];
    rewrite ?converted_format; congruence.
Qed.

(** [setImage] returns for valid images: its closing assertion holds,
    both pixmaps are there afterwards. The background ends as the theme's
    own only when the theme has an image, and then with the theme's tile
    flag; otherwise the tile flag is kept. A null image gives one of the
    built-in backgrounds or the theme's. The pending record, the theme
    data and the members saved for the revert are not touched. *)
Theorem setImage_settles id image p bg a l n :
  validImage image -> validImage (_themeImage bg) ->
  exists w' bg',
    setImage id image (mkWorld p bg a l n) = Done ((), w')
    /\ instance w' = Some {| data_background := bg'; applying := a |}
    /\ isNull (_pixmap bg') = false
    /\ isNull (_pixmapForTiled bg') = false
    /\ (_id bg' = kThemeBackground ->
        isNull (_themeImage bg') = false /\ _tile bg' = _themeTile bg')
    /\ (_id bg' <> kThemeBackground -> _tile bg' = _tile bg)
    /\ (isNull image = true ->
        _id bg' = kThemeBackground \/ _id bg' = kInitialBackground
        \/ _id bg' = kDefaultBackground
        \/ _id bg' = kTestingDefaultBackground)
    /\ _themeImage bg' = _themeImage bg /\ _themeTile bg' = _themeTile bg
    /\ _idForRevert bg' = _idForRevert bg
    /\ _imageForRevert bg' = _imageForRevert bg
    /\ _tileForRevert bg' = _tileForRevert bg.
Proof.
  intros Himage Htheme.
  destruct (setImage_spec id image p bg a l n Himage Htheme)
    as (p' & px & pt & l' & n' & E & _).
  cbv zeta in E.
  destruct (settledId_facts id image (_themeImage bg))
    as (Hthemed & _ & Hnull & _).
  cbv zeta in Hthemed, Hnull.
  do 2 eexists. split; [exact E|].
  split; [reflexivity|].
  cbn [_pixmap _pixmapForTiled _id _tile _themeImage
       _themeTile _idForRevert _imageForRevert _tileForRevert isNull].
  split; [reflexivity|]. split; [reflexivity|].
  split.
  { intros Hid. rewrite Hid.
    rewrite (bool_decide_eq_true_2 (kThemeBackground = kThemeBackground))
      by reflexivity.
    split; [now apply Hthemed|reflexivity]. }
  split.
  { intros Hid. now rewrite bool_decide_eq_false_2. }
  split; [exact Hnull|]. repeat split.
Qed.

Lemma setTile_exact tile p bg a l n :
  isNull (_pixmap bg) = false ->
  setTile tile (mkWorld p bg a l n)
  = Done ((),
      if eqb (_tile bg) tile then mkWorld p bg a l n
      else mkWorld p (with_tile tile bg) a
             (if isTesting (_id bg) then l
              else Local_writeUserSettings tile l)
             (({| update_type := Changed; update_tiled := tile |}, false)
                :: n)).
Proof.
  destruct bg as [id0 px0 pt0 tile0 themeImage themeTile idR imageR tileR].
  cbn [_pixmap]. intros Hpix.
  unfold setTile, ensureStarted, mkWorld. run. cbn [_pixmap _tile _id].
  rewrite Hpix. run. cbn [_tile _id].
  destruct (eqb tile0 tile); cbn [negb]; run; [reflexivity|].
  unfold with_tile. cbn [_id _tile].
  destruct (isTesting id0); cbn [negb]; run; reflexivity.
Qed.

(** [setTile] with the tile flag the background has changes nothing and
    tells nobody. With another flag it sets it and sends one [Changed]
    notification; the user's settings are written, except for a testing
    background, whose tile flag is never stored. *)
Theorem setTile_effects tile p bg a l n :
  isNull (_pixmap bg) = false ->
  setTile tile (mkWorld p bg a l n)
  = Done ((),
      if eqb (_tile bg) tile then mkWorld p bg a l n
      else mkWorld p (with_tile tile bg) a
             (if isTesting (_id bg) then l
              else Local_writeUserSettings tile l)
             (({| update_type := Changed; update_tiled := tile |}, false)
                :: n)).
Proof. apply setTile_exact. Qed.

Lemma setPreparedImage_theme d p bg a l n :
  valid d ->
  _id bg = kThemeBackground \/ _id bg = kTestingThemeBackground ->
  let px := convertToFormat Format_ARGB32_Premultiplied d in
  setPreparedImage (Some d) (mkWorld p bg a l n)
  = Done ((), mkWorld p
      (with_pixmaps (Some px)
         (Some (if isSmallForTiled px then imageForTiled px else px)) bg)
      a l n).
Proof.
  intros Hd Hid. cbv zeta.
  pose proof (converted_valid Format_ARGB32_Premultiplied d Hd) as [Hw Hh].
  unfold setPreparedImage, mkWorld.
  cbn [fmap option_fmap option_map]. run.
  assert (Hskip : negb (bool_decide (_id bg = kThemeBackground))
                  && negb (bool_decide (_id bg = kTestingThemeBackground))
                  = false).
  { destruct Hid as [->| ->]; reflexivity. }
  rewrite Hskip. run.
  destruct (Z.gtb_spec
              (width (convertToFormat Format_ARGB32_Premultiplied d)) 0);
    [|lia].
  destruct (Z.gtb_spec
              (height (convertToFormat Format_ARGB32_Premultiplied d)) 0);
    [|lia].
  cbn [andb]. run.
  destruct (isSmallForTiled _); reflexivity.
Qed.

(** A preview of a theme with a background image, on a started
    background: [Apply] returns; it writes nothing to the storage; the
    palette is exactly the theme's palette applied, the service colours
    are not recomputed; the background shown is the testing one, with the
    theme's image converted to premultiplied ARGB32 and the theme's tile
    flag; the theme data are kept. *)
Theorem preview_with_background preview p bg a l n px0 d :
  background (preview_instance preview) = Some d -> valid d ->
  _pixmap bg = Some px0 ->
  exists n' bg',
    Apply preview (mkWorld p bg a l n)
    = Done (true,
        mkWorld (palette_apply (palette (preview_instance preview)) p) bg'
          (pending preview p a) l n')
    /\ _id bg' = kTestingThemeBackground
    /\ _pixmap bg' = Some (convertToFormat Format_ARGB32_Premultiplied d)
    /\ _tile bg' = tiled (preview_instance preview)
    /\ _themeImage bg' = _themeImage bg /\ _themeTile bg' = _themeTile bg
    /\ savedTile bg' = savedTile bg.
Proof.
  destruct bg as [id0 pm0 pt0 tile0 themeImage themeTile idR imageR tileR].
  destruct preview as [ppath [ppalette pbackground ptiled pcached] pcontent].
  cbn [preview_instance background tiled palette _pixmap _themeImage
       _themeTile].
  intros -> Hd ->.
  assert (Hstep : forall a',
    exists n' bg',
      setTestingTheme
        {| palette := ppalette; background := Some d; tiled := ptiled;
           cached := pcached |}
        {| main_palette := p;
           instance := Some {| data_background :=
                                 {| _id := id0; _pixmap := Some px0;
                                    _pixmapForTiled := pt0; _tile := tile0;
                                    _themeImage := themeImage;
                                    _themeTile := themeTile;
                                    _idForRevert := idR;
                                    _imageForRevert := imageR;
                                    _tileForRevert := tileR |};
                               applying := a' |};
           storage := l; notified := n |}
      = Done ((), mkWorld (palette_apply ppalette p) bg' a' l n')
      /\ _id bg' = kTestingThemeBackground
      /\ _pixmap bg' = Some (convertToFormat Format_ARGB32_Premultiplied d)
      /\ _tile bg' = ptiled
      /\ _themeImage bg' = themeImage /\ _themeTile bg' = themeTile
      /\ savedTile bg'
         = savedTile
             {| _id := id0; _pixmap := Some px0; _pixmapForTiled := pt0;
                _tile := tile0; _themeImage := themeImage;
                _themeTile := themeTile; _idForRevert := idR;
                _imageForRevert := imageR; _tileForRevert := tileR |}).
  { intros a'. unfold setTestingTheme, mkWorld. run.
    cbn [background tiled palette isNull negb orb].
    destruct id0; saved; unfold setImage; run; decide_ids; run;
      match goal with
      | |- context [setPreparedImage (Some d)
            {| main_palette := ?p1;
               instance := Some {| data_background := ?b; applying := ?a1 |};
               storage := ?l1; notified := ?n1 |}] =>
          pose proof (setPreparedImage_theme d p1 b a1 l1 n1 Hd
                        (or_intror eq_refl)) as E;
          cbv zeta in E; unfold mkWorld in E; rewrite E; clear E
      end;
      run; decide_ids; run;
      match goal with
      | |- context [setTile ?t
            {| main_palette := ?p1;
               instance := Some {| data_background := ?b; applying := ?a1 |};
               storage := ?l1; notified := ?n1 |}] =>
          pose proof (setTile_exact t p1 b a1 l1 n1 eq_refl) as E;
          unfold mkWorld in E; rewrite E; clear E
      end;
      cbn [_tile _id with_tile]; decide_ids;
      destruct (eqb _ ptiled) eqn:Hsame; run;
      (do 2 eexists; split; [reflexivity|]);
      cbn [_id _pixmap _tile _themeImage _themeTile with_tile];
      unfold savedTile; cbn [_id _tileForRevert _tile isTesting];
      decide_ids;
      repeat split; try reflexivity;
      try (apply eqb_prop in Hsame; cbn [_tile] in Hsame; exact Hsame). }
  unfold Apply, pending, mkWorld. run.
  cbn [preview_path preview_content preview_instance cached].
  destruct (isEmpty (paletteForRevert a)); run;
    match goal with
    | |- context [setTestingTheme _
          {| main_palette := _;
             instance := Some {| data_background := _; applying := ?a' |};
             storage := _; notified := _ |}] =>
        destruct (Hstep a') as (n' & bg' & E & Hfacts)
    end;
    rewrite E; unfold mkWorld; run; eauto.
Qed.


(** [reset] during a preview leaves what is shown as it is and only
    replaces the members saved for the revert; the [Revert] that follows
    then goes to the theme's own background with the theme's tile flag,
    or, when the theme has no image, to the default background without
    tiling, whatever was shown before the preview. *)
Theorem reset_in_preview p bg a l n px0 :
  isTesting (_id bg) = true ->
  _pixmap bg = Some px0 -> valid px0 -> validImage (_themeImage bg) ->
  exists w1 w2 bg1 bg2,
    reset (mkWorld p bg a l n) = Done ((), w1)
    /\ w1 = mkWorld p bg1 a l n
    /\ _id bg1 = _id bg /\ _pixmap bg1 = _pixmap bg /\ _tile bg1 = _tile bg
    /\ Revert w1 = Done ((), w2)
    /\ instance w2
       = Some {| data_background := bg2; applying := Applying0 |}
    /\ _id bg2 = (if isNull (_themeImage bg) then kDefaultBackground
                  else kThemeBackground)
    /\ _tile bg2 = (if isNull (_themeImage bg) then false
                    else _themeTile bg).
Proof.
  intros Htesting Hpix Hpx Htheme.
  set (bg1 := if isNull (_themeImage bg)
              then with_revert kDefaultBackground None false bg
              else with_revert kThemeBackground (_themeImage bg)
                     (_themeTile bg) bg).
  assert (E1 : reset (mkWorld p bg a l n) = Done ((), mkWorld p bg1 a l n)).
  { unfold reset, mkWorld, bg1. run. rewrite Htesting.
    destruct (isNull (_themeImage bg)); reflexivity. }
  assert (Hkept : _id bg1 = _id bg /\ _pixmap bg1 = _pixmap bg
                  /\ _tile bg1 = _tile bg /\ _themeImage bg1 = _themeImage bg
                  /\ validImage (_imageForRevert bg1)).
  { unfold bg1. destruct (_themeImage bg) eqn:Et; cbn;
      repeat split; auto; apply Htheme. }
  destruct Hkept as (Hid & Hpix1 & Htile & Htheme1 & Himage).
  destruct (Revert_spec p bg1 a l n px0) as
    (p2 & px2 & pt2 & l2 & n2 & E2 & _);
    [now rewrite Hpix1|assumption|auto|now rewrite Htheme1|].
  exists (mkWorld p bg1 a l n), (mkWorld p2 (reverted bg1 (Some px2) (Some pt2)) Applying0 l2 n2), bg1,
    (reverted bg1 (Some px2) (Some pt2)).
  split; [exact E1|]. split; [reflexivity|].
  split; [exact Hid|]. split; [exact Hpix1|]. split; [exact Htile|].
  split; [exact E2|]. split; [reflexivity|].
  clear E1 E2. subst bg1.
  destruct bg as [id0 pm0 pt0 tile0 themeImage themeTile idR imageR tileR].
  cbn [_id _themeImage _themeTile] in *.
  destruct themeImage as [t|], id0; try discriminate; split; reflexivity.
Qed.

(** [KeepApplied] with the singleton there always returns: the pending
    record is emptied, a testing background becomes the theme's own (with
    the shown image as the theme image and the shown tile flag as the
    theme's) or the default one, the palette is not touched and one
    forced [ApplyingTheme] notification is sent. *)
Lemma KeepApplied_spec p bg a l n :
  exists l',
    KeepApplied (mkWorld p bg a l n)
    = Done ((), mkWorld p (kept bg) Applying0 l'
        (({| update_type := ApplyingTheme; update_tiled := _tile bg |},
          true) :: n)).
Proof.
  destruct bg as [id0 pm0 pt0 tile0 themeImage themeTile idR imageR tileR].
  unfold KeepApplied, keepApplied, writeNewBackgroundSettings, kept, mkWorld.
  run. cbn [_id _tile _tileForRevert].
  destruct id0; decide_ids; run; decide_ids; run;
    try (destruct (eqb tile0 tileR); cbn [negb]; run);
    eexists; reflexivity.
Qed.

(** A kept preview is final. After [Apply] of a theme with a background
    and [KeepApplied], the background is the theme's own, with the
    previewed image as the theme image and the previewed tile flag;
    [KeepApplied] does not touch the palette, and a [Revert] after it
    changes neither the palette nor the background identifier nor the
    tile flag. *)
Theorem KeepApplied_is_final preview p bg a l n px0 d :
  background (preview_instance preview) = Some d -> valid d ->
  _pixmap bg = Some px0 -> valid px0 -> validImage (_themeImage bg) ->
  exists w1 w2 w3 bg2 bg3,
    Apply preview (mkWorld p bg a l n) = Done (true, w1)
    /\ KeepApplied w1 = Done ((), w2)
    /\ Revert w2 = Done ((), w3)
    /\ main_palette w2 = main_palette w1
    /\ main_palette w3 = main_palette w1
    /\ instance w2
       = Some {| data_background := bg2; applying := Applying0 |}
    /\ instance w3
       = Some {| data_background := bg3; applying := Applying0 |}
    /\ _id bg2 = kThemeBackground /\ _id bg3 = kThemeBackground
    /\ _tile bg2 = tiled (preview_instance preview)
    /\ _tile bg3 = tiled (preview_instance preview)
    /\ _themeTile bg3 = tiled (preview_instance preview)
    /\ _themeImage bg2 = toImage (_pixmap bg2)
    /\ isNull (_themeImage bg3) = false.
Proof.
  intros Hd Hvalid Hpix Hpx Htheme.
  destruct (Apply_spec preview p bg a l n px0 Hpix Hpx) as
    (p1 & px1 & pt1 & l1 & n1 & E1 & Hpx1 & _);
    [rewrite Hd; exact Hvalid|exact Htheme|].
  rewrite Hd in E1.
  set (bg1 := previewed (Some d) (tiled (preview_instance preview)) bg
                (Some px1) (Some pt1)) in *.
  destruct (KeepApplied_spec p1 bg1 (pending preview p a) l1 n1)
    as (l2 & E2).
  set (n2 := _ :: n1) in E2.
  assert (Hbg2 : kept bg1
    = {| _id := kThemeBackground; _pixmap := Some px1;
         _pixmapForTiled := Some pt1;
         _tile := tiled (preview_instance preview);
         _themeImage := Some px1;
         _themeTile := tiled (preview_instance preview);
         _idForRevert := _idForRevert bg1;
         _imageForRevert := _imageForRevert bg1;
         _tileForRevert := _tileForRevert bg1 |}) by reflexivity.
  rewrite Hbg2 in E2.
  set (bg2 := {| _id := kThemeBackground |}) in *.
  destruct (Revert_spec p1 bg2 Applying0 l2 n2 px1 eq_refl Hpx1)
    as (p3 & px3 & pt3 & l3 & n3 & E3 & _ & _ & Hexact);
    [discriminate|exact Hpx1|].
  specialize (Hexact eq_refl).
  do 3 eexists. exists bg2, (reverted bg2 (Some px3) (Some pt3)).
  split; [exact E1|]. split; [exact E2|]. split; [exact E3|].
  cbn [mkWorld main_palette instance].
  split; [reflexivity|]. split; [exact Hexact|].
  repeat split.
Qed.

(** [start] does nothing to a background that is initialized. For an
    uninitialized one it takes the stored background when there is one;
    without one it takes the theme's own, which [setImage] turns into the
    default background when the theme has no image. Either way a pixmap
    is there afterwards. *)
Theorem start_initializes p bg a l n :
  validImage (_themeImage bg) ->
  (forall id image, (Local_readBackground l).1 = Some (id, image) ->
     validImage image) ->
  exists w' bg',
    start (mkWorld p bg a l n) = Done ((), w')
    /\ instance w' = Some {| data_background := bg'; applying := a |}
    /\ (_id bg <> kUninitializedBackground -> w' = mkWorld p bg a l n)
    /\ (_id bg = kUninitializedBackground ->
        isNull (_pixmap bg') = false
        /\ _id bg'
           = match (Local_readBackground l).1 with
             | Some (id, image) => settledId id image (_themeImage bg)
             | None => if isNull (_themeImage bg) then kDefaultBackground
                       else kThemeBackground
             end).
Proof.
  intros Htheme Hstored. unfold start, mkWorld. run.
  destruct (bool_decide (_id bg = kUninitializedBackground)) eqn:Hid.
  - apply bool_decide_eq_true in Hid. run.
    destruct (Local_readBackground l) as [[[id image]|] l1] eqn:Hread;
      cbn [fst] in *; run.
    + specialize (Hstored id image eq_refl).
      destruct (setImage_spec id image p bg a l1 n Hstored Htheme)
        as (p' & px & pt & l' & n' & E & _).
      cbv zeta in E. unfold mkWorld in E. rewrite E.
      do 2 eexists. split; [reflexivity|]. split; [reflexivity|].
      split; [intros Hno; contradiction|].
      intros _. split; reflexivity.
    + destruct (setImage_spec kThemeBackground None p bg a l1 n I Htheme)
        as (p' & px & pt & l' & n' & E & _).
      cbv zeta in E. unfold mkWorld in E. rewrite E.
      do 2 eexists. split; [reflexivity|]. split; [reflexivity|].
      split; [intros Hno; contradiction|].
      intros _. split; [reflexivity|]. cbn [_id].
      destruct (_themeImage bg); reflexivity.
  - apply bool_decide_eq_false in Hid. run.
    do 2 eexists. split; [reflexivity|]. split; [reflexivity|].
    split; [reflexivity|]. intros Hyes. contradiction.
Qed.

(** [ApplyDefault] on the theme's own background previews the default
    theme: the palette is reset, the background becomes the testing
    default one without tiling, the theme background and its tile flag
    are saved for the revert and the palette snapshot is taken unless one
    is pending. [KeepApplied] then makes the default background the
    current one and drops the theme image. *)
Theorem ApplyDefault_then_keep p bg a l n px0 :
  _id bg = kThemeBackground -> _pixmap bg = Some px0 -> valid px0 ->
  validImage (_themeImage bg) ->
  exists w1 w2 bg1 bg2,
    ApplyDefault (mkWorld p bg a l n) = Done ((), w1)
    /\ instance w1
       = Some {| data_background := bg1;
                 applying :=
                   {| path := ""; content := "";
                      paletteForRevert :=
                        if isEmpty (paletteForRevert a) then palette_save p
                        else paletteForRevert a;
                      applying_cached := Cached0 |} |}
    /\ recolored (palette_reset p) (main_palette w1)
    /\ _id bg1 = kTestingDefaultBackground /\ _tile bg1 = false
    /\ _idForRevert bg1 = kThemeBackground
    /\ _imageForRevert bg1 = Some px0 /\ _tileForRevert bg1 = _tile bg
    /\ KeepApplied w1 = Done ((), w2)
    /\ instance w2
       = Some {| data_background := bg2; applying := Applying0 |}
    /\ main_palette w2 = main_palette w1
    /\ _id bg2 = kDefaultBackground /\ _tile bg2 = false
    /\ _themeImage bg2 = None /\ _themeTile bg2 = false.
Proof.
  destruct bg as [id0 pm0 pt0 tile0 themeImage themeTile idR imageR tileR].
  cbn [_id _pixmap _themeImage _tile]. intros -> -> Hpx Htheme.
  unfold ApplyDefault, setTestingDefaultTheme, mkWorld. run.
  destruct (isEmpty (paletteForRevert a)); run; settle;
    saved; settle; imaged; settle; tiled_; settle;
    match goal with
    | |- context [Done ((),
          {| main_palette := ?p1;
             instance := Some {| data_background := ?b; applying := ?a1 |};
             storage := ?l1; notified := ?n1 |})] =>
        destruct (KeepApplied_spec p1 b a1 l1 n1) as (l2 & E2);
        unfold mkWorld in E2
    end;
    (do 4 eexists; split; [reflexivity|]); (split; [reflexivity|]);
    (split; [assumption|]);
    (split; [reflexivity|]); (split; [reflexivity|]);
    (split; [reflexivity|]); (split; [reflexivity|]);
    (split; [reflexivity|]);
    (split; [exact E2|]); repeat split.
Qed.

End StateMachine.

(** The sample's codecs keep what the state machine asks of them. *)
Lemma sample_converted_format fmt d :
  format (convertToFormat (P := Sample.Palette) fmt d) = fmt.
Proof. reflexivity. Qed.

Lemma sample_converted_valid fmt d :
  valid d -> valid (convertToFormat (P := Sample.Palette) fmt d).
Proof. intros Hd. exact Hd. Qed.

Lemma sample_scaled_valid z d :
  valid d -> valid (scaledToWidth (P := Sample.Palette) z d).
Proof. intros Hd. exact Hd. Qed.

Lemma sample_art_valid :
  valid (art_bg (P := Sample.Palette))
  /\ valid (art_bg_initial (P := Sample.Palette)).
Proof. repeat split. Qed.

(** C1 fails on the code for the tile flag. [revert] calls
    [setTile(_tileForRevert)] and then [setImage(_idForRevert, ...)];
    for the theme's own background [setImage] assigns [_tile =
    _themeTile], which undoes the restore just made. Here the user had
    switched tiling on over a theme whose flag is off: after two previews
    and [Revert] the background is the theme's again and tiling is off. *)
Lemma revert_resets_tile :
  isTesting (_id Sample.themed) = false
  /\ _tile Sample.themed = true
  /\ exists w1 w2 w3 d,
       Apply Sample.night (Sample.started Sample.themed) = Done (true, w1)
       /\ Apply Sample.dusk w1 = Done (true, w2)
       /\ Revert w2 = Done ((), w3)
       /\ instance w3 = Some d
       /\ _id (data_background d) = kThemeBackground
       /\ _tile (data_background d) = false.
Proof.
  split; [reflexivity|]. split; [reflexivity|].
  destruct sample_art_valid as [Hart Hinitial].
  destruct (Apply_spec sample_converted_format sample_converted_valid
              sample_scaled_valid Hart Hinitial
              Sample.night Sample.defaults Sample.themed Applying0
              Sample.disk [] (Sample.pixel 5) eq_refl)
    as (p1 & px1 & pt1 & l1 & n1 & E1 & Hpx1 & _);
    [split; reflexivity..|].
  set (bg1 := previewed (background (preview_instance Sample.night))
                (tiled (preview_instance Sample.night)) Sample.themed
                (Some px1) (Some pt1)) in *.
  destruct (Apply_spec sample_converted_format sample_converted_valid
              sample_scaled_valid Hart Hinitial
              Sample.dusk p1 bg1
              (pending Sample.night Sample.defaults Applying0)
              l1 n1 px1 eq_refl Hpx1)
    as (p2 & px2 & pt2 & l2 & n2 & E2 & Hpx2 & _);
    [exact I|split; reflexivity|].
  set (bg2 := previewed (background (preview_instance Sample.dusk))
                (tiled (preview_instance Sample.dusk)) bg1
                (Some px2) (Some pt2)) in *.
  destruct (Revert_spec sample_converted_format sample_converted_valid
              sample_scaled_valid Hart Hinitial
              p2 bg2 (pending Sample.dusk p1
                        (pending Sample.night Sample.defaults Applying0))
              l2 n2 px2 eq_refl Hpx2)
    as (p3 & px3 & pt3 & l3 & n3 & E3 & _);
    [intros _; split; reflexivity|split; reflexivity|].
  do 4 eexists.
  split; [exact E1|]. split; [exact E2|]. split; [exact E3|].
  split; [reflexivity|]. split; reflexivity.
Qed.

Lemma preview_chain_reverts_witness :
  chainReverts Sample.night Sample.dusk Sample.defaults Sample.custom
    Applying0 Sample.disk [].
Proof.
  apply (preview_chain_reverts sample_converted_format
           sample_converted_valid sample_scaled_valid
           (proj1 sample_art_valid) (proj2 sample_art_valid))
    with (px0 := Sample.pixel 6).
  - reflexivity.
  - intros q. reflexivity.
  - reflexivity.
  - split; reflexivity.
  - exact I.
  - discriminate.
  - reflexivity.
  - reflexivity.
  - split; reflexivity.
  - exact I.
Defined.

(** * Further properties of the code *)

(** ** The hex reader and the entry reader *)

Lemma land_255_range n : 0 <= Z.land n 255 <= 255.
Proof.
  change (Z.land n 255) with (Z.land n (Z.ones 8)).
  rewrite Z.land_ones by lia. change (2 ^ 8) with 256.
  pose proof (Z.mod_pos_bound n 256). lia.
Qed.

(** [readHexUchar] always gives a byte; it never clears [error], and sets
    it exactly when one of the two characters is no hex digit. *)
Theorem readHexUchar_flag char1 char2 error :
  0 <= (readHexUchar char1 char2 error).1 <= 255
  /\ (readHexUchar char1 char2 error).2
     = error || negb (isHexDigit char1) || negb (isHexDigit char2).
Proof.
  split.
  - unfold readHexUchar.
    destruct (readHexUchar1 char1 error) as [h e1].
    destruct (readHexUchar1 char2 e1) as [l e2].
    apply land_255_range.
  - pose proof (readHexUchar_error char1 char2 error) as E.
    cbn [snd] in *. rewrite E.
    destruct error, (isHexDigit char1), (isHexDigit char2); reflexivity.
Qed.

(** When [readNameAndValue] succeeds on an entry, the name it hands over
    is made of name characters, the value is such a name with an optional
    '#' before it, and the text left is shorter than the text read by the
    name, the value, the ':' and the ';' at least. *)
Theorem readNameAndValue_tokens from :
  nv_ok (readNameAndValue from) = true ->
  nv_name (readNameAndValue from) <> "" ->
  isName (nv_name (readNameAndValue from)) = true
  /\ isValue (nv_value (readNameAndValue from)) = true
  /\ (String.length (nv_name (readNameAndValue from))
      + String.length (nv_value (readNameAndValue from))
      + String.length (nv_from (readNameAndValue from)) + 2
      <= String.length from)%nat.
Proof.
  intros Hok Hname.
  destruct (readNameAndValue_ok from Hok) as [[_ Hempty]|Hentry];
    [contradiction|].
  destruct Hentry as (ws1 & ws2 & ws3 & ws4 & _ & _ & _ & _ & Hn & Hv & E).
  split; [exact Hn|]. split; [exact Hv|].
  apply (f_equal String.length) in E.
  rewrite !string_length_app in E. cbn [String.length] in E. lia.
Qed.

Lemma readNameAndValue_tokens_witness :
  isName "windowBg" = true /\ isValue "#336699" = true
  /\ nv_from (readNameAndValue " windowBg : #336699 ; tail") = " tail".
Proof.
  destruct (readNameAndValue_tokens " windowBg : #336699 ; tail")
    as (Hn & Hv & _); [reflexivity|discriminate|].
  split; [exact Hn|]. split; [exact Hv|]. reflexivity.
Defined.

(** ** The service colours *)

Lemma pixByte_range k pixel : 0 <= pixByte k pixel <= 255.
Proof. apply land_255_range. Qed.

Lemma sumBytes_range k pixels :
  0 <= sumBytes k pixels <= 255 * Z.of_nat (length pixels).
Proof.
  induction pixels as [|pixel pixels IH]; cbn [sumBytes foldr length].
  - lia.
  - pose proof (pixByte_range k pixel). unfold sumBytes in IH. lia.
Qed.

Lemma average_range k count (pixels : list Z) :
  let pix := take (Z.to_nat count) pixels in
  0 <= (if count =? 0 then sumBytes k pix else sumBytes k pix / count) <= 255.
Proof.
  cbv zeta.
  pose proof (sumBytes_range k (take (Z.to_nat count) pixels)) as Hsum.
  pose proof (length_take pixels (Z.to_nat count)) as Hlen.
  destruct (Z.eqb_spec count 0) as [->|Hcount].
  - change (Z.to_nat 0) with 0%nat. rewrite take_0.
    cbn [sumBytes foldr]. lia.
  - destruct (Z.lt_ge_cases count 0) as [Hneg|Hpos].
    + replace (Z.to_nat count) with 0%nat by lia.
      rewrite take_0. cbn [sumBytes foldr]. rewrite Z.div_0_l by lia. lia.
    + split; [apply Z.div_pos; lia|].
      apply Z.div_le_upper_bound; [lia|]. lia.
Qed.

Section ServiceColors.

Context {P L : Type} `{Registry P} `{Collaborators P L}.

(** [initColorsFromBackground] asserts the premultiplied format (a null
    image has none); otherwise it returns, having touched the palette
    only, and the three averages it makes a colour of are channel values,
    whatever the pixels and the dimensions are. *)
Theorem initColorsFromBackground_channels (img : QImage) (w : @World P L) :
  match img with
  | Some d =>
      if bool_decide (format d = Format_ARGB32_Premultiplied) then
        exists r g b,
          initColorsFromBackground img w
          = Done ((), {| main_palette := initServiceColors r g b (main_palette w);
                         instance := instance w; storage := storage w;
                         notified := notified w |})
          /\ 0 <= r <= 255 /\ 0 <= g <= 255 /\ 0 <= b <= 255
      else initColorsFromBackground img w = Crash AssertionFailed
  | None => initColorsFromBackground img w = Crash AssertionFailed
  end.
Proof.
  destruct img as [d|]; [|reflexivity].
  unfold initColorsFromBackground.
  destruct (bool_decide (format d = Format_ARGB32_Premultiplied));
    [|reflexivity].
  run. do 3 eexists. split; [reflexivity|].
  repeat split; apply average_range.
Qed.

End ServiceColors.

(** ** The rectangles of the background *)

Lemma uint64_small n : 0 <= n < 2 ^ 31 -> uint64 n = n.
Proof. intros Hn. unfold uint64. apply Z.mod_small. lia. Qed.

Lemma uint64_product a b :
  0 <= a < 2 ^ 31 -> 0 <= b < 2 ^ 31 ->
  uint64 (uint64 a * uint64 b) = a * b.
Proof.
  intros Ha Hb. rewrite (uint64_small a), (uint64_small b) by assumption.
  unfold uint64. apply Z.mod_small. nia.
Qed.

Lemma int32_small n : - 2 ^ 31 <= n < 2 ^ 31 -> int32 n = n.
Proof. intros Hn. unfold int32. rewrite Z.mod_small; lia. Qed.

(** The part taken of an extent: within it, of its parity, and the least
    such number from the computed one on. *)
Lemma adjustTake_spec t extent :
  0 <= t -> 0 <= extent < 2 ^ 31 ->
  let t' := adjustTake t extent in
  0 <= t' <= extent
  /\ 2 * Z.quot (int32 (extent - t')) 2 + t' = extent
  /\ (t <= extent -> t <= t' <= t + 1).
Proof.
  intros Ht Hextent. unfold adjustTake.
  destruct (Z.gtb_spec t extent) as [Hover|Hfits].
  - rewrite Z.sub_diag. change (int32 0) with 0.
    change (Z.quot 0 2) with 0. lia.
  - destruct (Z.eqb_spec (Z.rem extent 2) (Z.rem t 2)) as [Hsame|Hodd];
      cbn [negb].
    + rewrite int32_small by lia.
      Z.to_euclidean_division_equations; lia.
    + assert (t <> extent) by (intros ->; now apply Hodd).
      rewrite !int32_small by lia.
      Z.to_euclidean_division_equations; lia.
Qed.

Section RectClaims.

Context {F : Type} `{Float64 F}.

(** [ComputeBackgroundRects] for an image and a fill of [int] extents
    that are not negative, when the two [qCeil] results are not negative
    either: the source rectangle lies within the image and is centred in
    it; along the axis that is not cropped it is the whole image, and the
    target is the whole fill along that axis. The axis is chosen by
    comparing the aspect ratios as integers. *)
Theorem ComputeBackgroundRects_source wholeFill imageSize :
  0 <= size_width imageSize < 2 ^ 31 ->
  0 <= size_height imageSize < 2 ^ 31 ->
  0 <= rect_width wholeFill < 2 ^ 31 ->
  0 <= rect_height wholeFill < 2 ^ 31 ->
  0 <= qCeil (fdiv (float64 (rect_width wholeFill))
                (fdiv (float64 (rect_height wholeFill))
                   (float64 (size_height imageSize)))) ->
  0 <= qCeil (fdiv (float64 (rect_height wholeFill))
                (fdiv (float64 (rect_width wholeFill))
                   (float64 (size_width imageSize)))) ->
  let '(to, from) := ComputeBackgroundRects wholeFill imageSize in
  0 <= rect_x from /\ 0 <= rect_y from
  /\ 0 <= rect_width from /\ 0 <= rect_height from
  /\ 2 * rect_x from + rect_width from = size_width imageSize
  /\ 2 * rect_y from + rect_height from = size_height imageSize
  /\ (if size_width imageSize * rect_height wholeFill
         >? size_height imageSize * rect_width wholeFill
      then rect_height from = size_height imageSize
           /\ rect_y to = 0 /\ rect_height to = rect_height wholeFill
      else rect_width from = size_width imageSize
           /\ rect_x to = 0 /\ rect_width to = rect_width wholeFill).
Proof.
  intros Hw Hh HW HH Htw Hth. unfold ComputeBackgroundRects.
  rewrite !uint64_product by assumption.
  destruct (size_width imageSize * rect_height wholeFill
            >? size_height imageSize * rect_width wholeFill);
    cbn [rect_x rect_y rect_width rect_height].
  - destruct (adjustTake_spec _ (size_width imageSize) Htw Hw)
      as (Hrange & Hcentre & _).
    repeat split; lia.
  - destruct (adjustTake_spec _ (size_height imageSize) Hth Hh)
      as (Hrange & Hcentre & _).
    repeat split; lia.
Qed.

End RectClaims.

Lemma ComputeBackgroundRects_source_witness :
  let '(to, from) :=
    ComputeBackgroundRects (F := QArith_base.Q) Sample.window Sample.photo in
  0 <= rect_x from /\ 0 <= rect_y from
  /\ 0 <= rect_width from /\ 0 <= rect_height from
  /\ 2 * rect_x from + rect_width from = size_width Sample.photo
  /\ 2 * rect_y from + rect_height from = size_height Sample.photo
  /\ (if size_width Sample.photo * rect_height Sample.window
         >? size_height Sample.photo * rect_width Sample.window
      then rect_height from = size_height Sample.photo
           /\ rect_y to = 0 /\ rect_height to = rect_height Sample.window
      else rect_width from = size_width Sample.photo
           /\ rect_x to = 0 /\ rect_width to = rect_width Sample.window).
Proof.
  apply (ComputeBackgroundRects_source (F := QArith_base.Q)
           Sample.window Sample.photo);
    first [vm_compute; split; [discriminate|reflexivity]
          |vm_compute; discriminate].
Defined.

(** ** Loading for the live theme *)

Section PublicLoad.

Context {P L : Type} `{Registry P} `{Collaborators P L}.

Implicit Types (w : @World P L) (main : P).

Lemma setColorSchemeValue_public name value main :
  exists result main',
    setColorSchemeValue name value None main = (result, None, main').
Proof.
  unfold setColorSchemeValue, onPalette.
  destruct (Ascii.eqb _ _ && _).
  - destruct (readHexUchar _ _ _) as [r e1].
    destruct (readHexUchar _ _ e1) as [g e2].
    destruct (readHexUchar _ _ e2) as [b e3].
    destruct (if size value =? 9 then _ else _) as [a e4].
    destruct e4; [eauto|].
    destruct (palette_setColor name r g b a main) as [found p]. eauto.
  - destruct (palette_setColorRef name value main) as [found p]. eauto.
Qed.

Lemma schemeLoop_public fuel : forall from unsupported main result,
  schemeLoop fuel from unsupported None main = Some result ->
  exists b main', result = (b, None, main').
Proof.
  induction fuel as [|fuel IH]; intros from u main result; [discriminate|].
  cbn [schemeLoop].
  destruct (isEmpty from); [intros [= <-]; eauto|].
  destruct (negb (nv_ok _)); [intros [= <-]; eauto|].
  destruct (size _ =? 0); [intros [= <-]; eauto|].
  destruct (setColorSchemeValue_public (nv_name (readNameAndValue from))
              (default (nv_value (readNameAndValue from))
                 (u !! nv_value (readNameAndValue from))) main)
    as (result' & main' & ->).
  destruct result'; [apply IH|intros [= <-]; eauto|apply IH].
Qed.

Lemma runColorScheme_public content w :
  exists b p',
    runColorScheme content None w
    = Done ((b, None), {| main_palette := p'; instance := instance w;
                          storage := storage w; notified := notified w |}).
Proof.
  destruct w as [pal inst sto nots]. unfold runColorScheme, loadColorScheme.
  run. destruct (size content >? kThemeSchemeSizeLimit); [eauto|].
  unfold loadColorSchemeData.
  destruct (schemeLoop_spec (S (String.length (stripComments content)))
              (stripComments content) ∅ None pal)
    as (b & o & m & Hrun & _); [lia|apply goodMap_empty|].
  rewrite Hrun.
  destruct (schemeLoop_public _ _ _ _ _ Hrun) as (b' & m' & [= -> -> ->]).
  eauto.
Qed.

Lemma onlyThemeData_refl p p' inst sto nots :
  onlyThemeData
    {| main_palette := p; instance := inst; storage := sto;
       notified := nots |}
    {| main_palette := p'; instance := inst; storage := sto;
       notified := nots |}.
Proof. repeat split. now left. Qed.

Lemma loadThemeContent_public content cache w :
  exists ok cache' w',
    loadThemeContent content cache None w = Done ((ok, cache', None), w')
    /\ onlyThemeData w w'
    /\ (cache' = cache
        \/ exists image bmp tiled,
             saveBMP image = Some bmp
             /\ cache' = with_cache_tiled tiled
                           (with_cache_background bmp cache))
    /\ (unzOpen content = None -> instance w' = instance w /\ cache' = cache).
Proof.
  destruct w as [pal inst sto nots]. unfold loadThemeContent.
  destruct (unzOpen content) as [entries|] eqn:Hopen;
    cbn [zlib.open zlib.error];
    [change (zlib.UNZ_OK =? zlib.UNZ_OK) with true
    |change (zlib.UNZ_ERRNO =? zlib.UNZ_OK) with false]; cbv iota.
  - destruct (zlib.readFileContent _ _ _) as [scheme file].
    destruct (negb _).
    { do 3 eexists. split; [reflexivity|].
      split; [apply onlyThemeData_refl|]. split; [now left|discriminate]. }
    unfold mbind at 1, M_bind at 1.
    destruct (runColorScheme_public scheme
                {| main_palette := pal; instance := inst; storage := sto;
                   notified := nots |}) as (b & p' & ->).
    cbn [instance storage notified].
    destruct b; cbn [negb].
    2:{ do 3 eexists. split; [reflexivity|].
        split; [apply onlyThemeData_refl|]. split; [now left|discriminate]. }
    destruct (loadBackground file false) as [[[ok file'] bytes] flag].
    destruct ok; cbn [negb].
    2:{ do 3 eexists. split; [reflexivity|].
        split; [apply onlyThemeData_refl|]. split; [now left|discriminate]. }
    destruct (isEmpty bytes); cbn [negb].
    { do 3 eexists. split; [reflexivity|].
      split; [apply onlyThemeData_refl|]. split; [now left|discriminate]. }
    destruct (readImage bytes) as [image|].
    2:{ do 3 eexists. split; [reflexivity|].
        split; [apply onlyThemeData_refl|]. split; [now left|discriminate]. }
    destruct (saveBMP image) as [bmp|] eqn:Hbmp.
    2:{ do 3 eexists. split; [reflexivity|].
        split; [apply onlyThemeData_refl|]. split; [now left|discriminate]. }
    unfold applyBackground, setThemeData. run.
    destruct inst as [d|]; run;
      (do 3 eexists; split; [reflexivity|]);
      (split; [repeat split; right; do 2 eexists; reflexivity|]);
      (split; [right; do 3 eexists; split; [exact Hbmp|reflexivity]
              |discriminate]).
  - unfold mbind at 1, M_bind at 1.
    destruct (runColorScheme_public content
                {| main_palette := pal; instance := inst; storage := sto;
                   notified := nots |}) as (b & p' & ->).
    cbn [instance storage notified]. run.
    do 3 eexists. split; [reflexivity|].
    split; [apply onlyThemeData_refl|]. split; [now left|]. now intros _.
Qed.

(** [loadTheme] for the live theme always returns; it stores nothing and
    notifies nobody, and of the singleton it sets at most the theme image
    and the theme tile flag. The cache of a successful load has the saved
    palette, the registry's checksum and the CRC of the content, and its
    background is empty or what [save(.., "BMP")] wrote. *)
Lemma loadTheme_public content w :
  exists ok cache w',
    loadTheme content None w = Done ((ok, cache, None), w')
    /\ onlyThemeData w w'
    /\ (ok = true ->
        colors cache = palette_save (main_palette w')
        /\ paletteChecksum cache = palette_Checksum
        /\ contentChecksum cache = hashCrc32 content
        /\ (cached_background cache = ""
            \/ exists image, saveBMP image = Some (cached_background cache)))
    /\ (unzOpen content = None ->
        instance w' = instance w
        /\ (ok = true -> cached_background cache = ""
                         /\ cached_tiled cache = false)).
Proof.
  unfold loadTheme. unfold mbind at 1, M_bind at 1.
  destruct (loadThemeContent_public content Cached0 w)
    as (ok & cache & w' & -> & Honly & Hcache & Hplain).
  destruct w' as [pal' inst' sto' nots'].
  destruct ok; cbn [negb]; run.
  - do 3 eexists. split; [reflexivity|]. split; [exact Honly|].
    cbn [colors paletteChecksum contentChecksum cached_background
         cached_tiled main_palette].
    split.
    + intros _. repeat split.
      destruct Hcache as [->|(image & bmp & flag & Hbmp & ->)];
        [now left|right; eauto].
    + intros Hopen. destruct (Hplain Hopen) as [Hinst ->].
      split; [exact Hinst|]. intros _. split; reflexivity.
  - do 3 eexists. split; [reflexivity|]. split; [exact Honly|].
    split; [discriminate|].
    intros Hopen. destruct (Hplain Hopen) as [Hinst _].
    split; [exact Hinst|discriminate].
Qed.

Lemma loadThemeFromCache_public content cache w :
  exists hit w',
    loadThemeFromCache content cache w = Done (hit, w')
    /\ onlyThemeData w w'.
Proof.
  destruct w as [pal inst sto nots]. unfold loadThemeFromCache.
  destruct (negb (paletteChecksum cache =? palette_Checksum));
    [do 2 eexists; split; [reflexivity|apply onlyThemeData_refl]|].
  destruct (negb (contentChecksum cache =? hashCrc32 content));
    [do 2 eexists; split; [reflexivity|apply onlyThemeData_refl]|].
  destruct (negb (isEmpty (cached_background cache)));
    [destruct (readerRead (cached_background cache)) as [d|]|]; run;
    try (do 2 eexists; split; [reflexivity|apply onlyThemeData_refl]);
    destruct (palette_load (colors cache) pal) as [[|] p']; run;
    try (do 2 eexists; split; [reflexivity|apply onlyThemeData_refl]).
  unfold applyBackground, setThemeData. run.
  destruct inst as [data|]; run;
    (do 2 eexists; split; [reflexivity|]);
    repeat split; right; do 2 eexists; reflexivity.
Qed.

(** The cache [loadTheme] makes for the live theme is accepted by
    [loadThemeFromCache] for the same content, as long as the registry
    loads what it saved and the codec reads the BMP it wrote; the second
    pass again stores nothing and notifies nobody. *)
Theorem fresh_cache_is_accepted content w cache o w' :
  (forall image bmp, saveBMP image = Some bmp -> readerRead bmp <> None) ->
  (forall q, (palette_load (palette_save (main_palette w')) q).1 = true) ->
  loadTheme content None w = Done ((true, cache, o), w') ->
  exists w'',
    loadThemeFromCache content cache w' = Done (true, w'')
    /\ onlyThemeData w' w''.
Proof.
  intros Hcodec Hregistry Hload.
  destruct (loadTheme_public content w)
    as (ok & c & w1 & E & _ & Hcache & _).
  rewrite E in Hload. injection Hload as -> -> _ ->.
  destruct (Hcache eq_refl) as (Hcolors & Hpalette & Hcontent & Hbackground).
  destruct w' as [pal inst sto nots]. cbn [main_palette] in *.
  unfold loadThemeFromCache.
  rewrite Hpalette, Hcontent, !Z.eqb_refl. cbn [negb].
  assert (Hread : isEmpty (cached_background cache) = false ->
                  exists d, readerRead (cached_background cache) = Some d).
  { intros Hfilled.
    destruct Hbackground as [Hempty|(image & Hbmp)];
      [rewrite Hempty in Hfilled; discriminate|].
    destruct (readerRead (cached_background cache)) as [d|] eqn:Hd;
      [eauto|]. now apply Hcodec in Hbmp. }
  specialize (Hregistry pal). rewrite <- Hcolors in Hregistry.
  destruct (isEmpty (cached_background cache)); cbn [negb].
  - run. destruct (palette_load (colors cache) pal) as [loaded p'].
    cbn [fst] in Hregistry. subst loaded. run.
    eexists. split; [reflexivity|]. apply onlyThemeData_refl.
  - destruct (Hread eq_refl) as (d & ->). run.
    destruct (palette_load (colors cache) pal) as [loaded p'].
    cbn [fst] in Hregistry. subst loaded. run.
    unfold applyBackground, setThemeData. run.
    destruct inst as [data|]; run;
      (eexists; split; [reflexivity|]);
      repeat split; right; do 2 eexists; reflexivity.
Qed.

(** [Load] always returns and notifies nobody. A content of fewer than
    4 bytes fails with the world as it was. Otherwise the singleton is
    created and the cache is tried: on a hit [Load] returns true with the
    cache it was given and stores nothing. On a miss it runs [loadTheme]
    and returns its result and its cache; the storage afterwards is
    [Local::writeTheme] of the two paths, the content and that cache on
    the storage before exactly when [loadTheme] succeeded, and the storage
    before when it failed. *)
Theorem Load_stores_once pathRelative pathAbsolute content cache w :
  (size content < 4 ->
   Load pathRelative pathAbsolute content cache w = Done ((false, cache), w))
  /\ (4 <= size content ->
      exists hit w2,
        (createIfNull;; loadThemeFromCache content cache) w = Done (hit, w2)
        /\ storage w2 = storage w /\ notified w2 = notified w
        /\ instance w2 <> None
        /\ (hit = true ->
            Load pathRelative pathAbsolute content cache w
            = Done ((true, cache), w2))
        /\ (hit = false ->
            exists ok cache' w3,
              loadTheme content None w2 = Done ((ok, cache', None), w3)
              /\ storage w3 = storage w /\ notified w3 = notified w
              /\ instance w3 <> None
              /\ Load pathRelative pathAbsolute content cache w
                 = Done ((ok, cache'),
                     if ok
                     then {| main_palette := main_palette w3;
                             instance := instance w3;
                             storage :=
                               Local_writeTheme pathRelative pathAbsolute
                                 content cache' (storage w);
                             notified := notified w |}
                     else w3))).
Proof.
  destruct (Z.ltb_spec (size content) 4) as [Hshort|Hlong].
  { split; [|lia]. intros _. unfold Load.
    destruct (Z.ltb_spec (size content) 4); [reflexivity|lia]. }
  split; [lia|]. intros _.
  set (w1 := {| main_palette := main_palette w;
                instance := Some (default Data0 (instance w));
                storage := storage w; notified := notified w |}).
  assert (E1 : createIfNull w = Done ((), w1)).
  { destruct w as [pal [d|] sto nots]; reflexivity. }
  destruct (loadThemeFromCache_public content cache w1)
    as (hit & w2 & E2 & Hs2 & Hn2 & Hi2).
  assert (ELoad :
    Load pathRelative pathAbsolute content cache w
    = (if hit then mret (true, cache)
       else '(ok, cache, _) ← loadTheme content None;
            if negb ok then mret (false, cache) else
            writeTheme pathRelative pathAbsolute content cache;;
            mret (true, cache)) w2).
  { unfold Load. destruct (Z.ltb_spec (size content) 4); [lia|].
    unfold mbind at 1, M_bind at 1. rewrite E1.
    unfold mbind at 1, M_bind at 1. rewrite E2. reflexivity. }
  assert (Hthere : forall wa wb : @World P L,
            instance wa <> None ->
            (instance wb = instance wa
             \/ exists image tiled,
                  let d := default Data0 (instance wa) in
                  instance wb
                  = Some {| data_background :=
                              with_theme (prepareBackgroundImage (Some image))
                                tiled (data_background d);
                            applying := applying d |}) ->
            instance wb <> None).
  { intros wa wb Ha [->|(image & flag & ->)]; [exact Ha|discriminate]. }
  assert (Hi2' : instance w2 <> None)
    by (apply (Hthere w1); [discriminate|exact Hi2]).
  exists hit, w2. split.
  { unfold mbind, M_bind. rewrite E1. exact E2. }
  clear E1 E2 Hi2. unfold w1 in Hs2, Hn2. cbn [storage notified] in Hs2, Hn2.
  clearbody w1.
  split; [exact Hs2|]. split; [exact Hn2|]. split; [exact Hi2'|].
  split; [intros ->; exact ELoad|]. intros ->.
  destruct (loadTheme_public content w2)
    as (ok & c & w3 & E3 & (Hs3 & Hn3 & Hi3) & _).
  assert (Hi3' : instance w3 <> None) by (apply (Hthere w2); assumption).
  exists ok, c, w3. split; [exact E3|].
  split; [congruence|]. split; [congruence|]. split; [exact Hi3'|].
  rewrite ELoad. unfold mbind at 1, M_bind at 1. rewrite E3.
  destruct ok; cbn [negb]; [|reflexivity].
  destruct w3 as [pal3 inst3 sto3 nots3]. run.
  cbn [storage notified instance main_palette] in *.
  now rewrite Hs3, Hs2, Hn3, Hn2.
Qed.


End PublicLoad.

(** ** Who is told last *)

Section Notifications.

Context {P L : Type} `{Registry P} `{Collaborators P L}.

Implicit Types (w : @World P L).

Lemma bind_done {A B} (m : M A) (k : A -> M B) w r :
  (m ≫= k) w = Done r ->
  exists a w1, m w = Done (a, w1) /\ k a w1 = Done r.
Proof.
  unfold mbind, M_bind. destruct (m w) as [[a w1]|f]; [eauto|discriminate].
Qed.

Lemma this_done w bg w1 :
  this w = Done (bg, w1) ->
  w1 = w /\ exists d, instance w = Some d /\ data_background d = bg.
Proof.
  unfold this, deref, getInstance. unfold mbind, M_bind.
  destruct (instance w) as [d|] eqn:Hd; [|discriminate].
  intros [= <- <-]. eauto.
Qed.

(** A method that ends with [notify(BackgroundUpdate(type, _tile), true)]
    leaves that update, with the tile flag the background has, at the
    head of the notifications. *)
Lemma told_last {A} (m : M A) type w w' :
  (m;; bg ← this;
   notify {| update_type := type; update_tiled := _tile bg |} true) w
  = Done ((), w') ->
  exists d nots,
    instance w' = Some d
    /\ notified w'
       = ({| update_type := type;
             update_tiled := _tile (data_background d) |}, true) :: nots.
Proof.
  intros E.
  apply bind_done in E as (a & w1 & _ & E).
  apply bind_done in E as (bg & w2 & Hthis & E).
  apply this_done in Hthis as (-> & d & Hd & <-).
  injection E as <-. cbn [instance notified]. eauto.
Qed.

Lemma setTestingTheme_told theme w w' :
  setTestingTheme theme w = Done ((), w') ->
  exists d nots,
    instance w' = Some d
    /\ notified w'
       = ({| update_type := TestingTheme;
             update_tiled := _tile (data_background d) |}, true) :: nots.
Proof.
  unfold setTestingTheme. intros E.
  apply bind_done in E as (p & w1 & _ & E).
  apply bind_done in E as ([] & w2 & _ & E).
  apply bind_done in E as (bg & w3 & _ & E).
  exact (told_last _ _ _ _ E).
Qed.

Lemma revert_told w w' :
  revert w = Done ((), w') ->
  exists d nots,
    instance w' = Some d
    /\ notified w'
       = ({| update_type := RevertingTheme;
             update_tiled := _tile (data_background d) |}, true) :: nots.
Proof.
  unfold revert. intros E.
  apply bind_done in E as (bg & w1 & _ & E).
  exact (told_last _ _ _ _ E).
Qed.

Lemma Apply_told preview w w' :
  Apply preview w = Done (true, w') ->
  exists d nots,
    instance w' = Some d
    /\ notified w'
       = ({| update_type := TestingTheme;
             update_tiled := _tile (data_background d) |}, true) :: nots.
Proof.
  unfold Apply. intros E.
  apply bind_done in E as ([] & w1 & _ & E).
  apply bind_done in E as (a1 & w2 & _ & E).
  apply bind_done in E as ([] & w3 & _ & E).
  apply bind_done in E as (a2 & w4 & _ & E).
  apply bind_done in E as ([] & w5 & _ & E).
  apply bind_done in E as ([] & w6 & _ & E).
  apply bind_done in E as ([] & w7 & Htheme & E).
  injection E as <-. exact (setTestingTheme_told _ _ _ Htheme).
Qed.

Lemma Revert_told w w' :
  Revert w = Done ((), w') ->
  exists d nots,
    instance w' = Some d
    /\ notified w'
       = ({| update_type := RevertingTheme;
             update_tiled := _tile (data_background d) |}, true) :: nots.
Proof.
  unfold Revert. intros E.
  apply bind_done in E as (a1 & w1 & _ & E).
  apply bind_done in E as ([] & w2 & _ & E).
  apply bind_done in E as ([] & w3 & _ & E).
  apply bind_done in E as ([] & w4 & _ & E).
  exact (revert_told _ _ E).
Qed.

End Notifications.

Section Observers.

Context {P L : Type} `{Registry P} `{Collaborators P L}.

Hypothesis converted_format : forall fmt d,
  format (convertToFormat fmt d) = fmt.
Hypothesis converted_valid : forall fmt d,
  valid d -> valid (convertToFormat fmt d).
Hypothesis scaled_valid : forall z d, valid d -> valid (scaledToWidth z d).
Hypothesis art_bg_valid : valid art_bg.
Hypothesis art_bg_initial_valid : valid art_bg_initial.

(** [Apply] and [Revert] tell the observers last: when they return, the
    latest notification is a forced [TestingTheme], respectively
    [RevertingTheme], update that carries the tile flag the background
    ends with; after [Revert] nothing is pending. *)
Theorem observers_told_last preview p bg a l n px0 :
  _pixmap bg = Some px0 -> valid px0 ->
  validImage (background (preview_instance preview)) ->
  validImage (_themeImage bg) ->
  (isTesting (_id bg) = true -> validImage (_imageForRevert bg)) ->
  (exists w' d nots,
     Apply preview (mkWorld p bg a l n) = Done (true, w')
     /\ instance w' = Some d
     /\ applying d = pending preview p a
     /\ notified w'
        = ({| update_type := TestingTheme;
              update_tiled := _tile (data_background d) |}, true) :: nots)
  /\ (exists w' d nots,
        Revert (mkWorld p bg a l n) = Done ((), w')
        /\ instance w' = Some d
        /\ applying d = Applying0
        /\ notified w'
           = ({| update_type := RevertingTheme;
                 update_tiled := _tile (data_background d) |}, true)
               :: nots).
Proof.
  intros Hpix Hpx Hbackground Htheme Hsaved. split.
  - destruct (Apply_spec converted_format converted_valid scaled_valid
                art_bg_valid art_bg_initial_valid preview p bg a l n px0
                Hpix Hpx Hbackground Htheme)
      as (p' & px & pt & l' & n' & E & _).
    destruct (Apply_told _ _ _ E) as (d & nots & Hd & Hn).
    exists (mkWorld p'
              (previewed (background (preview_instance preview))
                 (tiled (preview_instance preview)) bg (Some px) (Some pt))
              (pending preview p a) l' n'), d, nots.
    split; [exact E|]. split; [exact Hd|]. split; [|exact Hn].
    cbn [mkWorld instance] in Hd. now injection Hd as <-.
  - destruct (Revert_spec converted_format converted_valid scaled_valid
                art_bg_valid art_bg_initial_valid p bg a l n px0
                Hpix Hpx Hsaved Htheme)
      as (p' & px & pt & l' & n' & E & _).
    destruct (Revert_told _ _ E) as (d & nots & Hd & Hn).
    exists (mkWorld p' (reverted bg (Some px) (Some pt)) Applying0 l' n'),
      d, nots.
    split; [exact E|]. split; [exact Hd|]. split; [|exact Hn].
    cbn [mkWorld instance] in Hd. now injection Hd as <-.
Qed.

(** A theme archive with a background image, loaded for the live theme
    into a background that is not initialized yet, and [start] with no
    background stored: the load succeeds with the image as a BMP in the
    cache, and the background then starts as the theme's own, with the
    tile flag the name of the archive entry gives. *)
Theorem loaded_theme_background_starts content entries name bytes image bmp
    p p1 bg a l n :
  schemeLoaded content entries None (mkWorld p bg a l n) None
    (mkWorld p1 bg a l n) ->
  firstFound probeOrder entries = Some (name, zlib.Readable bytes) ->
  size bytes <= kThemeBackgroundSizeLimit -> isEmpty bytes = false ->
  readImage bytes = Some image -> valid image ->
  saveBMP image = Some bmp ->
  _id bg = kUninitializedBackground ->
  (Local_readBackground l).1 = None ->
  exists cache w2 w3 bg3,
    loadTheme content None (mkWorld p bg a l n)
    = Done ((true, cache, None), w2)
    /\ cached_background cache = bmp
    /\ cached_tiled cache = isTiledName name
    /\ start w2 = Done ((), w3)
    /\ instance w3 = Some {| data_background := bg3; applying := a |}
    /\ main_palette w3 = p1
    /\ _id bg3 = kThemeBackground
    /\ _tile bg3 = isTiledName name
    /\ isNull (_pixmap bg3) = false.
Proof.
  intros Hscheme Hfound Hsize Hfilled Himage Hvalid Hbmp Hid Hstored.
  pose proof (loadBackground_probing entries) as Hprobe.
  cbv zeta in Hprobe. rewrite Hfound in Hprobe.
  destruct (Z.gtb_spec (size bytes) kThemeBackgroundSizeLimit); [lia|].
  destruct (prepareBackgroundImage_valid converted_valid image Hvalid)
    as (t & Ht & Hvt).
  set (bg2 := with_theme (Some t) (isTiledName name) bg).
  assert (E2 : loadTheme content None (mkWorld p bg a l n)
               = Done ((true,
                        {| colors := palette_save p1;
                           cached_background := bmp;
                           cached_tiled := isTiledName name;
                           paletteChecksum := palette_Checksum;
                           contentChecksum := hashCrc32 content |}, None),
                       mkWorld p1 bg2 a l n)).
  { unfold loadTheme. unfold mbind at 1, M_bind at 1.
    rewrite (loadThemeContent_packaged _ _ _ _ _ _ _ Hscheme).
    rewrite Hprobe. cbn [negb]. rewrite Hfilled. cbn [negb].
    rewrite Himage, Hbmp.
    unfold applyBackground, setThemeData, mkWorld, bg2. run.
    rewrite Ht. reflexivity. }
  destruct (Local_readBackground l) as [stored l1] eqn:Hread.
  cbn [fst] in Hstored. subst stored.
  destruct (setImage_spec converted_format converted_valid scaled_valid
              art_bg_valid art_bg_initial_valid kThemeBackground None
              p1 bg2 a l1 n I Hvt)
    as (p3 & px & pt & l3 & n3 & E3 & _ & _ & Hsame).
  cbv zeta in E3, Hsame.
  assert (Hsettled : settledId kThemeBackground None (_themeImage bg2)
                     = kThemeBackground) by reflexivity.
  rewrite Hsettled in E3. specialize (Hsame Hsettled). subst p3.
  do 4 eexists. split; [exact E2|].
  split; [reflexivity|]. split; [reflexivity|].
  split.
  { unfold start, mkWorld, bg2, with_theme. run. cbn [_id]. rewrite Hid.
    rewrite (bool_decide_eq_true_2
               (kUninitializedBackground = kUninitializedBackground))
      by reflexivity.
    run. rewrite Hread. run.
    unfold mkWorld, bg2, with_theme in E3. rewrite Hid in E3. exact E3. }
  cbn [mkWorld instance main_palette].
  split; [reflexivity|]. split; [reflexivity|]. repeat split.
Qed.

End Observers.


(** ** The properties on the sample *)

Lemma prepareBackgroundImage_idempotent_witness :
  prepareBackgroundImage (P := Sample.Palette)
    (prepareBackgroundImage (P := Sample.Palette) (Some Sample.square))
  = prepareBackgroundImage (P := Sample.Palette) (Some Sample.square).
Proof.
  exact (proj1 (prepareBackgroundImage_idempotent sample_converted_format
                  (Some Sample.square))).
Defined.

Lemma setImage_settles_witness :
  exists w' bg',
    setImage (kCustom 3) None (Sample.started Sample.custom) = Done ((), w')
    /\ instance w' = Some {| data_background := bg'; applying := Applying0 |}
    /\ isNull (_pixmap bg') = false
    /\ _themeImage bg' = None.
Proof.
  destruct (setImage_settles sample_converted_format sample_converted_valid
              sample_scaled_valid (proj1 sample_art_valid)
              (proj2 sample_art_valid) (kCustom 3) None Sample.defaults
              Sample.custom Applying0 Sample.disk [] I I)
    as (w' & bg' & E & Hinstance & Hpixmap & _ & _ & _ & _ & Htheme & _).
  exists w', bg'. split; [exact E|]. split; [exact Hinstance|].
  split; [exact Hpixmap|exact Htheme].
Defined.

Lemma setTile_effects_witness :
  setTile true (Sample.started Sample.previewing)
  = Done ((), mkWorld Sample.defaults (with_tile true Sample.previewing)
                Applying0 Sample.disk
                [({| update_type := Changed; update_tiled := true |}, false)]).
Proof.
  exact (setTile_effects (P := Sample.Palette) true Sample.defaults
           Sample.previewing Applying0 Sample.disk [] eq_refl).
Defined.


Lemma reset_in_preview_witness :
  exists w1 w2 bg2,
    reset (Sample.started Sample.previewing) = Done ((), w1)
    /\ Revert w1 = Done ((), w2)
    /\ instance w2 = Some {| data_background := bg2; applying := Applying0 |}
    /\ _id bg2 = kThemeBackground /\ _tile bg2 = true.
Proof.
  destruct (reset_in_preview sample_converted_format
              sample_converted_valid sample_scaled_valid
              (proj1 sample_art_valid) (proj2 sample_art_valid)
              Sample.defaults Sample.previewing Applying0 Sample.disk []
              (Sample.pixel 9) eq_refl eq_refl)
    as (w1 & w2 & bg1 & bg2 & E1 & _ & _ & _ & _ & E2 & Hinstance & Hid
        & Htile);
    [split; reflexivity..|].
  exists w1, w2, bg2. split; [exact E1|]. split; [exact E2|].
  split; [exact Hinstance|]. split; [exact Hid|exact Htile].
Defined.

Lemma KeepApplied_is_final_witness :
  exists w1 w2 w3 bg3,
    Apply Sample.night (Sample.started Sample.custom) = Done (true, w1)
    /\ KeepApplied w1 = Done ((), w2)
    /\ Revert w2 = Done ((), w3)
    /\ main_palette w3 = main_palette w1
    /\ instance w3 = Some {| data_background := bg3; applying := Applying0 |}
    /\ _id bg3 = kThemeBackground.
Proof.
  destruct (KeepApplied_is_final sample_converted_format
              sample_converted_valid sample_scaled_valid
              (proj1 sample_art_valid) (proj2 sample_art_valid)
              Sample.night Sample.defaults Sample.custom Applying0
              Sample.disk [] (Sample.pixel 6) (Sample.pixel 9) eq_refl)
    as (w1 & w2 & w3 & bg2 & bg3 & E1 & E2 & E3 & _ & Hpalette & _
        & Hinstance & _ & Hid & _);
    [split; reflexivity|reflexivity|split; reflexivity|exact I|].
  exists w1, w2, w3, bg3. split; [exact E1|]. split; [exact E2|].
  split; [exact E3|]. split; [exact Hpalette|].
  split; [exact Hinstance|exact Hid].
Defined.

Lemma start_initializes_witness :
  exists w' bg',
    start (mkWorld Sample.defaults ChatBackground0 Applying0 Sample.disk [])
    = Done ((), w')
    /\ instance w' = Some {| data_background := bg'; applying := Applying0 |}
    /\ isNull (_pixmap bg') = false
    /\ _id bg' = kDefaultBackground.
Proof.
  destruct (start_initializes sample_converted_format
              sample_converted_valid sample_scaled_valid
              (proj1 sample_art_valid) (proj2 sample_art_valid)
              Sample.defaults ChatBackground0 Applying0 Sample.disk [] I)
    as (w' & bg' & E & Hinstance & _ & Hfresh);
    [intros id image; discriminate|].
  destruct (Hfresh eq_refl) as [Hpixmap Hid].
  exists w', bg'. split; [exact E|]. split; [exact Hinstance|].
  split; [exact Hpixmap|exact Hid].
Defined.

Lemma ApplyDefault_then_keep_witness :
  exists w1 w2 bg2,
    ApplyDefault (Sample.started Sample.themed) = Done ((), w1)
    /\ KeepApplied w1 = Done ((), w2)
    /\ instance w2 = Some {| data_background := bg2; applying := Applying0 |}
    /\ _id bg2 = kDefaultBackground /\ _themeImage bg2 = None.
Proof.
  destruct (ApplyDefault_then_keep sample_converted_format
              sample_converted_valid sample_scaled_valid
              (proj1 sample_art_valid) (proj2 sample_art_valid)
              Sample.defaults Sample.themed Applying0 Sample.disk []
              (Sample.pixel 5) eq_refl eq_refl)
    as (w1 & w2 & bg1 & bg2 & E1 & _ & _ & _ & _ & _ & _ & _ & E2
        & Hinstance & _ & Hid & _ & Htheme & _);
    [split; reflexivity..|].
  exists w1, w2, bg2. split; [exact E1|]. split; [exact E2|].
  split; [exact Hinstance|]. split; [exact Hid|exact Htheme].
Defined.

Lemma fresh_cache_is_accepted_witness :
  exists cache w',
    loadTheme "PK01" None Sample.world = Done ((true, cache, None), w')
    /\ exists w'',
         loadThemeFromCache "PK01" cache w' = Done (true, w'')
         /\ onlyThemeData w' w''.
Proof.
  do 2 eexists. split; [vm_compute; reflexivity|].
  eapply (fresh_cache_is_accepted (P := Sample.Palette) "PK01" Sample.world).
  - intros image bmp [= <-]. discriminate.
  - intros q. reflexivity.
  - vm_compute. reflexivity.
Defined.


Lemma observers_told_last_witness :
  exists w' d nots,
    Apply Sample.night (Sample.started Sample.custom) = Done (true, w')
    /\ instance w' = Some d
    /\ notified w'
       = ({| update_type := TestingTheme;
             update_tiled := _tile (data_background d) |}, true) :: nots.
Proof.
  destruct (observers_told_last sample_converted_format
              sample_converted_valid sample_scaled_valid
              (proj1 sample_art_valid) (proj2 sample_art_valid)
              Sample.night Sample.defaults Sample.custom Applying0
              Sample.disk [] (Sample.pixel 6) eq_refl)
    as [(w' & d & nots & E & Hd & _ & Hn) _];
    [split; reflexivity|split; reflexivity|exact I|discriminate|].
  exists w', d, nots. split; [exact E|]. split; [exact Hd|exact Hn].
Defined.

Lemma preview_with_background_witness :
  exists w' bg',
    Apply Sample.night (Sample.started Sample.custom) = Done (true, w')
    /\ storage w' = Sample.disk
    /\ main_palette w' = palette (preview_instance Sample.night)
    /\ instance w'
       = Some {| data_background := bg';
                 applying := pending Sample.night Sample.defaults Applying0 |}
    /\ _id bg' = kTestingThemeBackground.
Proof.
  destruct (preview_with_background sample_converted_valid Sample.night
              Sample.defaults Sample.custom Applying0 Sample.disk []
              (Sample.pixel 6) (Sample.pixel 9) eq_refl)
    as (n' & bg' & E & Hid & _); [split; reflexivity|reflexivity|].
  do 2 eexists. split; [exact E|].
  split; [reflexivity|]. split; [reflexivity|].
  split; [reflexivity|exact Hid].
Defined.

Lemma loaded_theme_background_starts_witness :
  exists cache w2 w3 bg3,
    loadTheme "PK01" None
      (mkWorld Sample.defaults ChatBackground0 Applying0 Sample.disk [])
    = Done ((true, cache, None), w2)
    /\ start w2 = Done ((), w3)
    /\ instance w3 = Some {| data_background := bg3; applying := Applying0 |}
    /\ _id bg3 = kThemeBackground /\ _tile bg3 = true.
Proof.
  destruct (loaded_theme_background_starts sample_converted_format
              sample_converted_valid sample_scaled_valid
              (proj1 sample_art_valid) (proj2 sample_art_valid)
              "PK01"
              [("colors.tdesktop-theme", zlib.Readable "windowBg: #336699;");
               ("tiled.png", zlib.Readable "png")]%string
              "tiled.png" "png" (Sample.pixel 112) "BM" Sample.defaults
              (Sample.update "windowBg" (51, 102, 153, 255)
                 Sample.defaults).2
              ChatBackground0 Applying0 Sample.disk [])
    as (cache & w2 & w3 & bg3 & E2 & _ & _ & E3 & Hinstance & _ & Hid
        & Htile & _);
    try reflexivity.
  - exists "windowBg: #336699;"%string.
    split; [reflexivity|]. split; [reflexivity|].
    split; [vm_compute; discriminate|]. vm_compute. reflexivity.
  - vm_compute. discriminate.
  - split; reflexivity.
  - exists cache, w2, w3, bg3. split; [exact E2|]. split; [exact E3|].
    split; [exact Hinstance|]. split; [exact Hid|exact Htile].
Defined.

Lemma Load_stores_once_witness :
  exists cache w',
    Load "day" "/day" "PK03" Cached0 Sample.world = Done ((true, cache), w')
    /\ Sample.hasTheme (storage w') = true
    /\ exists w'',
         Load "day" "/day" "PK03" cache w' = Done ((true, cache), w'')
         /\ storage w'' = storage w'.
Proof.
  destruct (Load_stores_once (P := Sample.Palette) "day" "/day" "PK03"
              Cached0 Sample.world) as [_ Hlong].
  destruct Hlong as (hit & w2 & E & _ & _ & _ & _ & Hmiss);
    [vm_compute; discriminate|].
  vm_compute in E. injection E as <- <-.
  destruct (Hmiss eq_refl) as (ok & c & w3 & E3 & _ & _ & _ & ELoad).
  vm_compute in E3. injection E3 as <- <- <-.
  do 2 eexists. split; [exact ELoad|]. split; [reflexivity|].
  match goal with
  | |- exists w'', Load _ _ _ ?c ?w = _ /\ _ =>
      destruct (Load_stores_once (P := Sample.Palette) "day" "/day" "PK03"
                  c w) as [_ Hagain]
  end.
  destruct Hagain as (hit & w4 & E & Hs & _ & _ & Hhit & _);
    [vm_compute; discriminate|].
  vm_compute in E. injection E as <- <-.
  eexists. split; [exact (Hhit eq_refl)|reflexivity].
Defined.
